(** * A shallow embedding of the slop conversation engine

    The development follows the Go sources:
    - [internal/message/messageService.go]: [MessageService.SendMessage], the
      streaming callback built inside it, and [MessageService.GetThreadDetails];
    - [internal/llm/llmClient.go]: [Client.SendMessage];
    - the [msg] command of the command line ([CLIStreamHandler], its [Reset]
      and the incremental re-formatter [formatJSON]).

    Go strings are byte sequences; [range] over a string decodes UTF-8. *)

From Stdlib Require Import ZArith List Bool Lia String Ascii.
From Stdlib Require Import Strings.Byte.
Import ListNotations.

Set Implicit Arguments.
Set Warnings "-register-all,-abstract-large-number".

Local Open Scope Z_scope.

(* ================================================================== *)
(** * Go values: strings, bytes, runes, machine integers *)
(* ================================================================== *)

Module Go.

(** A Go [string]: an immutable sequence of bytes. *)
Abbreviation gostring := (list byte) (only parsing).

(** A string literal of the source. *)
Definition bs (s : String.string) : gostring := list_byte_of_string s.

(** [s == t] on strings. *)
Fixpoint streq (s t : gostring) : bool :=
  match s, t with
  | [], [] => true
  | a :: s', b :: t' => Byte.eqb a b && streq s' t'
  | _, _ => false
  end.

(** [l[len(l)-1]], when [len(l) > 0]. *)
Fixpoint lastOf {A} (l : list A) : option A :=
  match l with
  | [] => None
  | [x] => Some x
  | _ :: l' => lastOf l'
  end.

(** [len(s)] *)
Definition len {A} (s : list A) : Z := Z.of_nat (List.length s).

(** A Go [rune] is an [int32] holding a code point. *)
Abbreviation rune := Z (only parsing).

Definition byteVal (b : byte) : Z := Z.of_N (Byte.to_N b).

(** The conversion [byte(x)]: truncation to the low eight bits. *)
Definition byteOf (z : Z) : byte :=
  match Byte.of_N (Z.to_N (z mod 256)) with
  | Some b => b
  | None => x00
  end.

(** Go's [int] on the 64-bit targets: increments and decrements wrap. *)
Definition wrapInt (z : Z) : Z := (z + 2 ^ 63) mod 2 ^ 64 - 2 ^ 63.

Definition RuneError : rune := 65533.       (* U+FFFD *)
Definition MaxRune : rune := 1114111.       (* U+10FFFF *)

Definition inRange (lo hi : Z) (b : byte) : bool :=
  (lo <=? byteVal b) && (byteVal b <=? hi).

(** Is [b] a UTF-8 continuation byte, [locb <= b <= hicb]? *)
Definition isCont (b : byte) : bool := inRange 128 191 b.

(** The [first] and [acceptRanges] tables of [unicode/utf8], read as a
    function: for a leading byte, the length of the sequence and the range
    accepted for its second byte; [None] for a byte that starts no
    multi-byte sequence. *)
Definition leadInfo (b0 : byte) : option (nat * Z * Z) :=
  let v := byteVal b0 in
  if (194 <=? v) && (v <=? 223) then Some (2%nat, 128, 191)
  else if v =? 224 then Some (3%nat, 160, 191)
  else if (225 <=? v) && (v <=? 236) then Some (3%nat, 128, 191)
  else if v =? 237 then Some (3%nat, 128, 159)
  else if (238 <=? v) && (v <=? 239) then Some (3%nat, 128, 191)
  else if v =? 240 then Some (4%nat, 144, 191)
  else if (241 <=? v) && (v <=? 243) then Some (4%nat, 128, 191)
  else if v =? 244 then Some (4%nat, 128, 143)
  else None.

(** [utf8.DecodeRuneInString] on the non-empty string [b0 :: rest]: the rune
    and its width in bytes.  An ill-formed or truncated sequence decodes to
    [RuneError] with width one. *)
Definition decodeRune (b0 : byte) (rest : gostring) : rune * nat :=
  if byteVal b0 <? 128 then (byteVal b0, 1%nat)
  else
    match leadInfo b0 with
    | None => (RuneError, 1%nat)
    | Some (sz, lo, hi) =>
        match rest with
        | [] => (RuneError, 1%nat)
        | s1 :: rest1 =>
            if negb (inRange lo hi s1) then (RuneError, 1%nat)
            else if (sz <=? 2)%nat then
              (Z.lor (Z.shiftl (Z.land (byteVal b0) 31) 6)
                     (Z.land (byteVal s1) 63), 2%nat)
            else
              match rest1 with
              | [] => (RuneError, 1%nat)
              | s2 :: rest2 =>
                  if negb (isCont s2) then (RuneError, 1%nat)
                  else if (sz <=? 3)%nat then
                    (Z.lor (Z.lor (Z.shiftl (Z.land (byteVal b0) 15) 12)
                                  (Z.shiftl (Z.land (byteVal s1) 63) 6))
                           (Z.land (byteVal s2) 63), 3%nat)
                  else
                    match rest2 with
                    | [] => (RuneError, 1%nat)
                    | s3 :: _ =>
                        if negb (isCont s3) then (RuneError, 1%nat)
                        else
                          (Z.lor (Z.lor (Z.lor
                             (Z.shiftl (Z.land (byteVal b0) 7) 18)
                             (Z.shiftl (Z.land (byteVal s1) 63) 12))
                             (Z.shiftl (Z.land (byteVal s2) 63) 6))
                             (Z.land (byteVal s3) 63), 4%nat)
                    end
              end
        end
    end.

(** The runes that [for _, char := range s] yields, in order: each iteration
    decodes one rune at the current offset and advances by its width. *)
Fixpoint rangeString (s : gostring) : list rune :=
  match s with
  | [] => []
  | b0 :: r0 =>
      let '(r, w) := decodeRune b0 r0 in
      r :: match w, r0 with
           | 2%nat, _ :: r1 => rangeString r1
           | 3%nat, _ :: _ :: r2 => rangeString r2
           | 4%nat, _ :: _ :: _ :: r3 => rangeString r3
           | _, _ => rangeString r0
           end
  end.

(** [utf8.AppendRune]: the UTF-8 encoding of a rune; surrogates and values
    out of range are written as the encoding of [RuneError]. *)
Definition encodeRune (r : rune) : gostring :=
  if (0 <=? r) && (r <=? 127) then [byteOf r]
  else if (0 <=? r) && (r <=? 2047) then
    [byteOf (Z.lor 192 (Z.shiftr r 6)); byteOf (Z.lor 128 (Z.land r 63))]
  else if ((2048 <=? r) && (r <? 55296)) || ((57343 <? r) && (r <=? 65535)) then
    [byteOf (Z.lor 224 (Z.shiftr r 12));
     byteOf (Z.lor 128 (Z.land (Z.shiftr r 6) 63));
     byteOf (Z.lor 128 (Z.land r 63))]
  else if (65535 <? r) && (r <=? MaxRune) then
    [byteOf (Z.lor 240 (Z.shiftr r 18));
     byteOf (Z.lor 128 (Z.land (Z.shiftr r 12) 63));
     byteOf (Z.lor 128 (Z.land (Z.shiftr r 6) 63));
     byteOf (Z.lor 128 (Z.land r 63))]
  else [xef; xbf; xbd].

(** A string all of whose bytes are below [utf8.RuneSelf]. *)
Definition isASCII (s : gostring) : Prop := Forall (fun b => byteVal b < 128) s.

Definition isASCIIb (s : gostring) : bool := forallb (fun b => byteVal b <? 128) s.

End Go.

(* ================================================================== *)
(** * Package [encoding/json]: syntax of JSON texts *)
(* ================================================================== *)

Module json.
Import Go.

(** A JSON value; a string is kept unquoted, a number as its literal. *)
Inductive Value : Type :=
| Null
| Bool (b : bool)
| Number (lit : gostring)
| String (s : gostring)
| Array (elems : list Value)
| Object (members : list (gostring * Value)).

(** White space between tokens: space, tab, carriage return, line feed. *)
Definition isSpace (b : byte) : bool :=
  Byte.eqb b x20 || Byte.eqb b x09 || Byte.eqb b x0d || Byte.eqb b x0a.

Fixpoint skipSpace (s : gostring) : gostring :=
  match s with
  | b :: r => if isSpace b then skipSpace r else s
  | [] => []
  end.

Definition isDigit (b : byte) : bool := inRange 48 57 b.

Definition hexVal (b : byte) : option Z :=
  if inRange 48 57 b then Some (byteVal b - 48)
  else if inRange 97 102 b then Some (byteVal b - 97 + 10)
  else if inRange 65 70 b then Some (byteVal b - 65 + 10)
  else None.

(** [getu4] past the two characters backslash, u: four hexadecimal digits. *)
Definition hex4 (s : gostring) : option (Z * gostring) :=
  match s with
  | a :: b :: c :: d :: r =>
      match hexVal a, hexVal b, hexVal c, hexVal d with
      | Some va, Some vb, Some vc, Some vd =>
          Some (va * 4096 + vb * 256 + vc * 16 + vd, r)
      | _, _, _, _ => None
      end
  | _ => None
  end.

Definition isSurrogate (r : rune) : bool := (55296 <=? r) && (r <? 57344).

(** [utf16.DecodeRune] *)
Definition utf16DecodeRune (r1 r2 : rune) : rune :=
  if (55296 <=? r1) && (r1 <? 56320) && (56320 <=? r2) && (r2 <? 57344)
  then Z.lor (Z.shiftl (r1 - 55296) 10) (r2 - 56320) + 65536
  else RuneError.

(** The character a one-letter escape stands for. *)
Definition simpleEscape (e : byte) : option byte :=
  if Byte.eqb e x22 then Some x22            (* quote *)
  else if Byte.eqb e x5c then Some x5c       (* backslash *)
  else if Byte.eqb e x2f then Some x2f       (* slash *)
  else if Byte.eqb e x62 then Some x08       (* b *)
  else if Byte.eqb e x66 then Some x0c       (* f *)
  else if Byte.eqb e x6e then Some x0a       (* n *)
  else if Byte.eqb e x72 then Some x0d       (* r *)
  else if Byte.eqb e x74 then Some x09       (* t *)
  else None.

(** A string literal from just after its opening quote: the unquoted bytes
    and what follows the closing quote.  Control characters and unknown
    escapes are syntax errors; an escaped lone surrogate and ill-formed
    UTF-8 become U+FFFD. *)
Fixpoint parseString (fuel : nat) (s acc : gostring) : option (gostring * gostring) :=
  match fuel with
  | O => None
  | S fuel' =>
      match s with
      | [] => None
      | b :: r =>
          if Byte.eqb b x22 then Some (acc, r)
          else if Byte.eqb b x5c then
            match r with
            | [] => None
            | e :: r1 =>
                if Byte.eqb e x75 then
                  match hex4 r1 with
                  | None => None
                  | Some (rr, r2) =>
                      if isSurrogate rr then
                        match r2 with
                        | b1 :: b2 :: r3 =>
                            if Byte.eqb b1 x5c && Byte.eqb b2 x75 then
                              match hex4 r3 with
                              | Some (rr1, r4) =>
                                  if utf16DecodeRune rr rr1 =? RuneError
                                  then parseString fuel' r2 (acc ++ encodeRune RuneError)
                                  else parseString fuel' r4
                                         (acc ++ encodeRune (utf16DecodeRune rr rr1))
                              | None => parseString fuel' r2 (acc ++ encodeRune RuneError)
                              end
                            else parseString fuel' r2 (acc ++ encodeRune RuneError)
                        | _ => parseString fuel' r2 (acc ++ encodeRune RuneError)
                        end
                      else parseString fuel' r2 (acc ++ encodeRune rr)
                  end
                else
                  match simpleEscape e with
                  | Some c => parseString fuel' r1 (acc ++ [c])
                  | None => None
                  end
            end
          else if byteVal b <? 32 then None
          else if byteVal b <? 128 then parseString fuel' r (acc ++ [b])
          else
            let '(rr, w) := decodeRune b r in
            parseString fuel' (skipn (w - 1) r) (acc ++ encodeRune rr)
      end
  end.

Fixpoint spanDigits (s : gostring) : gostring * gostring :=
  match s with
  | b :: r =>
      if isDigit b then let '(ds, rest) := spanDigits r in (b :: ds, rest)
      else ([], s)
  | [] => ([], [])
  end.

(** A number literal: an optional minus, an integer part without a leading
    zero, an optional fraction, an optional exponent. *)
Definition parseNumber (s : gostring) : option (gostring * gostring) :=
  let '(sign, s1) :=
    match s with
    | b :: r => if Byte.eqb b x2d then ([b], r) else ([], s)
    | [] => ([], s)
    end in
  match s1 with
  | [] => None
  | d :: r =>
      if negb (isDigit d) then None
      else
        let '(int, s2) :=
          if Byte.eqb d x30 then ([d], r)
          else let '(ds, rest) := spanDigits r in (d :: ds, rest) in
        let frac :=
          match s2 with
          | p :: r2 =>
              if Byte.eqb p x2e then
                match spanDigits r2 with
                | ([], _) => None
                | (ds, rest) => Some (p :: ds, rest)
                end
              else Some ([], s2)
          | [] => Some ([], s2)
          end in
        match frac with
        | None => None
        | Some (fr, s3) =>
            let expo :=
              match s3 with
              | e :: r3 =>
                  if Byte.eqb e x65 || Byte.eqb e x45 then
                    let '(sg, r4) :=
                      match r3 with
                      | c :: r' =>
                          if Byte.eqb c x2b || Byte.eqb c x2d then ([c], r')
                          else ([], r3)
                      | [] => ([], r3)
                      end in
                    match spanDigits r4 with
                    | ([], _) => None
                    | (ds, rest) => Some (e :: sg ++ ds, rest)
                    end
                  else Some ([], s3)
              | [] => Some ([], s3)
              end in
            match expo with
            | None => None
            | Some (ex, s4) => Some (sign ++ int ++ fr ++ ex, s4)
            end
        end
  end.

(** [stripPrefix p s]: what follows [p] in [s], when [s] starts with [p]. *)
Fixpoint stripPrefix (p s : gostring) : option gostring :=
  match p, s with
  | [], _ => Some s
  | a :: p', b :: s' => if Byte.eqb a b then stripPrefix p' s' else None
  | _ :: _, [] => None
  end.

(** The scanner refuses a text nested deeper than this. *)
Definition maxNestingDepth : nat := 10000.

(** One value at the head of [s], inside [depth] open arrays and objects;
    [parseElems] and [parseMembers] read the rest of an array and of an
    object once it is known not to be empty. *)
Fixpoint parseValue (fuel depth : nat) (s : gostring) : option (Value * gostring) :=
  match fuel with
  | O => None
  | S fuel' =>
      let parseElems :=
        fix parseElems (n : nat) (s : gostring) (acc : list Value)
          : option (Value * gostring) :=
          match n with
          | O => None
          | S n' =>
              match parseValue fuel' (S depth) s with
              | None => None
              | Some (v, r) =>
                  match skipSpace r with
                  | c :: r1 =>
                      if Byte.eqb c x2c then parseElems n' r1 (acc ++ [v])
                      else if Byte.eqb c x5d then Some (Array (acc ++ [v]), r1)
                      else None
                  | [] => None
                  end
              end
          end in
      let parseMembers :=
        fix parseMembers (n : nat) (s : gostring) (acc : list (gostring * Value))
          : option (Value * gostring) :=
          match n with
          | O => None
          | S n' =>
              match skipSpace s with
              | q :: r =>
                  if Byte.eqb q x22 then
                    match parseString (List.length r) r [] with
                    | None => None
                    | Some (k, r1) =>
                        match skipSpace r1 with
                        | c :: r2 =>
                            if Byte.eqb c x3a then
                              match parseValue fuel' (S depth) r2 with
                              | None => None
                              | Some (v, r3) =>
                                  match skipSpace r3 with
                                  | d :: r4 =>
                                      if Byte.eqb d x2c
                                      then parseMembers n' r4 (acc ++ [(k, v)])
                                      else if Byte.eqb d x7d
                                      then Some (Object (acc ++ [(k, v)]), r4)
                                      else None
                                  | [] => None
                                  end
                              end
                            else None
                        | [] => None
                        end
                    end
                  else None
              | [] => None
              end
          end in
      match skipSpace s with
      | [] => None
      | b :: r =>
          if Byte.eqb b x5b then
            if (maxNestingDepth <=? depth)%nat then None
            else
              match skipSpace r with
              | c :: r1 =>
                  if Byte.eqb c x5d then Some (Array [], r1)
                  else parseElems (List.length r) r []
              | [] => None
              end
          else if Byte.eqb b x7b then
            if (maxNestingDepth <=? depth)%nat then None
            else
              match skipSpace r with
              | c :: r1 =>
                  if Byte.eqb c x7d then Some (Object [], r1)
                  else parseMembers (List.length r) r []
              | [] => None
              end
          else if Byte.eqb b x22 then
            match parseString (List.length r) r [] with
            | Some (str, r1) => Some (String str, r1)
            | None => None
            end
          else if Byte.eqb b x74 then
            match stripPrefix (bs "true") (b :: r) with
            | Some r1 => Some (Bool true, r1)
            | None => None
            end
          else if Byte.eqb b x66 then
            match stripPrefix (bs "false") (b :: r) with
            | Some r1 => Some (Bool false, r1)
            | None => None
            end
          else if Byte.eqb b x6e then
            match stripPrefix (bs "null") (b :: r) with
            | Some r1 => Some (Null, r1)
            | None => None
            end
          else
            match parseNumber (b :: r) with
            | Some (lit, r1) => Some (Number lit, r1)
            | None => None
            end
      end
  end.

(** A whole JSON text: one value, white space around it, nothing else. *)
Definition parse (data : gostring) : option Value :=
  match parseValue (S (List.length data)) 0 data with
  | Some (v, r) =>
      match skipSpace r with
      | [] => Some v
      | _ :: _ => None
      end
  | None => None
  end.

End json.

(* ================================================================== *)
(** * Errors and the effect monad *)
(* ================================================================== *)

Module Eff.

(** Go's [error] values: a message, or [fmt.Errorf("...: %w", err)]. *)
Inductive error : Type :=
| NewError (msg : String.string)
| Wrap (msg : String.string) (cause : error).

(** A Go result pair [(T, error)]. *)
Inductive result (A : Type) : Type :=
| Ok (a : A)
| Err (e : error).
Arguments Ok {A} a.
Arguments Err {A} e.

Definition isOk {A} (r : result A) : bool :=
  match r with Ok _ => true | Err _ => false end.

(** Code over a mutable world [W]: what has been written to the world before
    an error is returned stays written. *)
Definition M (W A : Type) : Type := W -> result A * W.

Definition ret {W A} (a : A) : M W A := fun w => (Ok a, w).

Definition fail {W A} (e : error) : M W A := fun w => (Err e, w).

Definition bind {W A B} (m : M W A) (k : A -> M W B) : M W B :=
  fun w =>
    match m w with
    | (Ok a, w1) => k a w1
    | (Err e, w1) => (Err e, w1)
    end.

(** [if err != nil { return nil, fmt.Errorf(msg + "%w", err) }] *)
Definition wrapErr {W A} (msg : String.string) (m : M W A) : M W A :=
  fun w =>
    match m w with
    | (Ok a, w1) => (Ok a, w1)
    | (Err e, w1) => (Err (Wrap msg e), w1)
    end.

Declare Scope eff_scope.
Delimit Scope eff_scope with eff.
Notation "x <- m ;; k" := (bind m (fun x => k))
  (at level 61, m at next level, right associativity) : eff_scope.

End Eff.

(* ================================================================== *)
(** * Package [domain]: threads and messages *)
(* ================================================================== *)

Module domain.
Import Go.

(** [uuid.UUID], sixteen bytes read as a number; [uuid.Nil] is zero. *)
Abbreviation UUID := N (only parsing).

(** [time.Time], as an instant on a line. *)
Abbreviation Time := Z (only parsing).

(** Modelled from the spec: the declarations of package [domain] are not
    among the sources.  The role of a message is [human] or [assistant];
    the constants are those the service uses. *)
Inductive role : Type := RoleHuman | RoleAssistant.

Definition Role_eqb (a b : role) : bool :=
  match a, b with
  | RoleHuman, RoleHuman | RoleAssistant, RoleAssistant => true
  | _, _ => false
  end.

(** Modelled from the spec: [domain.Thread], with the fields the service
    reads: identity, creation time, optional summary. *)
Record Thread := mkThread {
  Thread_ID : UUID;
  Thread_CreatedAt : Time;
  Thread_Summary : gostring
}.

(** Modelled from the spec: [domain.Message], with the fields the service
    reads and writes; [ParentID] is a pointer, nil for the root of a
    branch; [ToolCalls] is the raw tool-call payload, a string. *)
Record Message := mkMessage {
  ID : UUID;
  ThreadID : UUID;
  ParentID : option UUID;
  Role : role;
  Content : gostring;
  ToolCalls : gostring;
  ModelName : gostring;
  Provider : gostring;
  CreatedAt : Time
}.

End domain.

(* ================================================================== *)
(** * Package [config]: the model preset *)
(* ================================================================== *)

Module config.
Import Go.

(** [float64] values are only handed on to the provider: their bits. *)
Abbreviation float64 := N (only parsing).

Section Tools.
(** [config.Tool]: a tool declaration; the service only hands it on. *)
Variable Tool : Type.

Record Model := mkModel {
  Provider : gostring;
  Name : gostring;
  MaxTokens : Z;
  Temperature : float64;
  Tools : list (gostring * Tool)
}.
End Tools.

End config.

(* ================================================================== *)
(** * Package [llm]: the client around the provider library *)
(* ================================================================== *)

Module llm.
Import Go Eff.

Record ToolCall := mkToolCall {
  ID : gostring;
  Name : gostring;
  Arguments : gostring          (* json.RawMessage *)
}.

Record MessageResponse := mkResponse {
  TextResponse : gostring;
  ToolCalls : list ToolCall
}.

(** The provider library ([langchaingo/llms]), as far as the client uses it. *)
Inductive ChatMessageType : Type := ChatMessageTypeAI | ChatMessageTypeHuman.

(** [llms.TextParts(role, text)] *)
Record MessageContent := TextParts {
  mcRole : ChatMessageType;
  mcText : gostring
}.

Record FunctionCall := mkFunctionCall {
  fcName : gostring;
  fcArguments : gostring
}.

Record llmsToolCall := mkLlmsToolCall {
  tcID : gostring;
  tcFunctionCall : FunctionCall
}.

Record ContentChoice := mkChoice {
  choiceContent : gostring;
  choiceToolCalls : list llmsToolCall
}.

Record ContentResponse := mkContentResponse {
  Choices : list ContentChoice
}.

Section Client.
Variable Tool : Type.

(** The options the client assembles for one call: temperature and token
    limit always, the tools when there are some, the streaming function
    when streaming is asked for. *)
Record CallOptions := mkCallOptions {
  optTemperature : config.float64;
  optMaxTokens : Z;
  optTools : option (list (gostring * Tool));
  optStreaming : bool
}.

(** What one call of the provider does, seen from the client: the chunks it
    hands to the streaming function, in order, and what it returns in the
    end (a cancelled or failed call returns an error). *)
Record Generation := mkGeneration {
  genChunks : list gostring;
  genResult : result ContentResponse
}.

(** [llms.Model]: the provider.  [streamingFuncError] is the error the
    library returns when the streaming function itself returned an error,
    at which point it stops streaming. *)
Class Model := {
  GenerateContent : list MessageContent -> CallOptions -> Generation;
  streamingFuncError : error -> error
}.

(** [type Client struct] *)
Record Client := mkClient {
  llm : Model;
  modelCfg : config.Model Tool
}.

Definition GetConfig (c : Client) : config.Model Tool := modelCfg c.

(** [buildMessageHistory] *)
Definition buildMessageHistory (messages : list domain.Message) : list MessageContent :=
  map (fun msg =>
         let role := match domain.Role msg with
                     | domain.RoleAssistant => ChatMessageTypeAI
                     | domain.RoleHuman => ChatMessageTypeHuman
                     end in
         TextParts role (domain.Content msg))
      messages.

(** [getTools]: one provider tool per entry of the map (the conversion of
    the parameter schema is not followed here). *)
Definition getTools (tools : list (gostring * Tool)) : list (gostring * Tool) := tools.

(** The provider hands the chunks to the streaming function one by one and
    stops at the first error the function returns. *)
Fixpoint deliver {W} (callback : gostring -> W -> option error * W)
         (chunks : list gostring) (w : W) : option error * W :=
  match chunks with
  | [] => (None, w)
  | chunk :: rest =>
      match callback chunk w with
      | (Some e, w1) => (Some e, w1)
      | (None, w1) => deliver callback rest w1
      end
  end.

(** The call [c.llm.GenerateContent(ctx, msgs, opts...)], with the streaming
    function run on the chunks when streaming is on. *)
Definition runGenerate {W} (c : Client) (msgs : list MessageContent)
           (opts : CallOptions) (callback : gostring -> W -> option error * W)
  : M W ContentResponse :=
  fun w =>
    let gen := @GenerateContent (llm c) msgs opts in
    if optStreaming opts then
      match deliver callback (genChunks gen) w with
      | (Some e, w1) => (Err (@streamingFuncError (llm c) e), w1)
      | (None, w1) => (genResult gen, w1)
      end
    else (genResult gen, w).

(** The tool calls of all the choices, in order. *)
Definition collectToolCalls (choices : list ContentChoice) : list ToolCall :=
  flat_map (fun choice =>
              map (fun tc => mkToolCall (tcID tc)
                                        (fcName (tcFunctionCall tc))
                                        (fcArguments (tcFunctionCall tc)))
                  (choiceToolCalls choice))
           choices.

(** [func (c *Client) SendMessage(ctx, content, history, stream, callback, tools)] *)
Definition SendMessage {W} (c : Client) (content : gostring)
           (history : list domain.Message) (stream : bool)
           (callback : gostring -> W -> option error * W)
           (tools : list (gostring * Tool))
  : M W MessageResponse :=
  let langchainTools := getTools tools in
  let opts := mkCallOptions (config.Temperature (modelCfg c))
                            (config.MaxTokens (modelCfg c))
                            (if 0 <? len langchainTools then Some langchainTools else None)
                            stream in
  let msgs := buildMessageHistory history ++ [TextParts ChatMessageTypeHuman content] in
  (resp <- wrapErr "streaming message failed: " (runGenerate c msgs opts callback) ;;
   match Choices resp with
   | [] => fail (NewError "no response choices returned")
   | choice0 :: _ =>
       ret (mkResponse (choiceContent choice0) (collectToolCalls (Choices resp)))
   end)%eff.

End Client.

End llm.

(* ================================================================== *)
(** * Package [repository]: the store behind the service *)
(* ================================================================== *)

Module repository.
Import Go Eff.

(** Modelled from the spec: the interface [repository.MessageRepository] is
    not among the sources; these are the methods the service calls on it,
    over a store state [S].  [AddMessageToThread] receives a pointer to the message
    and may fill it in (its identity, its creation time): it returns the
    message as it is after the call. *)
Class MessageRepository (S : Type) := {
  GetThreadByID : domain.UUID -> M S domain.Thread;
  GetMessages : domain.UUID -> option domain.UUID -> bool -> M S (list domain.Message);
  AddMessageToThread : domain.UUID -> domain.Message -> M S domain.Message
}.

End repository.

(* ================================================================== *)
(** * Package [message]: the message service *)
(* ================================================================== *)

Module message.
Import Go Eff.

(** Modelled from the spec: [message.FunctionCallChunk], whose declaration
    is not among the sources: the function part of a streamed tool-call
    fragment, with the fields the sources read; its JSON keys are [name]
    and [arguments]. *)
Record FunctionCallChunk := mkFunctionCallChunk {
  Name : gostring;
  ArgumentsJson : gostring
}.

(** The element type of the slice the stream callback decodes a chunk into:
    [struct { Function FunctionCallChunk `json:"function"`;
              Id *string `json:"id,omitempty"` }]. *)
Record fcallElem := mkFcallElem {
  Function : FunctionCallChunk;
  Id : option gostring
}.

(** Modelled from the spec: the interface [message.StreamHandler], whose
    declaration is not among the sources, with the methods the stream
    callback calls, over the state [H] of the handler object. *)
Class StreamHandler (H : Type) := {
  HandleTextChunk : gostring -> H -> option error * H;
  HandleFunctionCallStart : gostring -> gostring -> H -> option error * H;
  HandleFunctionCallChunk : FunctionCallChunk -> H -> option error * H
}.

(** [encoding/json] at the two types the service uses it at:
    [json.Unmarshal(chunk, &fcall)] and [json.Marshal(aiResponse.ToolCalls)]. *)
Class JSON := {
  json_Unmarshal : gostring -> result (list fcallElem);
  json_Marshal : list llm.ToolCall -> result gostring
}.

(** The calls the service makes on its collaborators, in the order made. *)
Inductive Call : Type :=
| CallGetThreadByID (threadID : domain.UUID)
| CallGetMessages (threadID : domain.UUID) (messageID : option domain.UUID)
                  (getFutureMessages : bool)
| CallAddMessageToThread (threadID : domain.UUID) (msg : domain.Message)
| CallLLMSendMessage (content : gostring) (history : list domain.Message)
                     (stream : bool)
| CallHandleTextChunk (chunk : gostring)
| CallHandleFunctionCallStart (id name : gostring)
| CallHandleFunctionCallChunk (chunk : FunctionCallChunk).

Section Service.
Variable Tool : Type.
Context {S : Type} {messageRepo : repository.MessageRepository S}.
Context {H : Type} {streamHandler : StreamHandler H}.
Context {codec : JSON}.

(** The world a call of the service runs in: the store, the stream handler
    object, and the log of the calls made so far. *)
Record World := mkWorld {
  repoState : S;
  handlerState : H;
  calls : list Call
}.

Definition logCall (c : Call) (w : World) : World :=
  mkWorld (repoState w) (handlerState w) (calls w ++ [c]).

(** A call on the repository: logged, then run on the store. *)
Definition onRepo {A} (c : Call) (op : M S A) : M World A :=
  fun w =>
    (fst (op (repoState w)),
     mkWorld (snd (op (repoState w))) (handlerState w) (calls w ++ [c])).

(** A call on the stream handler: logged, then run on the handler;
    [afterHandler] is the world it leaves. *)
Definition afterHandler (c : Call) (op : H -> option error * H) (w : World)
  : World :=
  mkWorld (repoState w) (snd (op (handlerState w))) (calls w ++ [c]).

Definition onHandler (c : Call) (op : H -> option error * H) (w : World)
  : option error * World :=
  (fst (op (handlerState w)), afterHandler c op w).

(** [type SendMessageOptions struct].  [StreamHandler] tells whether a
    handler is supplied; the handler object itself lives in the world. *)
Record SendMessageOptions := mkOptions {
  ThreadID : domain.UUID;
  ParentID : option domain.UUID;
  Content : gostring;
  StreamHandler_ : bool;
  Tools : list (gostring * Tool)
}.

(** The closure [streamCallback]; [currentFunctionId] is the variable it
    captures, carried from one chunk to the next. *)
Definition streamCallback (chunk : gostring) (st : gostring * World)
  : option error * (gostring * World) :=
  let '(currentFunctionId, w) := st in
  match json_Unmarshal chunk with
  | Ok (fcall0 :: _) =>
      let functionName := Name (Function fcall0) in
      let functionId := Id fcall0 in
      let chunkCall w1 :=
        onHandler (CallHandleFunctionCallChunk (Function fcall0))
                  (HandleFunctionCallChunk (Function fcall0)) w1 in
      match functionId with
      | Some id =>
          if negb (streq currentFunctionId id) then
            match onHandler (CallHandleFunctionCallStart id functionName)
                            (HandleFunctionCallStart id functionName) w with
            | (Some err, w1) => (Some err, (currentFunctionId, w1))
            | (None, w1) =>
                let '(e, w2) := chunkCall w1 in (e, (id, w2))
            end
          else let '(e, w1) := chunkCall w in (e, (currentFunctionId, w1))
      | None => let '(e, w1) := chunkCall w in (e, (currentFunctionId, w1))
      end
  | _ =>
      let '(e, w1) := onHandler (CallHandleTextChunk chunk) (HandleTextChunk chunk) w in
      (e, (currentFunctionId, w1))
  end.

(** The call [s.llm.SendMessage(...)] of the service: logged when it is
    dispatched; the callback runs with [currentFunctionId] initially empty. *)
Definition callLLM (c : llm.Client Tool) (content : gostring)
           (history : list domain.Message) (stream : bool)
           (tools : list (gostring * Tool)) : M World llm.MessageResponse :=
  fun w =>
    let w0 := logCall (CallLLMSendMessage content history stream) w in
    let '(r, (_, w1)) :=
      llm.SendMessage c content history stream streamCallback tools ([], w0) in
    (r, w1).

(** The message literal with its unset fields at their zero values. *)
Definition newMessage (threadID : domain.UUID) (parentID : option domain.UUID)
           (role : domain.role) (content toolCalls modelName provider : gostring)
  : domain.Message :=
  domain.mkMessage 0%N threadID parentID role content toolCalls modelName provider 0.

(** [func (s *MessageService) SendMessage(ctx, opts)].
    The assistant message holds a pointer to the [ID] field of the human
    message, so its parent is that field as the first
    [AddMessageToThread] leaves it. *)
Definition SendMessage (llmClient : llm.Client Tool) (opts : SendMessageOptions)
  : M World domain.Message :=
  (thread <- wrapErr "failed to get thread: "
       (onRepo (CallGetThreadByID (ThreadID opts))
               (repository.GetThreadByID (ThreadID opts))) ;;
   parentID <-
     match ParentID opts with
     | None =>
         messages <- wrapErr "failed to get messages: "
           (onRepo (CallGetMessages (domain.Thread_ID thread) None false)
                   (repository.GetMessages (domain.Thread_ID thread) None false)) ;;
         match lastOf messages with
         | Some lastMsg => ret (Some (domain.ID lastMsg))
         | None => ret None
         end
     | Some p => ret (Some p)
     end ;;
   messages <- wrapErr "failed to get conversation history: "
     (onRepo (CallGetMessages (domain.Thread_ID thread) parentID false)
             (repository.GetMessages (domain.Thread_ID thread) parentID false)) ;;
   let modelCfg := llm.GetConfig llmClient in
   let userMsg := newMessage (ThreadID opts) parentID domain.RoleHuman
                             (Content opts) [] [] [] in
   aiResponse <- wrapErr "failed to stream AI response: "
     (callLLM llmClient (Content opts) messages (StreamHandler_ opts) (Tools opts)) ;;
   toolCallsString <- wrapErr "Failed to parse ToolCalls: "
     (fun w => (json_Marshal (llm.ToolCalls aiResponse), w)) ;;
   userMsg1 <- onRepo (CallAddMessageToThread (ThreadID opts) userMsg)
                      (repository.AddMessageToThread (ThreadID opts) userMsg) ;;
   let aiMsg := newMessage (ThreadID opts) (Some (domain.ID userMsg1))
                           domain.RoleAssistant
                           (llm.TextResponse aiResponse) toolCallsString
                           (config.Name modelCfg) (config.Provider modelCfg) in
   aiMsg1 <- onRepo (CallAddMessageToThread (ThreadID opts) aiMsg)
                    (repository.AddMessageToThread (ThreadID opts) aiMsg) ;;
   ret aiMsg1)%eff.

(** [type ThreadDetails struct] *)
Record ThreadDetails := mkThreadDetails {
  ID : domain.UUID;
  CreatedAt : domain.Time;
  MessageCount : Z;
  Preview : gostring
}.

(** The loop of [GetThreadDetails] over the messages: the content of the
    first message whose role is human, the empty string when there is none. *)
Fixpoint firstHumanContent (messages : list domain.Message) : gostring :=
  match messages with
  | [] => []
  | msg :: rest =>
      match domain.Role msg with
      | domain.RoleHuman => domain.Content msg
      | domain.RoleAssistant => firstHumanContent rest
      end
  end.

(** [if len(preview) > 50 { preview = preview[:47] + "..." }] *)
Definition truncatePreview (preview : gostring) : gostring :=
  if 50 <? len preview then firstn 47 preview ++ bs "..." else preview.

(** [func (s *MessageService) GetThreadDetails(ctx, thread)] *)
Definition GetThreadDetails (thread : domain.Thread) : M World ThreadDetails :=
  (messages <- onRepo (CallGetMessages (domain.Thread_ID thread) None false)
                      (repository.GetMessages (domain.Thread_ID thread) None false) ;;
   let preview :=
     if negb (streq (domain.Thread_Summary thread) [])
     then domain.Thread_Summary thread
     else firstHumanContent messages in
   ret (mkThreadDetails (domain.Thread_ID thread)
                        (domain.Thread_CreatedAt thread)
                        (len messages)
                        (truncatePreview preview)))%eff.

End Service.

End message.

(* ================================================================== *)
(** * The command-line stream handler and its JSON re-formatter *)
(* ================================================================== *)

Module CLI.
Import Go.

(** [type CLIStreamHandler struct]; the [originalCallback] field is the
    function that prints a text chunk, it holds no state. *)
Record CLIStreamHandler := mkHandler {
  inQuote : bool;
  escaped : bool;
  indentLevel : Z;
  inArray : bool;
  isValue : bool
}.

(** The zero value [&CLIStreamHandler{originalCallback: ...}] built by
    [sendMessage]. *)
Definition newHandler : CLIStreamHandler := mkHandler false false 0 false false.

(** [func (h *CLIStreamHandler) Reset()] *)
Definition Reset (h : CLIStreamHandler) : CLIStreamHandler :=
  mkHandler false false (indentLevel h) (inArray h) (isValue h).

(** The closure [writeIndent]: two spaces, [h.indentLevel] times (none when
    the level is zero or negative). *)
Definition writeIndent (h : CLIStreamHandler) (formatted : gostring) : gostring :=
  formatted ++ List.concat (List.repeat (bs "  ") (Z.to_nat (indentLevel h))).

Definition r_backslash : rune := 92.
Definition r_quote : rune := 34.
Definition r_lbracket : rune := 91.
Definition r_rbracket : rune := 93.
Definition r_lbrace : rune := 123.
Definition r_rbrace : rune := 125.
Definition r_comma : rune := 44.
Definition r_colon : rune := 58.
Definition r_space : rune := 32.

Definition NL : gostring := [x0a].

(** One iteration of the loop of [formatJSON]: the [switch] on the current
    rune, its cases tried in the order of the source.  The state is the
    handler together with the [strings.Builder] being filled. *)
Definition step (st : CLIStreamHandler * gostring) (char : rune)
  : CLIStreamHandler * gostring :=
  let '(h, formatted) := st in
  if escaped h then
    (mkHandler (inQuote h) false (indentLevel h) (inArray h) (isValue h),
     formatted ++ encodeRune char)
  else if char =? r_backslash then
    (mkHandler (inQuote h) true (indentLevel h) (inArray h) (isValue h),
     formatted ++ encodeRune char)
  else if char =? r_quote then
    if negb (inQuote h) then
      (mkHandler true (escaped h) (indentLevel h) (inArray h) (isValue h), formatted)
    else
      (mkHandler false (escaped h) (indentLevel h) (inArray h) (isValue h), formatted)
  else if (char =? r_lbracket) && negb (inQuote h) then
    let h1 := mkHandler (inQuote h) (escaped h) (wrapInt (indentLevel h + 1)) true (isValue h) in
    (h1, writeIndent h1 (formatted ++ NL) ++ bs "- ")
  else if (char =? r_rbracket) && negb (inQuote h) then
    (mkHandler (inQuote h) (escaped h) (wrapInt (indentLevel h - 1)) false (isValue h),
     formatted)
  else if (char =? r_lbrace) && negb (inQuote h) then
    let f1 := if inArray h then writeIndent h formatted else formatted in
    let h1 := mkHandler (inQuote h) (escaped h) (wrapInt (indentLevel h + 1)) (inArray h) (isValue h) in
    (h1, writeIndent h1 (f1 ++ NL))
  else if (char =? r_rbrace) && negb (inQuote h) then
    (mkHandler (inQuote h) (escaped h) (wrapInt (indentLevel h - 1)) (inArray h) false,
     formatted)
  else if (char =? r_comma) && negb (inQuote h) then
    let h1 := mkHandler (inQuote h) (escaped h) (indentLevel h) (inArray h) false in
    let f1 := formatted ++ NL in
    if inArray h1 then (h1, writeIndent h1 f1 ++ bs "- ")
    else (h1, writeIndent h1 f1)
  else if (char =? r_colon) && negb (inQuote h) then
    (mkHandler (inQuote h) (escaped h) (indentLevel h) (inArray h) true,
     formatted ++ bs ": ")
  else if (char =? r_space) && negb (inQuote h) then
    if isValue h then (h, formatted ++ encodeRune char) else (h, formatted)
  else
    if inArray h && negb (isValue h) && negb (inQuote h) then
      (mkHandler (inQuote h) (escaped h) (indentLevel h) (inArray h) true,
       (formatted ++ bs "- ") ++ encodeRune char)
    else (h, formatted ++ encodeRune char).

(** The loop [for _, char := range data] from a given builder content. *)
Definition formatLoop (st : CLIStreamHandler * gostring) (data : gostring)
  : CLIStreamHandler * gostring :=
  fold_left step (rangeString data) st.

(** [func (h *CLIStreamHandler) formatJSON(data string) string]: the handler
    after the call and the returned string. *)
Definition formatJSON (h : CLIStreamHandler) (data : gostring)
  : CLIStreamHandler * gostring :=
  formatLoop (h, []) data.

(** Feeding a sequence of chunks to one handler, one [formatJSON] call per
    chunk; the rendered pieces are concatenated in order. *)
Fixpoint feed (h : CLIStreamHandler) (chunks : list gostring)
  : CLIStreamHandler * gostring :=
  match chunks with
  | [] => (h, [])
  | c :: cs =>
      let '(h1, o1) := formatJSON h c in
      let '(h2, o2) := feed h1 cs in
      (h2, o1 ++ o2)
  end.

(** The handler object together with what has been printed on the standard
    output. *)
Record Console := mkConsole {
  handler : CLIStreamHandler;
  stdout : gostring
}.

(** [HandleTextChunk]: the [originalCallback] installed by [sendMessage]
    prints the chunk. *)
Definition HandleTextChunk (chunk : gostring) (c : Console)
  : option Eff.error * Console :=
  (None, mkConsole (handler c) (stdout c ++ chunk)).

(** [HandleFunctionCallStart]: prints the announcement of the tool. *)
Definition HandleFunctionCallStart (id name : gostring) (c : Console)
  : option Eff.error * Console :=
  (None, mkConsole (handler c)
                   (stdout c ++ [x0a; x0a] ++ bs "[Requesting tool use: " ++ name ++ bs "]")).

(** [HandleFunctionCallChunk]: prints the re-formatted arguments. *)
Definition HandleFunctionCallChunk (chunk : message.FunctionCallChunk) (c : Console)
  : option Eff.error * Console :=
  let '(h1, out) := formatJSON (handler c) (message.ArgumentsJson chunk) in
  (None, mkConsole h1 (stdout c ++ out)).

#[export] Instance CLIStreamHandler_StreamHandler : message.StreamHandler Console := {
  message.HandleTextChunk := HandleTextChunk;
  message.HandleFunctionCallStart := HandleFunctionCallStart;
  message.HandleFunctionCallChunk := HandleFunctionCallChunk
}.

(** In the source text of the fragments below an apostrophe stands for the
    double quote. *)
Definition unq (s : gostring) : gostring :=
  map (fun b => if Byte.eqb b x27 then x22 else b) s.

(** The JSON fragment of the round-trip property:
    [[{"id":"1","function":{"name":"essay","arguments":"{\"name\":\"x\",\"content\":\"a,b\"}"}}]] *)
Definition essayFragment : gostring :=
  unq (bs "[{'id':'1','function':{'name':'essay','arguments':'{\'name\':\'x\',\'content\':\'a,b\'}'}}]").

End CLI.

(* ================================================================== *)
(** * [encoding/json] at the types of the service *)
(* ================================================================== *)

Module codec.
Import Go Eff.

(** The folding of a key for the case-insensitive match of field names:
    ASCII letters to upper case, and the two non-ASCII runes that fold to
    an ASCII letter, U+017F to S and U+212A to K. *)
Definition foldRune (r : rune) : rune :=
  if (97 <=? r) && (r <=? 122) then r - 32
  else if r =? 383 then 83
  else if r =? 8490 then 75
  else r.

Definition foldName (key : gostring) : list rune := map foldRune (rangeString key).

(** Does the key of an object select the field with the ASCII name [name]:
    exactly, or after folding? *)
Definition keyMatches (name key : gostring) : bool :=
  streq name key ||
  (if list_eq_dec Z.eq_dec (foldName key) (foldName name) then true else false).

(** Storing a JSON value into a [string] field: a string is taken, [null]
    leaves the field as it is, anything else is a type error. *)
Definition decodeString (old : gostring) (v : json.Value) : option gostring :=
  match v with
  | json.String str => Some str
  | json.Null => Some old
  | _ => None
  end.

(** Storing into a [*string] field: [null] sets the pointer to nil. *)
Definition decodeStringPtr (v : json.Value) : option (option gostring) :=
  match v with
  | json.String str => Some (Some str)
  | json.Null => Some None
  | _ => None
  end.

(** Storing an object into a [message.FunctionCallChunk], member by member
    in order; members with other keys are skipped. *)
Fixpoint decodeChunkMembers (members : list (gostring * json.Value))
         (c : message.FunctionCallChunk) : option message.FunctionCallChunk :=
  match members with
  | [] => Some c
  | (k, v) :: rest =>
      if keyMatches (bs "name") k then
        match decodeString (message.Name c) v with
        | Some n => decodeChunkMembers rest
                      (message.mkFunctionCallChunk n (message.ArgumentsJson c))
        | None => None
        end
      else if keyMatches (bs "arguments") k then
        match decodeString (message.ArgumentsJson c) v with
        | Some a => decodeChunkMembers rest
                      (message.mkFunctionCallChunk (message.Name c) a)
        | None => None
        end
      else decodeChunkMembers rest c
  end.

Definition decodeChunk (c : message.FunctionCallChunk) (v : json.Value)
  : option message.FunctionCallChunk :=
  match v with
  | json.Object members => decodeChunkMembers members c
  | json.Null => Some c
  | _ => None
  end.

(** Storing an object into one element of the slice. *)
Fixpoint decodeElemMembers (members : list (gostring * json.Value))
         (e : message.fcallElem) : option message.fcallElem :=
  match members with
  | [] => Some e
  | (k, v) :: rest =>
      if keyMatches (bs "function") k then
        match decodeChunk (message.Function e) v with
        | Some c => decodeElemMembers rest (message.mkFcallElem c (message.Id e))
        | None => None
        end
      else if keyMatches (bs "id") k then
        match decodeStringPtr v with
        | Some i => decodeElemMembers rest (message.mkFcallElem (message.Function e) i)
        | None => None
        end
      else decodeElemMembers rest e
  end.

Definition zeroElem : message.fcallElem :=
  message.mkFcallElem (message.mkFunctionCallChunk [] []) None.

Definition decodeElem (v : json.Value) : option message.fcallElem :=
  match v with
  | json.Object members => decodeElemMembers members zeroElem
  | json.Null => Some zeroElem
  | _ => None
  end.

Fixpoint decodeElems (vs : list json.Value) : option (list message.fcallElem) :=
  match vs with
  | [] => Some []
  | v :: rest =>
      match decodeElem v, decodeElems rest with
      | Some e, Some es => Some (e :: es)
      | _, _ => None
      end
  end.

(** [json.Unmarshal(chunk, &fcall)] for the slice of the stream callback:
    a syntax error or a value of the wrong type anywhere gives an error;
    [null] gives the nil slice. *)
Definition Unmarshal (chunk : gostring) : result (list message.fcallElem) :=
  match json.parse chunk with
  | None => Err (NewError "json: syntax error")
  | Some (json.Array vs) =>
      match decodeElems vs with
      | Some es => Ok es
      | None => Err (NewError "json: cannot unmarshal")
      end
  | Some json.Null => Ok []
  | Some _ => Err (NewError "json: cannot unmarshal")
  end.

Definition hexDigit (n : Z) : byte :=
  nth (Z.to_nat n) (bs "0123456789abcdef") x30.

(** [\u00XX] for a byte. *)
Definition escapeByte (b : byte) : gostring :=
  bs "\u00" ++ [hexDigit (Z.shiftr (byteVal b) 4); hexDigit (Z.land (byteVal b) 15)].

(** The bytes an ASCII byte is written as inside a string literal, HTML
    escaping on. *)
Definition quoteASCII (b : byte) : gostring :=
  if Byte.eqb b x5c || Byte.eqb b x22 then [x5c; b]
  else if Byte.eqb b x08 then bs "\b"
  else if Byte.eqb b x0c then bs "\f"
  else if Byte.eqb b x0a then bs "\n"
  else if Byte.eqb b x0d then bs "\r"
  else if Byte.eqb b x09 then bs "\t"
  else if (byteVal b <? 32) || Byte.eqb b x3c || Byte.eqb b x3e || Byte.eqb b x26
  then escapeByte b
  else [b].

(** The body of a string literal for the bytes [s]. *)
Fixpoint quoteBody (fuel : nat) (s : gostring) : gostring :=
  match fuel with
  | O => []
  | S fuel' =>
      match s with
      | [] => []
      | b :: r =>
          if byteVal b <? 128 then quoteASCII b ++ quoteBody fuel' r
          else
            let '(c, size) := decodeRune b r in
            let rest := skipn (size - 1) r in
            if (c =? RuneError) && (size =? 1)%nat then bs "\ufffd" ++ quoteBody fuel' rest
            else if (c =? 8232) || (c =? 8233)
            then bs "\u202" ++ [hexDigit (Z.land c 15)] ++ quoteBody fuel' rest
            else firstn size (b :: r) ++ quoteBody fuel' rest
      end
  end.

(** A Go string as a JSON string literal. *)
Definition quote (s : gostring) : gostring :=
  [x22] ++ quoteBody (List.length s) s ++ [x22].

(** The compaction of a valid JSON text: white space outside strings is
    dropped; the characters [<], [>], [&] and U+2028, U+2029 are escaped. *)
Fixpoint compactBody (inStr esc : bool) (s : gostring) : gostring :=
  match s with
  | [] => []
  | b :: r =>
      let out :=
        if Byte.eqb b x3c || Byte.eqb b x3e || Byte.eqb b x26 then escapeByte b
        else [b] in
      if inStr then
        if esc then out ++ compactBody true false r
        else if Byte.eqb b x5c then out ++ compactBody true true r
        else if Byte.eqb b x22 then out ++ compactBody false false r
        else
          match b, r with
          | xe2, x80 :: xa8 :: r' => bs "\u2028" ++ compactBody true false r'
          | xe2, x80 :: xa9 :: r' => bs "\u2029" ++ compactBody true false r'
          | _, _ => out ++ compactBody true false r
          end
      else if json.isSpace b then compactBody false false r
      else if Byte.eqb b x22 then out ++ compactBody true false r
      else out ++ compactBody false false r
  end.

(** The encoding of a [json.RawMessage]: it has to be a valid JSON text. *)
Definition marshalRaw (raw : gostring) : option gostring :=
  match json.parse raw with
  | Some _ => Some (compactBody false false raw)
  | None => None
  end.

Definition marshalToolCall (tc : llm.ToolCall) : option gostring :=
  match marshalRaw (llm.Arguments tc) with
  | Some args =>
      Some (CLI.unq (bs "{'id':") ++ quote (llm.ID tc)
            ++ CLI.unq (bs ",'name':") ++ quote (llm.Name tc)
            ++ CLI.unq (bs ",'arguments':") ++ args ++ bs "}")
  | None => None
  end.

Fixpoint marshalElems (tcs : list llm.ToolCall) : option gostring :=
  match tcs with
  | [] => Some []
  | tc :: rest =>
      match marshalToolCall tc, marshalElems rest with
      | Some e, Some es =>
          Some (e ++ match rest with [] => [] | _ :: _ => bs "," end ++ es)
      | _, _ => None
      end
  end.

(** [json.Marshal(aiResponse.ToolCalls)], the slice being non-nil. *)
Definition Marshal (tcs : list llm.ToolCall) : result gostring :=
  match marshalElems tcs with
  | Some body => Ok (bs "[" ++ body ++ bs "]")
  | None => Err (NewError "json: error calling MarshalJSON for type json.RawMessage")
  end.

#[export] Instance encodingJSON : message.JSON := {
  message.json_Unmarshal := Unmarshal;
  message.json_Marshal := Marshal
}.

End codec.

(* ================================================================== *)
(** * The persistent store *)
(* ================================================================== *)

Module store.
Import Go Eff.

(** Modelled from the spec: the persistent store behind
    [repository.MessageRepository], whose implementation is not among the
    sources.  A thread owns messages; messages are kept in the order of
    their creation; appending gives a message its identity and its creation
    time; the context of a message is its chain of ancestors, oldest first,
    and without a reference message it is that of the most recently created
    message of the thread. *)
Record Store := mkStore {
  threads : list domain.Thread;
  messages : list domain.Message;
  nextID : domain.UUID;
  clock : domain.Time
}.

(** Modelled from the spec: the error [NotFound]. *)
Definition ErrNotFound : error := NewError "record not found".

(** Modelled from the spec: lookup of a thread by its identity. *)
Definition findThread (id : domain.UUID) (st : Store) : option domain.Thread :=
  find (fun t => N.eqb (domain.Thread_ID t) id) (threads st).

(** Modelled from the spec: the messages of a thread, in creation order. *)
Definition threadMessages (threadID : domain.UUID) (st : Store) : list domain.Message :=
  filter (fun m => N.eqb (domain.ThreadID m) threadID) (messages st).

(** Modelled from the spec: lookup of a message by its identity. *)
Definition findMessage (id : domain.UUID) (msgs : list domain.Message)
  : option domain.Message :=
  find (fun m => N.eqb (domain.ID m) id) msgs.

(** Modelled from the spec: the most recently created message of a thread. *)
Definition latestMessage (threadID : domain.UUID) (st : Store) : option domain.Message :=
  lastOf (threadMessages threadID st).

(** Modelled from the spec: the ancestor chain ending at the message [id],
    oldest first; it is followed for at most as many steps as there are
    messages. *)
Fixpoint ancestors (fuel : nat) (msgs : list domain.Message) (id : option domain.UUID)
  : list domain.Message :=
  match fuel, id with
  | S fuel', Some i =>
      match findMessage i msgs with
      | Some m => ancestors fuel' msgs (domain.ParentID m) ++ [m]
      | None => []
      end
  | _, _ => []
  end.

(** Modelled from the spec: the active context path ending at [m]. *)
Definition contextPath (msgs : list domain.Message) (m : domain.Message)
  : list domain.Message :=
  ancestors (List.length msgs) msgs (Some (domain.ID m)).

(** Modelled from the spec: the descendants of [m], the messages that have
    [m] among their strict ancestors. *)
Definition descendants (msgs : list domain.Message) (m : domain.Message)
  : list domain.Message :=
  filter (fun d =>
            negb (N.eqb (domain.ID d) (domain.ID m)) &&
            existsb (fun a => N.eqb (domain.ID a) (domain.ID m)) (contextPath msgs d))
         msgs.

(** Modelled from the spec: [getThread(id)], which fails with [NotFound]
    when the thread is absent. *)
Definition GetThreadByID (id : domain.UUID) : M Store domain.Thread :=
  fun st =>
    match findThread id st with
    | Some t => (Ok t, st)
    | None => (Err ErrNotFound, st)
    end.

(** Modelled from the spec: [getMessages(threadID, untilMessageID?,
    includeDescendants)]: the ancestor chain from the root to the reference
    message, or to the latest message of the thread when none is given,
    oldest first; the empty sequence for a thread without messages. *)
Definition GetMessages (threadID : domain.UUID) (messageID : option domain.UUID)
           (getFutureMessages : bool) : M Store (list domain.Message) :=
  fun st =>
    let msgs := threadMessages threadID st in
    let target :=
      match messageID with
      | None => Ok (lastOf msgs)
      | Some id =>
          match findMessage id msgs with
          | Some m => Ok (Some m)
          | None => Err ErrNotFound
          end
      end in
    match target with
    | Err e => (Err e, st)
    | Ok None => (Ok [], st)
    | Ok (Some m) =>
        (Ok (contextPath msgs m ++
             if getFutureMessages then descendants msgs m else []), st)
    end.

(** Modelled from the spec: [appendMessage(threadID, message)]: the message
    gets a fresh identity and its creation time, and becomes the latest
    message of the thread. *)
Definition AddMessageToThread (threadID : domain.UUID) (msg : domain.Message)
  : M Store domain.Message :=
  fun st =>
    match findThread threadID st with
    | None => (Err ErrNotFound, st)
    | Some _ =>
        let stored :=
          domain.mkMessage (nextID st) threadID (domain.ParentID msg)
                           (domain.Role msg) (domain.Content msg)
                           (domain.ToolCalls msg) (domain.ModelName msg)
                           (domain.Provider msg) (clock st) in
        (Ok stored,
         mkStore (threads st) (messages st ++ [stored])
                 (N.succ (nextID st)) (clock st + 1))
    end.

#[export] Instance Store_MessageRepository : repository.MessageRepository Store := {
  repository.GetThreadByID := GetThreadByID;
  repository.GetMessages := GetMessages;
  repository.AddMessageToThread := AddMessageToThread
}.

End store.

(* ================================================================== *)
(** * Tool declarations and their conversion for the provider *)
(* ================================================================== *)

(** Go maps with string keys, as the list of their entries; where a map is
    ranged over, in the order the range statement visits the entries. *)
Module gomap.
Import Go.

(** [m[k]], with the [ok] of the two-valued form. *)
Fixpoint get {V} (k : gostring) (m : list (gostring * V)) : option V :=
  match m with
  | [] => None
  | (k', v) :: rest => if streq k' k then Some v else get k rest
  end.

(** [m[k] = v]: the entry of [k] is replaced, or a new entry is made. *)
Fixpoint set {V} (k : gostring) (v : V) (m : list (gostring * V))
  : list (gostring * V) :=
  match m with
  | [] => [(k, v)]
  | (k', v') :: rest =>
      if streq k' k then (k, v) :: rest else (k', v') :: set k v rest
  end.

End gomap.

(** The tool declarations of package [config]. *)
Module toolcfg.
Import Go.

Section Declarations.
(** [interface{}]: the default value of a property, whatever it is. *)
Variable Any : Type.

(** [type Property struct]; [Items] is a pointer, [Default] is nil or a
    value. *)
Inductive Property : Type :=
  mkProperty (type description : gostring) (enum : list gostring)
             (items : option Property) (properties : list (gostring * Property))
             (required : list gostring) (default : option Any).

Definition Type_ (p : Property) : gostring :=
  match p with mkProperty t _ _ _ _ _ _ => t end.
Definition Description (p : Property) : gostring :=
  match p with mkProperty _ d _ _ _ _ _ => d end.
Definition Enum (p : Property) : list gostring :=
  match p with mkProperty _ _ e _ _ _ _ => e end.
Definition Items (p : Property) : option Property :=
  match p with mkProperty _ _ _ i _ _ _ => i end.
Definition Properties (p : Property) : list (gostring * Property) :=
  match p with mkProperty _ _ _ _ ps _ _ => ps end.
Definition Required (p : Property) : list gostring :=
  match p with mkProperty _ _ _ _ _ r _ => r end.
Definition Default (p : Property) : option Any :=
  match p with mkProperty _ _ _ _ _ _ d => d end.

(** [type Parameters struct] *)
Record Parameters := mkParameters {
  paramsType : gostring;
  paramsProperties : list (gostring * Property);
  paramsRequired : list gostring
}.

(** [type Tool struct] *)
Record Tool := mkTool {
  toolName : gostring;
  toolDescription : gostring;
  toolParameters : Parameters
}.

End Declarations.

End toolcfg.

(** [getTools] of package [llm], with the conversion of the parameter
    schema followed. *)
Module llmtools.
Import Go.

Section Conversion.
Variable Any : Type.

(** The values the conversion puts into a [map[string]any]: a string, a
    slice of strings, a default value handed on as it is, a nested map. *)
Inductive any : Type :=
| anyString (s : gostring)
| anyStrings (l : list gostring)
| anyDefault (v : Any)
| anyMap (m : list (gostring * any)).

(** [llms.FunctionDefinition] and [llms.Tool] *)
Record FunctionDefinition := mkFunctionDefinition {
  fnName : gostring;
  fnDescription : gostring;
  fnParameters : list (gostring * any)
}.

Record llmsTool := mkLlmsTool {
  llmsType : gostring;
  llmsFunction : FunctionDefinition
}.

(** [func convertProperty(prop config.Property) map[string]any] *)
Fixpoint convertProperty (prop : toolcfg.Property Any) : list (gostring * any) :=
  match prop with
  | toolcfg.mkProperty type description enum items properties required default =>
      let result := [(bs "type", anyString type);
                     (bs "description", anyString description)] in
      let result :=
        if 0 <? len enum then gomap.set (bs "enum") (anyStrings enum) result
        else result in
      let result :=
        match default with
        | Some v => gomap.set (bs "default") (anyDefault v) result
        | None => result
        end in
      let result :=
        match items with
        | Some it =>
            if streq type (bs "array")
            then gomap.set (bs "items") (anyMap (convertProperty it)) result
            else result
        | None => result
        end in
      if streq type (bs "object") && (0 <? len properties) then
        let nestedProps :=
          fold_left (fun acc np =>
                       gomap.set (fst np) (anyMap (convertProperty (snd np))) acc)
                    properties [] in
        let result := gomap.set (bs "properties") (anyMap nestedProps) result in
        if 0 <? len required
        then gomap.set (bs "required") (anyStrings required) result
        else result
      else result
  end.

(** [func convertParameters(params config.Parameters) map[string]any] *)
Definition convertParameters (params : toolcfg.Parameters Any)
  : list (gostring * any) :=
  let properties :=
    fold_left (fun acc np =>
                 gomap.set (fst np) (anyMap (convertProperty (snd np))) acc)
              (toolcfg.paramsProperties params) [] in
  [(bs "type", anyString (toolcfg.paramsType params));
   (bs "properties", anyMap properties);
   (bs "required", anyStrings (toolcfg.paramsRequired params))].

(** [func getTools(tools map[string]config.Tool) []llms.Tool] *)
Definition getTools (tools : list (gostring * toolcfg.Tool Any)) : list llmsTool :=
  map (fun nt =>
         let name := fst nt in
         let tool := snd nt in
         let paramsMap := convertParameters (toolcfg.toolParameters tool) in
         mkLlmsTool (bs "function")
           (mkFunctionDefinition name (toolcfg.toolDescription tool) paramsMap))
      tools.

End Conversion.

End llmtools.

(* ================================================================== *)
(** * The construction of the client *)
(* ================================================================== *)

Module llmnew.
Import Go Eff.

Section NewClient.
Variable Tool : Type.

(** The constructors of the provider library, each called with the name of
    the model ([googleai.New] with the API key as well), and the
    environment of the process. *)
Class Providers := {
  openai_New : gostring -> result (llm.Model Tool);
  anthropic_New : gostring -> result (llm.Model Tool);
  googleai_New : gostring -> gostring -> result (llm.Model Tool);
  Getenv : gostring -> gostring
}.
Context {providers : Providers}.

(** [func NewClient(modelCfg config.Model)]: a client or an error. *)
Definition NewClient (modelCfg : config.Model Tool) : result (llm.Client Tool) :=
  let provider := config.Provider modelCfg in
  let made :=
    if streq provider (bs "openai") then
      Some (openai_New (config.Name modelCfg))
    else if streq provider (bs "anthropic") then
      Some (anthropic_New (config.Name modelCfg))
    else if streq provider (bs "googleai") then
      let genaiKey := Getenv (bs "GEMINI_API_KEY") in
      Some (googleai_New (config.Name modelCfg) genaiKey)
    else None in
  match made with
  | None =>
      Err (NewError (String.append "unsupported provider: "
                                   (string_of_list_byte provider)))
  | Some (Err err) =>
      Err (Wrap (String.append "failed to create "
                   (String.append (string_of_list_byte provider) " client: "))
                err)
  | Some (Ok llm) => Ok (llm.mkClient llm modelCfg)
  end.

(** [func New(repo, modelCfg)] of package [message]: the service holds the repository it is given and the client
    built here. *)
Definition New (modelCfg : config.Model Tool) : result (llm.Client Tool) :=
  match NewClient modelCfg with
  | Err err => Err (Wrap "failed to create LLM client: " err)
  | Ok llmClient => Ok llmClient
  end.

End NewClient.

End llmnew.

(* ================================================================== *)
(** * The vocabulary of the properties *)
(* ================================================================== *)

(** The kinds of calls in a log. *)
Definition isHandlerCall (c : message.Call) : bool :=
  match c with
  | message.CallHandleTextChunk _
  | message.CallHandleFunctionCallStart _ _
  | message.CallHandleFunctionCallChunk _ => true
  | _ => false
  end.

Definition isFunctionCall (c : message.Call) : bool :=
  match c with
  | message.CallHandleFunctionCallStart _ _
  | message.CallHandleFunctionCallChunk _ => true
  | _ => false
  end.

Definition isRead (c : message.Call) : bool :=
  match c with
  | message.CallGetThreadByID _
  | message.CallGetMessages _ _ _ => true
  | _ => false
  end.

Definition isAdd (c : message.Call) : bool :=
  match c with
  | message.CallAddMessageToThread _ _ => true
  | _ => false
  end.

(** The start events of a log, in order: the id and the name announced. *)
Fixpoint startEvents (cs : list message.Call) : list (list byte * list byte) :=
  match cs with
  | [] => []
  | message.CallHandleFunctionCallStart id name :: rest => (id, name) :: startEvents rest
  | _ :: rest => startEvents rest
  end.

(** What the start events of a stream of tool-call fragments are: one for
    each fragment that carries an id different from the id of the call in
    progress. *)
Fixpoint idChanges (current : list byte) (elems : list message.fcallElem)
  : list (list byte * list byte) :=
  match elems with
  | [] => []
  | e :: rest =>
      match message.Id e with
      | Some id =>
          if Go.streq current id then idChanges current rest
          else (id, message.Name (message.Function e)) :: idChanges id rest
      | None => idChanges current rest
      end
  end.

(** The ids the fragments of a stream carry, in order. *)
Definition presentIds (elems : list message.fcallElem) : list (list byte) :=
  flat_map (fun e => match message.Id e with Some id => [id] | None => [] end) elems.

(** A sequence of ids in which the occurrences of each id are contiguous:
    a sequence of non-empty runs, one per id. *)
Definition contiguousIds (ids : list (list byte)) : Prop :=
  exists runs : list (list byte * nat),
    NoDup (map fst runs) /\
    ids = flat_map (fun r => List.repeat (fst r) (S (snd r))) runs.

(** The first id of each run of equal ids, the first run counted only when
    it differs from [current]. *)
Fixpoint runHeads (current : list byte) (ids : list (list byte)) : list (list byte) :=
  match ids with
  | [] => []
  | id :: rest =>
      if Go.streq current id then runHeads current rest
      else id :: runHeads id rest
  end.

(** C4 as it is written: every id carried by a fragment of the stream has
    exactly one start event in the log. *)
Definition startOncePerId (elems : list message.fcallElem) (log : list message.Call)
  : Prop :=
  forall id,
    In id (presentIds elems) ->
    count_occ (list_eq_dec Byte.byte_eq_dec) (map fst (startEvents log)) id = 1%nat.

(** C1 as it is written: whenever the provider call is dispatched, an append
    of a human message with the content sent is already in the log. *)
Definition humanAppendedBeforeProvider (log : list message.Call) : Prop :=
  forall pre content history stream post,
    log = pre ++ message.CallLLMSendMessage content history stream :: post ->
    exists threadID m,
      In (message.CallAddMessageToThread threadID m) pre /\
      domain.Role m = domain.RoleHuman /\
      domain.Content m = content.

(** The string a preview is cut from, in the words of the description: the
    summary of the thread when it is not empty, otherwise the content of
    the first human message, the empty string when there is none. *)
Definition previewSource (thread : domain.Thread) (messages : list domain.Message)
  : list byte :=
  match domain.Thread_Summary thread with
  | _ :: _ => domain.Thread_Summary thread
  | [] =>
      match find (fun m => domain.Role_eqb (domain.Role m) domain.RoleHuman) messages with
      | Some m => domain.Content m
      | None => []
      end
  end.

Section TurnVocabulary.
Import Go Eff.
Variable Tool : Type.
Context {S : Type} {messageRepo : repository.MessageRepository S}.
Context {H : Type}.
Context {codec : message.JSON}.

Abbreviation World := (@message.World S H).

(** Running the repository reads of a log, in order, from one store state
    to another. *)
Inductive readsRun : S -> list message.Call -> S -> Prop :=
| readsRun_nil (s : S) : readsRun s [] s
| readsRun_thread (s s' : S) (id : domain.UUID) (cs : list message.Call) :
    readsRun (snd (repository.GetThreadByID id s)) cs s' ->
    readsRun s (message.CallGetThreadByID id :: cs) s'
| readsRun_messages (s s' : S) (id : domain.UUID) (ref : option domain.UUID)
                    (fut : bool) (cs : list message.Call) :
    readsRun (snd (repository.GetMessages id ref fut s)) cs s' ->
    readsRun s (message.CallGetMessages id ref fut :: cs) s'.

(** How [SendMessage] settles the parent of the human message. *)
Definition parentResolved (opts : message.SendMessageOptions Tool) (s : S)
           (parentID : option domain.UUID) : Prop :=
  match message.ParentID opts with
  | Some p => parentID = Some p
  | None =>
      exists thread s1 msgs s2,
        repository.GetThreadByID (message.ThreadID opts) s = (Ok thread, s1) /\
        repository.GetMessages (domain.Thread_ID thread) None false s1 = (Ok msgs, s2) /\
        parentID = option_map domain.ID (lastOf msgs)
  end.

(** The messages the provider is sent for a turn: the history, then the
    content of the turn as a human message. *)
Definition providerMessages (opts : message.SendMessageOptions Tool)
           (history : list domain.Message) : list llm.MessageContent :=
  llm.buildMessageHistory history
    ++ [llm.TextParts llm.ChatMessageTypeHuman (message.Content opts)].

(** The ways a call of [SendMessage] can go, by the calls it has logged:
    it stops during the reads; it stops once the provider call is over;
    it stops at the first append; it makes both appends. *)
Inductive SendOutcome (client : llm.Client Tool)
          (opts : message.SendMessageOptions Tool) (w : World)
          (r : result domain.Message) (w' : World) : Prop :=
| StoppedReading (reads : list message.Call) :
    forallb isRead reads = true ->
    message.calls w' = message.calls w ++ reads ->
    readsRun (message.repoState w) reads (message.repoState w') ->
    isOk r = false ->
    SendOutcome client opts w r w'
| StoppedAfterProvider (reads hs : list message.Call) (history : list domain.Message) :
    forallb isRead reads = true ->
    forallb isHandlerCall hs = true ->
    message.calls w' = message.calls w ++ reads
        ++ message.CallLLMSendMessage (message.Content opts) history
             (message.StreamHandler_ opts) :: hs ->
    readsRun (message.repoState w) reads (message.repoState w') ->
    isOk r = false ->
    SendOutcome client opts w r w'
| StoppedFirstAppend (reads hs : list message.Call) (history : list domain.Message)
    (sR : S) (parentID : option domain.UUID) (e : error)
    (copts : llm.CallOptions Tool) (cr : llm.ContentResponse) :
    forallb isRead reads = true ->
    forallb isHandlerCall hs = true ->
    let userMsg := message.newMessage (message.ThreadID opts) parentID
                     domain.RoleHuman (message.Content opts) [] [] [] in
    message.calls w' = message.calls w ++ reads
        ++ message.CallLLMSendMessage (message.Content opts) history
             (message.StreamHandler_ opts) :: hs
        ++ [message.CallAddMessageToThread (message.ThreadID opts) userMsg] ->
    readsRun (message.repoState w) reads sR ->
    parentResolved opts (message.repoState w) parentID ->
    llm.genResult (@llm.GenerateContent _ (llm.llm client)
                     (providerMessages opts history) copts) = Ok cr ->
    repository.AddMessageToThread (message.ThreadID opts) userMsg sR
      = (Err e, message.repoState w') ->
    r = Err e ->
    SendOutcome client opts w r w'
| BothAppended (reads hs : list message.Call) (history : list domain.Message)
    (sR s1 : S) (parentID : option domain.UUID) (userMsg1 : domain.Message)
    (copts : llm.CallOptions Tool)
    (cr : llm.ContentResponse) (aiResponse : llm.MessageResponse)
    (toolCallsString : list byte) :
    forallb isRead reads = true ->
    forallb isHandlerCall hs = true ->
    let userMsg := message.newMessage (message.ThreadID opts) parentID
                     domain.RoleHuman (message.Content opts) [] [] [] in
    let aiMsg := message.newMessage (message.ThreadID opts)
                   (Some (domain.ID userMsg1)) domain.RoleAssistant
                   (llm.TextResponse aiResponse) toolCallsString
                   (config.Name (llm.modelCfg client))
                   (config.Provider (llm.modelCfg client)) in
    message.calls w' = message.calls w ++ reads
        ++ message.CallLLMSendMessage (message.Content opts) history
             (message.StreamHandler_ opts) :: hs
        ++ [message.CallAddMessageToThread (message.ThreadID opts) userMsg;
            message.CallAddMessageToThread (message.ThreadID opts) aiMsg] ->
    readsRun (message.repoState w) reads sR ->
    parentResolved opts (message.repoState w) parentID ->
    llm.genResult (@llm.GenerateContent _ (llm.llm client)
                     (providerMessages opts history) copts) = Ok cr ->
    llm.ToolCalls aiResponse = llm.collectToolCalls (llm.Choices cr) ->
    message.json_Marshal (llm.ToolCalls aiResponse) = Ok toolCallsString ->
    repository.AddMessageToThread (message.ThreadID opts) userMsg sR = (Ok userMsg1, s1) ->
    repository.AddMessageToThread (message.ThreadID opts) aiMsg s1
      = (r, message.repoState w') ->
    SendOutcome client opts w r w'.

End TurnVocabulary.

(* ================================================================== *)
(** * Concrete turns *)
(* ================================================================== *)

Module scenario.
Import Go Eff.

#[local] Existing Instance store.Store_MessageRepository.
#[local] Existing Instance CLI.CLIStreamHandler_StreamHandler.
#[local] Existing Instance codec.encodingJSON.

(** A provider that streams the given chunks and then returns the given
    result, whatever it is asked. *)
Definition scripted (chunks : list (list byte)) (r : result llm.ContentResponse)
  : llm.Model unit :=
  {| llm.GenerateContent := fun _ _ => llm.mkGeneration chunks r;
     llm.streamingFuncError := fun e => Wrap "streaming func returned an error: " e |}.

Definition claudeCfg : config.Model unit :=
  config.mkModel (bs "anthropic") (bs "claude-3-5-haiku-latest") 1000 0%N [].

Definition client (chunks : list (list byte)) (r : result llm.ContentResponse)
  : llm.Client unit :=
  llm.mkClient (scripted chunks r) claudeCfg.

(** A store with one thread and no message. *)
Definition emptyThread : store.Store :=
  store.mkStore [domain.mkThread 7%N 0 []] [] 1%N 100.

Abbreviation World := (@message.World store.Store CLI.Console).

Definition freshWorld (st : store.Store) : World :=
  message.mkWorld st (CLI.mkConsole CLI.newHandler []) [].

Definition say (content : list byte) : message.SendMessageOptions unit :=
  message.mkOptions 7%N None content true [].

Definition answer (text : list byte) (calls : list llm.llmsToolCall)
  : result llm.ContentResponse :=
  Ok (llm.mkContentResponse [llm.mkChoice text calls]).

(** A turn that succeeds: the provider streams two text chunks. *)
Definition turnOk : result domain.Message * World :=
  message.SendMessage (client [bs "y"; bs "o"] (answer (bs "yo") []))
                      (say (bs "hi")) (freshWorld emptyThread).

(** A turn cancelled while the response is streamed: the provider call
    returns the error of the cancelled context. *)
Definition turnCancelled : result domain.Message * World :=
  message.SendMessage (client [bs "y"] (Err (NewError "context canceled")))
                      (say (bs "hi")) (freshWorld emptyThread).

(** A second turn on the thread, the first one being stored. *)
Definition turnNext : result domain.Message * World :=
  message.SendMessage (client [] (answer (bs "fine") []))
                      (say (bs "and you?"))
                      (freshWorld (message.repoState (snd turnOk))).

(** A turn in which the provider asks for a tool. *)
Definition essayCall : llm.llmsToolCall :=
  llm.mkLlmsToolCall (bs "1")
    (llm.mkFunctionCall (bs "essay") (CLI.unq (bs "{'name': 'x'}"))).

Definition turnTool : result domain.Message * World :=
  message.SendMessage (client [CLI.essayFragment] (answer [] [essayCall]))
                      (say (bs "write")) (freshWorld emptyThread).

(** Tool-call fragments as the provider streams them. *)
Definition fragment (id name arguments : String.string) : list byte :=
  CLI.unq (bs "[{'id':'") ++ bs id
    ++ CLI.unq (bs "','function':{'name':'") ++ bs name
    ++ CLI.unq (bs "','arguments':'") ++ bs arguments ++ CLI.unq (bs "'}}]").

Definition elemOf (id name arguments : String.string) : message.fcallElem :=
  message.mkFcallElem (message.mkFunctionCallChunk (bs name) (bs arguments))
                      (Some (bs id)).

(** The fragments of call 1, of call 2, and of call 1 again. *)
Definition interleaved : list (list byte) :=
  [fragment "1" "f" "{"; fragment "2" "g" "{}"; fragment "1" "f" "}"].

Definition interleavedElems : list message.fcallElem :=
  [elemOf "1" "f" "{"; elemOf "2" "g" "{}"; elemOf "1" "f" "}"].

(** Two fragments of call 1, then one of call 2. *)
Definition contiguous : list (list byte) :=
  [fragment "1" "f" "{"; fragment "1" "f" "}"; fragment "2" "g" "{}"].

Definition contiguousElems : list message.fcallElem :=
  [elemOf "1" "f" "{"; elemOf "1" "f" "}"; elemOf "2" "g" "{}"].

Definition stream (chunks : list (list byte))
  : option error * (list byte * World) :=
  llm.deliver message.streamCallback chunks ([], freshWorld emptyThread).

(** A thread whose summary has 52 bytes. *)
Definition longSummary : domain.Thread :=
  domain.mkThread 7%N 0 (bs "A conversation about the weather in San Francisco CA").

(** A turn on a thread that is not in the store. *)
Definition elsewhere (content : list byte) : message.SendMessageOptions unit :=
  message.mkOptions 9%N None content true [].

(** A turn without a stream handler, the provider streaming all the same. *)
Definition quietly (content : list byte) : message.SendMessageOptions unit :=
  message.mkOptions 7%N None content false [].

Definition turnQuiet : result domain.Message * World :=
  message.SendMessage (client [bs "y"; CLI.essayFragment] (answer (bs "yo") []))
                      (quietly (bs "hi")) (freshWorld emptyThread).

(** A turn in which the provider asks for a tool and gives no arguments at
    all, not even an empty object. *)
Definition bareCall : llm.llmsToolCall :=
  llm.mkLlmsToolCall (bs "1") (llm.mkFunctionCall (bs "now") []).

(** The parameters of the tool [getCurrentWeather] of the default
    configuration. *)
Definition locationProperty : toolcfg.Property unit :=
  toolcfg.mkProperty (bs "string")
                     (bs "The city and state, e.g. San Francisco, CA")
                     [] None [] [] None.

Definition unitProperty : toolcfg.Property unit :=
  toolcfg.mkProperty (bs "string") [] [bs "fahrenheit"; bs "celsius"]
                     None [] [] None.

Definition weatherParameters : toolcfg.Parameters unit :=
  toolcfg.mkParameters (bs "object")
    [(bs "location", locationProperty); (bs "unit", unitProperty)]
    [bs "location"; bs "unit"].

Definition turnBare : result domain.Message * World :=
  message.SendMessage (client [bs "ok"] (answer (bs "ok") [bareCall]))
                      (say (bs "time?")) (freshWorld emptyThread).

End scenario.

(** C2 as it is written, on the store: after the turn a human message with
    the content of the turn is stored and is on the context path of the
    thread. *)
Definition humanMessageRemains (opts : message.SendMessageOptions unit)
           (st : store.Store) : Prop :=
  exists m path,
    In m (store.messages st) /\
    domain.Role m = domain.RoleHuman /\
    domain.Content m = message.Content opts /\
    fst (store.GetMessages (message.ThreadID opts) None false st) = Eff.Ok path /\
    In m path.

(** A chunk that does not begin in the middle of a UTF-8 sequence: it is
    empty or its first byte is not a continuation byte. *)
Definition startsRune (chunk : list byte) : bool :=
  match chunk with
  | [] => true
  | b :: _ => negb (Go.isCont b)
  end.

(** ASCII text without a double quote and without a backslash. *)
Definition plainText (s : list byte) : bool :=
  forallb (fun b => (Go.byteVal b <? 128) && negb (Byte.eqb b x22)
                    && negb (Byte.eqb b x5c)) s.

(** A JSON string literal whose content needs no escaping. *)
Definition quoted (s : list byte) : list byte := x22 :: s ++ [x22].

(** A JSON object whose values are strings, written without white space:
    an opening brace, the fields [key:value] with both parts quoted,
    separated by commas, a closing brace. *)
Definition field (kv : list byte * list byte) : list byte :=
  quoted (fst kv) ++ [x3a] ++ quoted (snd kv).

Fixpoint fields (kvs : list (list byte * list byte)) : list byte :=
  match kvs with
  | [] => []
  | [kv] => field kv
  | kv :: rest => field kv ++ [x2c] ++ fields rest
  end.

Definition flatObject (kvs : list (list byte * list byte)) : list byte :=
  [x7b] ++ fields kvs ++ [x7d].

(** A JSON array of strings, written without white space. *)
Fixpoint items (vs : list (list byte)) : list byte :=
  match vs with
  | [] => []
  | [v] => quoted v
  | v :: rest => quoted v ++ [x2c] ++ items rest
  end.

Definition stringArray (vs : list (list byte)) : list byte :=
  [x5b] ++ items vs ++ [x5d].

(** The lines such an array is shown as: for each item a new line, the
    indentation, a dash and a space, the item. *)
Definition itemLines (indent : nat) (vs : list (list byte)) : list byte :=
  List.concat
    (map (fun v => [x0a] ++ List.concat (List.repeat (Go.bs "  ") indent)
                    ++ Go.bs "- " ++ v)
         vs).

(** The lines such an object is shown as: for each field a new line, the
    indentation, the key, a colon and a space, the value. *)
Definition fieldLines (indent : nat) (kvs : list (list byte * list byte)) : list byte :=
  List.concat
    (map (fun kv => [x0a] ++ List.concat (List.repeat (Go.bs "  ") indent)
                     ++ fst kv ++ Go.bs ": " ++ snd kv)
         kvs).

(** The chunks that the stream callback takes for text: those that do not
    decode into a slice with at least one element. *)
Definition textChunk {codec : message.JSON} (chunk : list byte) : Prop :=
  match message.json_Unmarshal chunk with
  | Eff.Ok (_ :: _) => False
  | _ => True
  end.

(** The fragments that continue the tool call in progress: they carry no
    id, or the id of that call. *)
Definition continues (cur : list byte) (e : message.fcallElem) : Prop :=
  message.Id e = None \/ message.Id e = Some cur.

(** The argument pieces of a sequence of fragments. *)
Definition argumentsOf (elems : list message.fcallElem) : list (list byte) :=
  map (fun e => message.ArgumentsJson (message.Function e)) elems.

Section TurnPaths.
Import Go Eff.
Variable Tool : Type.
Context {S : Type} {messageRepo : repository.MessageRepository S}.
Context {H : Type} {streamHandler : message.StreamHandler H}.
Context {codec : message.JSON}.

Abbreviation World := (@message.World S H).

(** The world after some calls on the repository that left the store [s]. *)
Definition afterRepo (w : World) (s : S) (cs : list message.Call) : World :=
  message.mkWorld s (message.handlerState w) (message.calls w ++ cs).

(** The first part of [SendMessage], step by step: the thread is looked up
    and the parent of the human message is settled, or one of the reads
    fails. *)
Inductive Settled (opts : message.SendMessageOptions Tool) (w : World)
  : result (domain.Thread * option domain.UUID) -> World -> Prop :=
| ThreadFailed (e : error) (s1 : S) :
    repository.GetThreadByID (message.ThreadID opts) (message.repoState w)
    = (Err e, s1) ->
    Settled opts w (Err (Wrap "failed to get thread: " e))
            (afterRepo w s1 [message.CallGetThreadByID (message.ThreadID opts)])
| ParentGiven (thread : domain.Thread) (s1 : S) (p : domain.UUID) :
    repository.GetThreadByID (message.ThreadID opts) (message.repoState w)
    = (Ok thread, s1) ->
    message.ParentID opts = Some p ->
    Settled opts w (Ok (thread, Some p))
            (afterRepo w s1 [message.CallGetThreadByID (message.ThreadID opts)])
| LatestFailed (thread : domain.Thread) (s1 : S) (e : error) (s2 : S) :
    repository.GetThreadByID (message.ThreadID opts) (message.repoState w)
    = (Ok thread, s1) ->
    message.ParentID opts = None ->
    repository.GetMessages (domain.Thread_ID thread) None false s1 = (Err e, s2) ->
    Settled opts w (Err (Wrap "failed to get messages: " e))
            (afterRepo w s2
               [message.CallGetThreadByID (message.ThreadID opts);
                message.CallGetMessages (domain.Thread_ID thread) None false])
| LatestRead (thread : domain.Thread) (s1 : S) (msgs : list domain.Message) (s2 : S) :
    repository.GetThreadByID (message.ThreadID opts) (message.repoState w)
    = (Ok thread, s1) ->
    message.ParentID opts = None ->
    repository.GetMessages (domain.Thread_ID thread) None false s1 = (Ok msgs, s2) ->
    Settled opts w (Ok (thread, option_map domain.ID (lastOf msgs)))
            (afterRepo w s2
               [message.CallGetThreadByID (message.ThreadID opts);
                message.CallGetMessages (domain.Thread_ID thread) None false]).

(** The whole of [SendMessage], step by step: each way it can go, with the
    result it returns and the world it leaves. *)
Inductive Turn (client : llm.Client Tool) (opts : message.SendMessageOptions Tool)
          (w : World) : result domain.Message -> World -> Prop :=
| TurnUnsettled (e : error) (w1 : World) :
    Settled opts w (Err e) w1 ->
    Turn client opts w (Err e) w1
| TurnNoHistory (thread : domain.Thread) (parentID : option domain.UUID)
                (w1 : World) (e : error) (s3 : S) :
    Settled opts w (Ok (thread, parentID)) w1 ->
    repository.GetMessages (domain.Thread_ID thread) parentID false
                           (message.repoState w1) = (Err e, s3) ->
    Turn client opts w (Err (Wrap "failed to get conversation history: " e))
         (afterRepo w1 s3
            [message.CallGetMessages (domain.Thread_ID thread) parentID false])
| TurnProviderFailed (thread : domain.Thread) (parentID : option domain.UUID)
                     (w1 : World) (history : list domain.Message) (s3 : S)
                     (e : error) (w4 : World) :
    Settled opts w (Ok (thread, parentID)) w1 ->
    repository.GetMessages (domain.Thread_ID thread) parentID false
                           (message.repoState w1) = (Ok history, s3) ->
    message.callLLM client (message.Content opts) history
        (message.StreamHandler_ opts) (message.Tools opts)
        (afterRepo w1 s3
           [message.CallGetMessages (domain.Thread_ID thread) parentID false])
    = (Err e, w4) ->
    Turn client opts w (Err (Wrap "failed to stream AI response: " e)) w4
| TurnNotSerialised (thread : domain.Thread) (parentID : option domain.UUID)
                    (w1 : World) (history : list domain.Message) (s3 : S)
                    (aiResponse : llm.MessageResponse) (w4 : World) (e : error) :
    Settled opts w (Ok (thread, parentID)) w1 ->
    repository.GetMessages (domain.Thread_ID thread) parentID false
                           (message.repoState w1) = (Ok history, s3) ->
    message.callLLM client (message.Content opts) history
        (message.StreamHandler_ opts) (message.Tools opts)
        (afterRepo w1 s3
           [message.CallGetMessages (domain.Thread_ID thread) parentID false])
    = (Ok aiResponse, w4) ->
    message.json_Marshal (llm.ToolCalls aiResponse) = Err e ->
    Turn client opts w (Err (Wrap "Failed to parse ToolCalls: " e)) w4
| TurnHumanRejected (thread : domain.Thread) (parentID : option domain.UUID)
                    (w1 : World) (history : list domain.Message) (s3 : S)
                    (aiResponse : llm.MessageResponse) (w4 : World)
                    (toolCallsString : list byte) (e : error) (s5 : S) :
    Settled opts w (Ok (thread, parentID)) w1 ->
    repository.GetMessages (domain.Thread_ID thread) parentID false
                           (message.repoState w1) = (Ok history, s3) ->
    message.callLLM client (message.Content opts) history
        (message.StreamHandler_ opts) (message.Tools opts)
        (afterRepo w1 s3
           [message.CallGetMessages (domain.Thread_ID thread) parentID false])
    = (Ok aiResponse, w4) ->
    message.json_Marshal (llm.ToolCalls aiResponse) = Ok toolCallsString ->
    let userMsg := message.newMessage (message.ThreadID opts) parentID
                     domain.RoleHuman (message.Content opts) [] [] [] in
    repository.AddMessageToThread (message.ThreadID opts) userMsg
                                  (message.repoState w4) = (Err e, s5) ->
    Turn client opts w (Err e)
         (afterRepo w4 s5
            [message.CallAddMessageToThread (message.ThreadID opts) userMsg])
| TurnAppended (thread : domain.Thread) (parentID : option domain.UUID)
               (w1 : World) (history : list domain.Message) (s3 : S)
               (aiResponse : llm.MessageResponse) (w4 : World)
               (toolCallsString : list byte) (userMsg1 : domain.Message) (s5 : S)
               (r : result domain.Message) (s6 : S) :
    Settled opts w (Ok (thread, parentID)) w1 ->
    repository.GetMessages (domain.Thread_ID thread) parentID false
                           (message.repoState w1) = (Ok history, s3) ->
    message.callLLM client (message.Content opts) history
        (message.StreamHandler_ opts) (message.Tools opts)
        (afterRepo w1 s3
           [message.CallGetMessages (domain.Thread_ID thread) parentID false])
    = (Ok aiResponse, w4) ->
    message.json_Marshal (llm.ToolCalls aiResponse) = Ok toolCallsString ->
    let userMsg := message.newMessage (message.ThreadID opts) parentID
                     domain.RoleHuman (message.Content opts) [] [] [] in
    let aiMsg := message.newMessage (message.ThreadID opts)
                   (Some (domain.ID userMsg1)) domain.RoleAssistant
                   (llm.TextResponse aiResponse) toolCallsString
                   (config.Name (llm.modelCfg client))
                   (config.Provider (llm.modelCfg client)) in
    repository.AddMessageToThread (message.ThreadID opts) userMsg
                                  (message.repoState w4) = (Ok userMsg1, s5) ->
    repository.AddMessageToThread (message.ThreadID opts) aiMsg s5 = (r, s6) ->
    Turn client opts w r
         (afterRepo w4 s6
            [message.CallAddMessageToThread (message.ThreadID opts) userMsg;
             message.CallAddMessageToThread (message.ThreadID opts) aiMsg]).

End TurnPaths.

(** The messages [SendMessage] puts in front of the errors of the steps
    before the appends. *)
Definition turnErrorPrefixes : list String.string :=
  ["failed to get thread: "; "failed to get messages: ";
   "failed to get conversation history: "; "failed to stream AI response: ";
   "Failed to parse ToolCalls: "]%string.

(** The provider call in a log. *)
Definition isProviderCall (c : message.Call) : bool :=
  match c with
  | message.CallLLMSendMessage _ _ _ => true
  | _ => false
  end.

(* ================================================================== *)
(** * Properties of the re-formatter *)
(* ================================================================== *)

Section FormatterFacts.
Import Go CLI.

Lemma decodeRune_ascii (b : byte) (rest : gostring) :
  byteVal b < 128 -> decodeRune b rest = (byteVal b, 1%nat).
Proof.
  intros Hb. unfold decodeRune.
  destruct (byteVal b <? 128) eqn:E; [reflexivity|].
  apply Z.ltb_ge in E. lia.
Qed.

Lemma inRange_ascii_false (lo hi : Z) (b : byte) :
  128 <= lo -> byteVal b < 128 -> inRange lo hi b = false.
Proof.
  intros Hlo Hb. unfold inRange.
  destruct (lo <=? byteVal b) eqn:E; [|reflexivity].
  apply Z.leb_le in E. lia.
Qed.

Lemma leadInfo_lo (b0 : byte) (sz : nat) (lo hi : Z) :
  leadInfo b0 = Some (sz, lo, hi) -> 128 <= lo /\ (2 <= sz <= 4)%nat.
Proof.
  unfold leadInfo.
  repeat match goal with
         | |- context [if ?c then _ else _] => destruct c
         end; intros H; inversion H; subst; lia.
Qed.

(** A rune never extends over a following ASCII byte: what is decoded at the
    head of [b0 :: r0] is not changed by appending a string that starts with
    an ASCII byte. *)
Lemma decodeRune_app_ascii (b0 : byte) (r0 : gostring) (b : byte) (r : gostring) :
  byteVal b < 128 ->
  decodeRune b0 (r0 ++ b :: r) = decodeRune b0 r0.
Proof.
  intros Hb. unfold decodeRune.
  destruct (byteVal b0 <? 128); [reflexivity|].
  destruct (leadInfo b0) as [[[sz lo] hi]|] eqn:Hl; [|reflexivity].
  destruct (leadInfo_lo _ Hl) as [Hlo _].
  destruct r0 as [|s1 r1]; simpl.
  { rewrite inRange_ascii_false by assumption. reflexivity. }
  destruct (negb (inRange lo hi s1)); [reflexivity|].
  destruct (sz <=? 2)%nat; [reflexivity|].
  destruct r1 as [|s2 r2]; simpl.
  { unfold isCont. rewrite inRange_ascii_false by (assumption || lia). reflexivity. }
  destruct (negb (isCont s2)); [reflexivity|].
  destruct (sz <=? 3)%nat; [reflexivity|].
  destruct r2 as [|s3 r3]; simpl.
  { unfold isCont. rewrite inRange_ascii_false by (assumption || lia). reflexivity. }
  reflexivity.
Qed.

(** The width reported by the decoder never exceeds the bytes at hand. *)
Lemma decodeRune_width (b0 : byte) (r0 : gostring) :
  let w := snd (decodeRune b0 r0) in
  (1 <= w <= 4)%nat /\ (w <= S (List.length r0))%nat.
Proof.
  unfold decodeRune.
  destruct (byteVal b0 <? 128); [simpl; lia|].
  destruct (leadInfo b0) as [[[sz lo] hi]|]; [|simpl; lia].
  destruct r0 as [|s1 r1]; [simpl; lia|].
  destruct (negb (inRange lo hi s1)); [simpl; lia|].
  destruct (sz <=? 2)%nat; [simpl; lia|].
  destruct r1 as [|s2 r2]; [simpl; lia|].
  destruct (negb (isCont s2)); [simpl; lia|].
  destruct (sz <=? 3)%nat; [simpl; lia|].
  destruct r2 as [|s3 r3]; [simpl; lia|].
  destruct (negb (isCont s3)); simpl; lia.
Qed.

Lemma rangeString_app_ascii_aux (n : nat) :
  forall (a : gostring) (b : byte) (r : gostring),
    (List.length a <= n)%nat ->
    byteVal b < 128 ->
    rangeString (a ++ b :: r) = rangeString a ++ rangeString (b :: r).
Proof.
  induction n as [|n IH]; intros a b r Hn Hb.
  { destruct a; [reflexivity | simpl in Hn; lia]. }
  destruct a as [|b0 r0]; [reflexivity|].
  simpl in Hn.
  change ((b0 :: r0) ++ b :: r) with (b0 :: (r0 ++ b :: r)).
  cbn [rangeString].
  rewrite decodeRune_app_ascii by exact Hb.
  pose proof (decodeRune_width b0 r0) as Hw.
  destruct (decodeRune b0 r0) as [c w]. simpl in Hw.
  rewrite <- app_comm_cons. f_equal.
  destruct w as [|[|[|[|[|w]]]]]; try lia.
  - apply IH; [lia | exact Hb].
  - destruct r0 as [|s1 r1]; [simpl in Hw; lia|].
    simpl. apply IH; [simpl in Hn; lia | exact Hb].
  - destruct r0 as [|s1 [|s2 r2]]; try (simpl in Hw; lia).
    simpl. apply IH; [simpl in Hn; lia | exact Hb].
  - destruct r0 as [|s1 [|s2 [|s3 r3]]]; try (simpl in Hw; lia).
    simpl. apply IH; [simpl in Hn; lia | exact Hb].
Qed.

(** Splitting a string in front of an ASCII byte splits its runes. *)
Lemma rangeString_app_ascii (a : gostring) (b : byte) (r : gostring) :
  byteVal b < 128 ->
  rangeString (a ++ b :: r) = rangeString a ++ rangeString (b :: r).
Proof.
  intros Hb. apply (@rangeString_app_ascii_aux (List.length a)); [lia | exact Hb].
Qed.

Lemma rangeString_app_isASCII (a b : gostring) :
  isASCII b -> rangeString (a ++ b) = rangeString a ++ rangeString b.
Proof.
  intros Hb. destruct b as [|b0 r].
  - rewrite !app_nil_r. reflexivity.
  - apply rangeString_app_ascii. inversion Hb; assumption.
Qed.

Lemma isASCIIb_correct (s : gostring) : isASCIIb s = true -> isASCII s.
Proof.
  unfold isASCIIb, isASCII. rewrite forallb_forall, Forall_forall.
  intros H b Hin. apply Z.ltb_lt. apply H. exact Hin.
Qed.

(** The builder only grows: what one iteration does to a builder holding
    [acc] is what it does to an empty one, after [acc]. *)
Lemma step_acc (h : CLIStreamHandler) (acc : gostring) (c : rune) :
  step (h, acc) c = (fst (step (h, []) c), acc ++ snd (step (h, []) c)).
Proof.
  destruct h as [q e lvl arr v].
  unfold step, writeIndent; cbn [inQuote escaped indentLevel inArray isValue].
  repeat match goal with
         | |- context [if ?c then _ else _] => destruct c
         end;
    cbn [fst snd]; rewrite ?app_nil_l, ?app_nil_r, <- ?app_assoc; reflexivity.
Qed.

Lemma fold_step_acc (rs : list rune) :
  forall (h : CLIStreamHandler) (acc : gostring),
    fold_left step rs (h, acc) =
    (fst (fold_left step rs (h, [])), acc ++ snd (fold_left step rs (h, []))).
Proof.
  induction rs as [|c rs IH]; intros h acc.
  - simpl. rewrite app_nil_r. reflexivity.
  - cbn [fold_left]. rewrite (step_acc h acc c).
    destruct (step (h, []) c) as [h1 o1] eqn:E. cbn [fst snd].
    rewrite (IH h1 (acc ++ o1)), (IH h1 o1). cbn [fst snd].
    rewrite app_assoc. reflexivity.
Qed.

(** Feeding [a] and then [b] is feeding [a ++ b], whenever the cut does not
    fall inside a multi-byte rune. *)
Lemma formatJSON_app (h : CLIStreamHandler) (a b : gostring) :
  rangeString (a ++ b) = rangeString a ++ rangeString b ->
  formatJSON h (a ++ b) =
  (fst (formatJSON (fst (formatJSON h a)) b),
   snd (formatJSON h a) ++ snd (formatJSON (fst (formatJSON h a)) b)).
Proof.
  intros Hcut. unfold formatJSON, formatLoop.
  rewrite Hcut, fold_left_app.
  destruct (fold_left step (rangeString a) (h, [])) as [h1 o1]. cbn [fst snd].
  apply fold_step_acc.
Qed.

Lemma feed_concat_ascii (chunks : list gostring) :
  forall h : CLIStreamHandler,
    Forall isASCII chunks ->
    feed h chunks = formatJSON h (List.concat chunks).
Proof.
  induction chunks as [|c cs IH]; intros h Hall.
  - reflexivity.
  - inversion Hall as [|c' cs' Hc Hcs]; subst.
    cbn [feed List.concat].
    rewrite formatJSON_app.
    + destruct (formatJSON h c) as [h1 o1]. cbn [fst snd].
      rewrite (IH h1 Hcs).
      destruct (formatJSON h1 (List.concat cs)); reflexivity.
    + apply rangeString_app_isASCII.
      unfold isASCII. apply Forall_concat. exact Hcs.
Qed.

Lemma Forall_concat_inv {A} (P : A -> Prop) (ls : list (list A)) :
  Forall P (List.concat ls) -> Forall (Forall P) ls.
Proof.
  induction ls as [|l ls IH]; intros H; [constructor|].
  simpl in H. apply Forall_app in H. destruct H as [H1 H2].
  constructor; [exact H1 | apply IH; exact H2].
Qed.

Example essayFragment_text :
  string_of_list_byte essayFragment =
  string_of_list_byte
    ([x5b; x7b; x22] ++ bs "id" ++ [x22; x3a; x22] ++ bs "1" ++ [x22; x2c; x22]
     ++ bs "function" ++ [x22; x3a; x7b; x22] ++ bs "name" ++ [x22; x3a; x22]
     ++ bs "essay" ++ [x22; x2c; x22] ++ bs "arguments" ++ [x22; x3a; x22; x7b]
     ++ [x5c; x22] ++ bs "name" ++ [x5c; x22; x3a; x5c; x22] ++ bs "x"
     ++ [x5c; x22; x2c; x5c; x22] ++ bs "content" ++ [x5c; x22; x3a; x5c; x22]
     ++ bs "a,b" ++ [x5c; x22; x7d; x22; x7d; x7d; x5d]).
Proof. reflexivity. Qed.

(** C3: for the essay fragment, every way of cutting it into consecutive
    slices and feeding the slices one at a time to one handler gives, after
    concatenation, the output of feeding the whole fragment as one chunk
    (and leaves the handler in the same state), whatever state the handler
    starts in. *)
Theorem formatJSON_essay_chunking (h : CLIStreamHandler) (chunks : list gostring) :
  List.concat chunks = essayFragment ->
  feed h chunks = formatJSON h essayFragment.
Proof.
  intros Hcat. rewrite <- Hcat. apply feed_concat_ascii.
  apply Forall_concat_inv. rewrite Hcat.
  apply isASCIIb_correct. vm_compute. reflexivity.
Qed.

Lemma formatJSON_essay_chunking_witness :
  let chunks := [firstn 30 essayFragment;
                 firstn 41 (skipn 30 essayFragment);
                 [];
                 skipn 71 essayFragment] in
  List.concat chunks = essayFragment /\
  feed newHandler chunks = formatJSON newHandler essayFragment.
Proof.
  split; [vm_compute; reflexivity|].
  apply (@formatJSON_essay_chunking newHandler); vm_compute; reflexivity.
Defined.

(** C5: when the formatter reaches a backslash followed by a double quote
    while it is inside a quoted string (and the backslash is not itself
    escaped), it writes both characters as they are and is then in the state
    it was in before them, still inside the string: what follows is
    formatted from that state. *)
Theorem formatJSON_escaped_quote (h : CLIStreamHandler) (pre post : gostring) :
  inQuote (fst (formatJSON h pre)) = true ->
  escaped (fst (formatJSON h pre)) = false ->
  fst (formatJSON h (pre ++ [x5c; x22])) = fst (formatJSON h pre) /\
  formatJSON h (pre ++ [x5c; x22] ++ post) =
  (fst (formatJSON (fst (formatJSON h pre)) post),
   snd (formatJSON h pre) ++ [x5c; x22]
     ++ snd (formatJSON (fst (formatJSON h pre)) post)).
Proof.
  intros Hq He.
  assert (Hcut : forall rest, rangeString (pre ++ [x5c; x22] ++ rest) =
                              rangeString pre ++ 92 :: 34 :: rangeString rest).
  { intros rest. change ([x5c; x22] ++ rest) with (x5c :: x22 :: rest).
    rewrite rangeString_app_ascii by (vm_compute; reflexivity). reflexivity. }
  assert (Hgen : forall rest,
    formatJSON h (pre ++ [x5c; x22] ++ rest) =
    (fst (formatJSON (fst (formatJSON h pre)) rest),
     snd (formatJSON h pre) ++ [x5c; x22]
       ++ snd (formatJSON (fst (formatJSON h pre)) rest))).
  { intros rest. unfold formatJSON, formatLoop in *.
    rewrite Hcut, fold_left_app.
    destruct (fold_left step (rangeString pre) (h, [])) as [h1 o1].
    cbn [fst snd] in *. destruct h1 as [q e lvl arr v].
    cbn [inQuote escaped] in Hq, He. subst q e.
    cbn [fold_left].
    change (step ({| inQuote := true; escaped := false; indentLevel := lvl;
                     inArray := arr; isValue := v |}, o1) 92)
      with ({| inQuote := true; escaped := true; indentLevel := lvl;
               inArray := arr; isValue := v |}, o1 ++ [x5c]).
    change (step ({| inQuote := true; escaped := true; indentLevel := lvl;
                     inArray := arr; isValue := v |}, o1 ++ [x5c]) 34)
      with ({| inQuote := true; escaped := false; indentLevel := lvl;
               inArray := arr; isValue := v |}, (o1 ++ [x5c]) ++ [x22]).
    rewrite fold_step_acc. rewrite <- !app_assoc. reflexivity. }
  split.
  - specialize (Hgen []). rewrite app_nil_r in Hgen. rewrite Hgen. reflexivity.
  - apply Hgen.
Qed.

Lemma formatJSON_escaped_quote_witness :
  let pre := [x22; x61] in
  let post := [x62; x22; x2c] in
  inQuote (fst (formatJSON newHandler pre)) = true /\
  escaped (fst (formatJSON newHandler pre)) = false /\
  snd (formatJSON newHandler (pre ++ [x5c; x22] ++ post)) =
    [x61; x5c; x22; x62; x0a].
Proof.
  split; [reflexivity|]. split; [reflexivity|].
  destruct (@formatJSON_escaped_quote newHandler [x22; x61] [x62; x22; x2c]
              eq_refl eq_refl) as [_ H].
  rewrite H. reflexivity.
Defined.

(** C9: [Reset] clears the quoted-string and the escape-pending flags and
    leaves the indent depth, the array flag and the expecting-value flag as
    they were, from every state of the handler. *)
Theorem Reset_frame (h : CLIStreamHandler) :
  inQuote (Reset h) = false /\
  escaped (Reset h) = false /\
  indentLevel (Reset h) = indentLevel h /\
  inArray (Reset h) = inArray h /\
  isValue (Reset h) = isValue h.
Proof. repeat split. Qed.

End FormatterFacts.

(* ================================================================== *)
(** * Properties of the stream callback *)
(* ================================================================== *)

Section CallbackFacts.
Import Go Eff.
Variable Tool : Type.
Context {S : Type} {messageRepo : repository.MessageRepository S}.
Context {H : Type} {streamHandler : message.StreamHandler H}.
Context {codec : message.JSON}.

Abbreviation World := (@message.World S H).

Lemma streq_refl (s : list byte) : streq s s = true.
Proof.
  induction s as [|b s IH]; [reflexivity|].
  simpl. rewrite IH, Bool.andb_true_r. apply Byte.byte_dec_lb. reflexivity.
Qed.

Lemma streq_eq (s t : list byte) : streq s t = true <-> s = t.
Proof.
  split; [|intros ->; apply streq_refl].
  revert t; induction s as [|a s IH]; intros [|b t] Heq; simpl in Heq;
    try discriminate; [reflexivity|].
  apply andb_prop in Heq. destruct Heq as [Hab Hst].
  apply Byte.byte_dec_bl in Hab. rewrite Hab, (IH t Hst). reflexivity.
Qed.

Lemma startEvents_app (l1 l2 : list message.Call) :
  startEvents (l1 ++ l2) = startEvents l1 ++ startEvents l2.
Proof.
  induction l1 as [|c l1 IH]; [reflexivity|].
  destruct c; simpl; rewrite IH; reflexivity.
Qed.


Lemma onHandler_eq (c : message.Call) (op : H -> option error * H) (w : World) :
  message.onHandler c op w =
  (fst (op (message.handlerState w)), message.afterHandler c op w).
Proof. reflexivity. Qed.

(** C7: the probe of a chunk returns a value, it raises nothing.  When the
    chunk does not decode into a slice with at least one element, the
    callback makes exactly one call, [HandleTextChunk] with the chunk as it
    came, and returns what that call returns; when it does decode into such
    a slice, the calls it makes are function-call calls only, the last of
    them unless the start call failed being [HandleFunctionCallChunk] with
    the function of the first element. *)
Theorem streamCallback_classification
        (chunk : list byte) (currentFunctionId : list byte) (w : World) :
  match message.json_Unmarshal chunk with
  | Ok (fcall0 :: _) =>
      exists calls',
        message.calls (snd (snd (message.streamCallback chunk (currentFunctionId, w))))
        = message.calls w ++ calls' /\
        calls' <> [] /\
        forallb isFunctionCall calls' = true /\
        (fst (message.streamCallback chunk (currentFunctionId, w)) = None ->
         List.last calls' (message.CallHandleTextChunk chunk)
         = message.CallHandleFunctionCallChunk (message.Function fcall0))
  | _ =>
      message.streamCallback chunk (currentFunctionId, w) =
      (fst (message.HandleTextChunk chunk (message.handlerState w)),
       (currentFunctionId,
        message.afterHandler (message.CallHandleTextChunk chunk)
                             (message.HandleTextChunk chunk) w))
  end.
Proof.
  unfold message.streamCallback.
  destruct (message.json_Unmarshal chunk) as [[|fcall0 rest]|e].
  - rewrite onHandler_eq. reflexivity.
  - destruct (message.Id fcall0) as [id|].
    + destruct (negb (streq currentFunctionId id)).
      * rewrite onHandler_eq.
        destruct (fst (message.HandleFunctionCallStart id
                         (message.Name (message.Function fcall0))
                         (message.handlerState w))) as [err|].
        -- eexists. cbn [fst snd message.afterHandler message.calls].
           split; [reflexivity|]. split; [discriminate|].
           split; [reflexivity|]. discriminate.
        -- rewrite onHandler_eq. eexists.
           cbn [fst snd message.afterHandler message.calls].
           rewrite <- app_assoc. split; [reflexivity|].
           split; [discriminate|]. split; reflexivity.
      * rewrite onHandler_eq. eexists. cbn [fst snd message.afterHandler message.calls].
        split; [reflexivity|]. split; [discriminate|]. split; reflexivity.
    + rewrite onHandler_eq. eexists. cbn [fst snd message.afterHandler message.calls].
      split; [reflexivity|]. split; [discriminate|]. split; reflexivity.
  - rewrite onHandler_eq. reflexivity.
Qed.

(** One chunk through the callback: the store is not touched, and the log
    grows by handler calls. *)
Lemma streamCallback_effect (chunk : list byte) (cur : list byte) (w : World) :
  message.repoState (snd (snd (message.streamCallback chunk (cur, w))))
  = message.repoState w /\
  exists hs,
    message.calls (snd (snd (message.streamCallback chunk (cur, w))))
    = message.calls w ++ hs /\
    forallb isHandlerCall hs = true.
Proof.
  unfold message.streamCallback.
  destruct (message.json_Unmarshal chunk) as [[|fcall0 rest]|e];
    try (rewrite onHandler_eq; cbn; split; [reflexivity|];
         eexists; split; reflexivity).
  destruct (message.Id fcall0) as [id|];
    [destruct (negb (streq cur id))|];
    rewrite onHandler_eq;
    try (cbn; split; [reflexivity|]; eexists; split; reflexivity).
  destruct (fst (message.HandleFunctionCallStart id _ _)) as [err|].
  - cbn. split; [reflexivity|]. eexists; split; reflexivity.
  - rewrite onHandler_eq. cbn. split; [reflexivity|].
    rewrite <- app_assoc. eexists; split; reflexivity.
Qed.

(** The start events one tool-call fragment gives rise to, and the id in
    progress after it when nothing failed. *)
Lemma streamCallback_start (chunk : list byte) (cur : list byte) (w : World)
      (e : message.fcallElem) (rest : list message.fcallElem) :
  message.json_Unmarshal chunk = Ok (e :: rest) ->
  exists hs,
    message.calls (snd (snd (message.streamCallback chunk (cur, w))))
    = message.calls w ++ hs /\
    startEvents hs = idChanges cur [e] /\
    (fst (message.streamCallback chunk (cur, w)) = None ->
     forall more,
       idChanges cur (e :: more)
       = idChanges cur [e]
         ++ idChanges (fst (snd (message.streamCallback chunk (cur, w)))) more).
Proof.
  intros Hparse. unfold message.streamCallback. rewrite Hparse.
  cbn [idChanges].
  destruct (message.Id e) as [id|].
  - destruct (streq cur id) eqn:Eid; cbn [negb].
    + rewrite onHandler_eq. cbn [fst snd message.afterHandler message.calls].
      eexists. split; [reflexivity|]. split; [reflexivity|]. reflexivity.
    + rewrite onHandler_eq.
      destruct (fst (message.HandleFunctionCallStart id _ _)) as [err|].
      * cbn [fst snd message.afterHandler message.calls].
        eexists. split; [reflexivity|]. split; [reflexivity|]. discriminate.
      * rewrite onHandler_eq. cbn [fst snd message.afterHandler message.calls].
        rewrite <- app_assoc.
        eexists. split; [reflexivity|]. split; reflexivity.
  - rewrite onHandler_eq. cbn [fst snd message.afterHandler message.calls].
    eexists. split; [reflexivity|]. split; reflexivity.
Qed.

(** A stream of tool-call fragments through the callback: the start events
    are those of the id changes along the fragments that were delivered;
    all of them were delivered when no handler call failed. *)
Lemma deliver_starts (chunks : list (list byte)) :
  forall (elems : list message.fcallElem) (cur : list byte) (w : World),
    Forall2 (fun c e => exists rest, message.json_Unmarshal c = Ok (e :: rest))
            chunks elems ->
    exists n hs,
      message.calls (snd (snd (llm.deliver message.streamCallback chunks (cur, w))))
      = message.calls w ++ hs /\
      startEvents hs = idChanges cur (firstn n elems) /\
      (fst (llm.deliver message.streamCallback chunks (cur, w)) = None ->
       n = List.length elems).
Proof.
  induction chunks as [|c cs IH]; intros elems cur w Hall.
  - inversion Hall; subst. exists 0%nat, []. cbn. rewrite app_nil_r. auto.
  - inversion Hall as [|c' e cs' es [rest Hc] Hrest]; subst.
    cbn [llm.deliver].
    destruct (@streamCallback_start c cur w e rest Hc) as [hs [Hcalls [Hst Hnext]]].
    destruct (message.streamCallback c (cur, w)) as [[err|] [cur1 w1]] eqn:Ecb;
      cbn [fst snd] in *.
    + exists 1%nat, hs. cbn [firstn]. repeat split; [assumption..|discriminate].
    + destruct (IH es cur1 w1 Hrest) as [n [hs' [Hcalls' [Hst' Hn]]]].
      exists (Datatypes.S n), (hs ++ hs').
      rewrite Hcalls', Hcalls, <- app_assoc. split; [reflexivity|].
      rewrite startEvents_app, Hst, Hst'. cbn [firstn].
      split; [symmetry; apply Hnext; reflexivity|].
      intros Hnone. cbn [List.length]. f_equal. apply Hn. exact Hnone.
Qed.

Lemma idChanges_runHeads (elems : list message.fcallElem) :
  forall cur, map fst (idChanges cur elems) = runHeads cur (presentIds elems).
Proof.
  induction elems as [|e es IH]; intros cur; [reflexivity|].
  unfold presentIds in *. cbn [idChanges flat_map].
  destruct (message.Id e) as [id|]; cbn [app runHeads].
  - destruct (streq cur id); [apply IH|]. cbn [map fst]. rewrite IH. reflexivity.
  - apply IH.
Qed.

Lemma runHeads_repeat (id : list byte) (k : nat) (rest : list (list byte)) :
  runHeads id (List.repeat id k ++ rest) = runHeads id rest.
Proof.
  induction k as [|k IH]; [reflexivity|].
  cbn [List.repeat app runHeads]. rewrite streq_refl. exact IH.
Qed.

Lemma runHeads_runs (runs : list (list byte * nat)) :
  forall cur,
    NoDup (map fst runs) ->
    ~ In cur (map fst runs) ->
    runHeads cur (flat_map (fun r => List.repeat (fst r) (Datatypes.S (snd r))) runs)
    = map fst runs.
Proof.
  induction runs as [|[id k] runs IH]; intros cur Hnd Hcur; [reflexivity|].
  cbn [flat_map map fst snd] in *.
  inversion Hnd as [|x l Hnotin Hnd']; subst.
  change (List.repeat id (Datatypes.S k)) with (id :: List.repeat id k).
  rewrite <- app_comm_cons. cbn [runHeads].
  destruct (streq cur id) eqn:E.
  - apply streq_eq in E. subst cur. exfalso. apply Hcur. left. reflexivity.
  - rewrite runHeads_repeat, (IH id Hnd' Hnotin). reflexivity.
Qed.

Lemma in_flat_map_runs (runs : list (list byte * nat)) (id : list byte) :
  In id (flat_map (fun r => List.repeat (fst r) (Datatypes.S (snd r))) runs)
  <-> In id (map fst runs).
Proof.
  rewrite in_flat_map, in_map_iff. split.
  - intros [r [Hr Hin]]. apply repeat_spec in Hin. exists r. split; [symmetry|]; assumption.
  - intros [r [Heq Hr]]. exists r. split; [assumption|]. subst id. left. reflexivity.
Qed.

End CallbackFacts.

(* ================================================================== *)
(** * Properties of [SendMessage] *)
(* ================================================================== *)

Lemma app_cons_after {A} (l1 l2 pre post : list A) (y : A) :
  l1 ++ l2 = pre ++ y :: post ->
  ~ In y l1 ->
  exists pre', pre = l1 ++ pre' /\ l2 = pre' ++ y :: post.
Proof.
  revert pre. induction l1 as [|x l1 IH]; intros pre Heq Hnot.
  - exists pre. split; [reflexivity | exact Heq].
  - destruct pre as [|p pre]; cbn in Heq.
    + inversion Heq; subst. exfalso. apply Hnot. left. reflexivity.
    + inversion Heq; subst.
      destruct (IH pre H1) as [pre' [Hpre Hl2]].
      { intros Hin. apply Hnot. right. exact Hin. }
      exists pre'. split; [rewrite Hpre; reflexivity | exact Hl2].
Qed.

Lemma forallb_not_in {A} (P : A -> bool) (l : list A) (y : A) :
  forallb P l = true -> P y = false -> ~ In y l.
Proof.
  intros Hall Hy Hin. rewrite forallb_forall in Hall.
  rewrite (Hall y Hin) in Hy. discriminate.
Qed.

Section TurnOutcome.
Import Go Eff.
Variable Tool : Type.
Context {S : Type} {messageRepo : repository.MessageRepository S}.
Context {H : Type} {streamHandler : message.StreamHandler H}.
Context {codec : message.JSON}.

Abbreviation World := (@message.World S H).

(** The streaming function on the chunks of the provider: the store is not
    touched, the log grows by handler calls. *)
Lemma deliver_effect (chunks : list (list byte)) :
  forall (cur : list byte) (w : World),
    message.repoState (snd (snd (llm.deliver message.streamCallback chunks (cur, w))))
    = message.repoState w /\
    exists hs,
      message.calls (snd (snd (llm.deliver message.streamCallback chunks (cur, w))))
      = message.calls w ++ hs /\
      forallb isHandlerCall hs = true.
Proof.
  induction chunks as [|c cs IH]; intros cur w.
  - cbn. split; [reflexivity|]. exists []. rewrite app_nil_r. split; reflexivity.
  - cbn [llm.deliver].
    destruct (streamCallback_effect c cur w) as [Hrepo [hs [Hcalls Hhs]]].
    destruct (message.streamCallback c (cur, w)) as [[err|] [cur1 w1]];
      cbn [fst snd] in *.
    + split; [assumption|]. exists hs. split; assumption.
    + destruct (IH cur1 w1) as [Hrepo' [hs' [Hcalls' Hhs']]].
      split; [congruence|]. exists (hs ++ hs').
      rewrite Hcalls', Hcalls, <- app_assoc. split; [reflexivity|].
      rewrite forallb_app, Hhs, Hhs'. reflexivity.
Qed.

(** The provider call of the service: logged first; the store is not
    touched; a result that is not an error comes from a result of the
    provider that is not an error. *)
Lemma callLLM_effect (client : llm.Client Tool) (content : list byte)
      (history : list domain.Message) (stream : bool)
      (tools : list (list byte * Tool)) (w : World) :
  let r := fst (message.callLLM client content history stream tools w) in
  let w' := snd (message.callLLM client content history stream tools w) in
  message.repoState w' = message.repoState w /\
  (exists hs,
     message.calls w' = message.calls w
       ++ message.CallLLMSendMessage content history stream :: hs /\
     forallb isHandlerCall hs = true) /\
  (forall aiResponse, r = Ok aiResponse ->
     exists copts cr,
       llm.genResult (@llm.GenerateContent _ (llm.llm client)
                        (llm.buildMessageHistory history
                           ++ [llm.TextParts llm.ChatMessageTypeHuman content])
                        copts) = Ok cr /\
       llm.ToolCalls aiResponse = llm.collectToolCalls (llm.Choices cr)).
Proof.
  unfold message.callLLM, llm.SendMessage, bind, wrapErr, llm.runGenerate, fail, ret.
  cbn [llm.optStreaming].
  set (w0 := message.logCall _ w).
  set (gen := llm.GenerateContent _ _).
  destruct stream.
  - destruct (deliver_effect (llm.genChunks gen) [] w0) as [Hrepo [hs [Hcalls Hhs]]].
    destruct (llm.deliver message.streamCallback (llm.genChunks gen) ([], w0))
      as [[err|] [cur1 w1]]; cbn [fst snd] in *.
    + split; [exact Hrepo|]. split.
      * exists hs. rewrite Hcalls. unfold w0. cbn. rewrite <- app_assoc.
        split; [reflexivity | exact Hhs].
      * intros a Ha. discriminate.
    + destruct (llm.genResult gen) as [cr|e] eqn:Egen; cbn [fst snd].
      * destruct (llm.Choices cr) as [|choice0 rest] eqn:Ech; cbn [fst snd].
        -- split; [exact Hrepo|]. split.
           ++ exists hs. rewrite Hcalls. unfold w0. cbn. rewrite <- app_assoc.
              split; [reflexivity | exact Hhs].
           ++ intros a Ha. discriminate.
        -- split; [exact Hrepo|]. split.
           ++ exists hs. rewrite Hcalls. unfold w0. cbn. rewrite <- app_assoc.
              split; [reflexivity | exact Hhs].
           ++ intros a Ha. inversion Ha; subst. eexists _, cr.
              split; [exact Egen|]. cbn. rewrite Ech. reflexivity.
      * split; [exact Hrepo|]. split.
        -- exists hs. rewrite Hcalls. unfold w0. cbn. rewrite <- app_assoc.
           split; [reflexivity | exact Hhs].
        -- intros a Ha. discriminate.
  - destruct (llm.genResult gen) as [cr|e] eqn:Egen; cbn [fst snd].
    + destruct (llm.Choices cr) as [|choice0 rest] eqn:Ech; cbn [fst snd].
      * split; [reflexivity|]. split.
        -- exists []. split; reflexivity.
        -- intros a Ha. discriminate.
      * split; [reflexivity|]. split.
        -- exists []. split; reflexivity.
        -- intros a Ha. inversion Ha; subst. eexists _, cr.
           split; [exact Egen|]. cbn. rewrite Ech. reflexivity.
    + split; [reflexivity|]. split.
      * exists []. split; reflexivity.
      * intros a Ha. discriminate.
Qed.

Lemma readsRun_snoc (s s' : S) (cs : list message.Call) :
  readsRun s cs s' ->
  forall id ref fut,
    readsRun s (cs ++ [message.CallGetMessages id ref fut])
             (snd (repository.GetMessages id ref fut s')).
Proof.
  induction 1 as [s|s s' id0 cs Hrun IH|s s' id0 ref0 fut0 cs Hrun IH];
    intros id ref fut; cbn [app].
  - apply readsRun_messages. apply readsRun_nil.
  - apply readsRun_thread. apply IH.
  - apply readsRun_messages. apply IH.
Qed.

(** What [SendMessage] does once the parent of the human message is
    settled: it reads the history, calls the provider, and appends. *)
Lemma SendMessage_tail (client : llm.Client Tool)
      (opts : message.SendMessageOptions Tool) (w : World)
      (thread : domain.Thread) (parentID : option domain.UUID)
      (reads : list message.Call) (sP : S) :
  forallb isRead reads = true ->
  readsRun (message.repoState w) reads sP ->
  parentResolved opts (message.repoState w) parentID ->
  let w1 := message.mkWorld sP (message.handlerState w) (message.calls w ++ reads) in
  let run :=
    (messages <- wrapErr "failed to get conversation history: "
       (message.onRepo (message.CallGetMessages (domain.Thread_ID thread) parentID false)
          (repository.GetMessages (domain.Thread_ID thread) parentID false)) ;;
     let modelCfg := llm.GetConfig client in
     let userMsg := message.newMessage (message.ThreadID opts) parentID domain.RoleHuman
                      (message.Content opts) [] [] [] in
     aiResponse <- wrapErr "failed to stream AI response: "
       (message.callLLM client (message.Content opts) messages
          (message.StreamHandler_ opts) (message.Tools opts)) ;;
     toolCallsString <- wrapErr "Failed to parse ToolCalls: "
       (fun w => (message.json_Marshal (llm.ToolCalls aiResponse), w)) ;;
     userMsg1 <- message.onRepo
         (message.CallAddMessageToThread (message.ThreadID opts) userMsg)
         (repository.AddMessageToThread (message.ThreadID opts) userMsg) ;;
     let aiMsg := message.newMessage (message.ThreadID opts)
                    (Some (domain.ID userMsg1)) domain.RoleAssistant
                    (llm.TextResponse aiResponse) toolCallsString
                    (config.Name modelCfg) (config.Provider modelCfg) in
     aiMsg1 <- message.onRepo
         (message.CallAddMessageToThread (message.ThreadID opts) aiMsg)
         (repository.AddMessageToThread (message.ThreadID opts) aiMsg) ;;
     ret aiMsg1)%eff w1 in
  SendOutcome client opts w (fst run) (snd run).
Proof.
  intros Hreads Hrun Hparent w1 run. subst run.
  cbv beta delta [bind wrapErr message.onRepo ret].
  set (getHist := message.CallGetMessages (domain.Thread_ID thread) parentID false).
  pose proof (readsRun_snoc Hrun (domain.Thread_ID thread) parentID false) as Hrun3.
  assert (Hreads3 : forallb isRead (reads ++ [getHist]) = true).
  { rewrite forallb_app, Hreads. reflexivity. }
  cbn [message.repoState message.calls message.handlerState w1].
  destruct (repository.GetMessages (domain.Thread_ID thread) parentID false sP)
    as [[messages|e] s3] eqn:E3; cbn [fst snd] in *.
  2:{ apply StoppedReading with (reads := reads ++ [getHist]);
        [exact Hreads3 | cbn; rewrite app_assoc; reflexivity | exact Hrun3 | reflexivity]. }
  set (w3 := message.mkWorld s3 _ _).
  pose proof (callLLM_effect client (message.Content opts) messages
                (message.StreamHandler_ opts) (message.Tools opts) w3)
    as [Hrepo [[hs [Hcalls Hhs]] Hok]].
  destruct (message.callLLM client (message.Content opts) messages
              (message.StreamHandler_ opts) (message.Tools opts) w3)
    as [[aiResponse|e] w4]; cbn [fst snd] in *.
  2:{ apply StoppedAfterProvider
        with (reads := reads ++ [getHist]) (hs := hs) (history := messages);
        [exact Hreads3 | exact Hhs
        | rewrite Hcalls; unfold w3; cbn; rewrite <- !app_assoc; reflexivity
        | rewrite Hrepo; exact Hrun3 | reflexivity]. }
  destruct (Hok aiResponse eq_refl) as [copts [cr [Hgen Htc]]].
  destruct (message.json_Marshal (llm.ToolCalls aiResponse))
    as [toolCallsString|e] eqn:Em; cbn [fst snd].
  2:{ apply StoppedAfterProvider
        with (reads := reads ++ [getHist]) (hs := hs) (history := messages);
        [exact Hreads3 | exact Hhs
        | rewrite Hcalls; unfold w3; cbn; rewrite <- !app_assoc; reflexivity
        | rewrite Hrepo; exact Hrun3 | reflexivity]. }
  set (userMsg := message.newMessage (message.ThreadID opts) parentID domain.RoleHuman
                    (message.Content opts) [] [] []).
  destruct (repository.AddMessageToThread (message.ThreadID opts) userMsg
              (message.repoState w4)) as [[userMsg1|e] s5] eqn:E5; cbn [fst snd].
  2:{ eapply StoppedFirstAppend
        with (reads := reads ++ [getHist]) (hs := hs) (history := messages)
             (parentID := parentID) (sR := message.repoState w4);
        [exact Hreads3 | exact Hhs
        | cbn; rewrite Hcalls; unfold w3; cbn; rewrite <- !app_assoc; reflexivity
        | rewrite Hrepo; exact Hrun3 | exact Hparent | exact Hgen
        | exact E5 | reflexivity]. }
  set (aiMsg := message.newMessage (message.ThreadID opts) (Some (domain.ID userMsg1))
                  domain.RoleAssistant (llm.TextResponse aiResponse) toolCallsString
                  (config.Name (llm.GetConfig client))
                  (config.Provider (llm.GetConfig client))).
  destruct (repository.AddMessageToThread (message.ThreadID opts) aiMsg s5)
    as [r6 s6] eqn:E6; cbn [fst snd].
  eapply BothAppended
    with (reads := reads ++ [getHist]) (hs := hs) (history := messages)
         (parentID := parentID) (sR := message.repoState w4) (s1 := s5)
         (userMsg1 := userMsg1)
         (aiResponse := aiResponse) (toolCallsString := toolCallsString);
    [exact Hreads3 | exact Hhs | | rewrite Hrepo; exact Hrun3 | exact Hparent
    | exact Hgen | exact Htc | exact Em | exact E5 | ].
  - destruct r6; cbn; rewrite Hcalls; unfold w3; cbn; rewrite <- !app_assoc; reflexivity.
  - destruct r6; cbn; exact E6.
Qed.

(** Every call of [SendMessage] goes one of the four ways. *)
Lemma SendMessage_outcome (client : llm.Client Tool)
      (opts : message.SendMessageOptions Tool) (w : World) :
  SendOutcome client opts w
    (fst (message.SendMessage client opts w))
    (snd (message.SendMessage client opts w)).
Proof.
  cbv beta delta [message.SendMessage].
  set (getThread := message.CallGetThreadByID (message.ThreadID opts)).
  cbv beta delta [bind wrapErr message.onRepo ret].
  destruct (repository.GetThreadByID (message.ThreadID opts) (message.repoState w))
    as [[thread|e] s1] eqn:E1; cbn [fst snd].
  2:{ apply StoppedReading with (reads := [getThread]);
        [reflexivity | reflexivity | | reflexivity].
      apply readsRun_thread. rewrite E1. apply readsRun_nil. }
  assert (Hrun1 : readsRun (message.repoState w) [getThread] s1).
  { apply readsRun_thread. rewrite E1. apply readsRun_nil. }
  destruct (message.ParentID opts) as [p|] eqn:EP.
  - assert (Hparent : parentResolved opts (message.repoState w) (Some p)).
    { unfold parentResolved. rewrite EP. reflexivity. }
    exact (@SendMessage_tail client opts w thread (Some p) [getThread] s1
             eq_refl Hrun1 Hparent).
  - set (getLast := message.CallGetMessages (domain.Thread_ID thread) None false).
    cbn [message.repoState message.calls message.handlerState].
    pose proof (readsRun_snoc Hrun1 (domain.Thread_ID thread) None false) as Hrun2.
    destruct (repository.GetMessages (domain.Thread_ID thread) None false s1)
      as [[msgs|e] s2] eqn:E2; cbn [fst snd] in *.
    2:{ apply StoppedReading with (reads := [getThread; getLast]);
          [reflexivity | cbn; rewrite <- app_assoc; reflexivity
          | exact Hrun2 | reflexivity]. }
    assert (Hparent : parentResolved opts (message.repoState w)
                        (option_map domain.ID (lastOf msgs))).
    { unfold parentResolved. rewrite EP. exists thread, s1, msgs, s2. auto. }
    pose proof (@SendMessage_tail client opts w thread
                  (option_map domain.ID (lastOf msgs)) [getThread; getLast] s2
                  eq_refl Hrun2 Hparent) as Htail.
    cbn [app] in Htail.
    replace ((message.calls w ++ [getThread]) ++ [getLast])
      with (message.calls w ++ [getThread; getLast])
      by (rewrite <- app_assoc; reflexivity).
    destruct (lastOf msgs) as [lastMsg|]; exact Htail.
Qed.

(** In the new part of the log, an append is found only behind the provider
    call. *)
Lemma append_behind_provider (reads hs adds pre post : list message.Call)
      (llmCall y : message.Call) :
  forallb isRead reads = true ->
  forallb isHandlerCall hs = true ->
  reads ++ llmCall :: hs ++ adds = pre ++ y :: post ->
  isAdd llmCall = false ->
  isAdd y = true ->
  In llmCall pre /\ In y adds.
Proof.
  intros Hreads Hhs Heq Hllm Hy.
  assert (Hnr : ~ In y (reads ++ llmCall :: hs)).
  { intros Hin. apply in_app_or in Hin. destruct Hin as [Hin|[Hin|Hin]].
    - revert Hin. apply forallb_not_in with (P := isRead); [exact Hreads|].
      destruct y; try discriminate; reflexivity.
    - subst y. rewrite Hllm in Hy. discriminate.
    - revert Hin. apply forallb_not_in with (P := isHandlerCall); [exact Hhs|].
      destruct y; try discriminate; reflexivity. }
  replace (reads ++ llmCall :: hs ++ adds) with ((reads ++ llmCall :: hs) ++ adds) in Heq
    by (rewrite <- app_assoc; reflexivity).
  destruct (@app_cons_after _ _ _ _ _ _ Heq Hnr) as [pre' [Hpre Hadds]].
  split.
  - rewrite Hpre. apply in_or_app. left. apply in_or_app. right. left. reflexivity.
  - rewrite Hadds. apply in_or_app. right. left. reflexivity.
Qed.

Lemma no_append_in (reads hs pre post : list message.Call) (llmCall y : message.Call) :
  forallb isRead reads = true ->
  forallb isHandlerCall hs = true ->
  isAdd llmCall = false ->
  isAdd y = true ->
  (reads = pre ++ y :: post \/ reads ++ llmCall :: hs = pre ++ y :: post) ->
  False.
Proof.
  intros Hreads Hhs Hllm Hy [Heq|Heq].
  - apply (@forallb_not_in _ isRead reads y Hreads).
    + destruct y; try discriminate; reflexivity.
    + rewrite Heq. apply in_or_app. right. left. reflexivity.
  - assert (Hin : In y (reads ++ llmCall :: hs)).
    { rewrite Heq. apply in_or_app. right. left. reflexivity. }
    apply in_app_or in Hin. destruct Hin as [Hin|[Hin|Hin]].
    + revert Hin. apply forallb_not_in with (P := isRead); [exact Hreads|].
      destruct y; try discriminate; reflexivity.
    + subst y. rewrite Hllm in Hy. discriminate.
    + revert Hin. apply forallb_not_in with (P := isHandlerCall); [exact Hhs|].
      destruct y; try discriminate; reflexivity.
Qed.

(** C1, amended: in every turn the provider call is dispatched before any
    message of the turn is appended.  An [AddMessageToThread] call is made
    only behind the call of [llm.SendMessage]; and a turn that returns a
    message has made, after the provider call and in this order, the append
    of the human message and the append of the assistant message, and no
    other append. *)
Theorem SendMessage_appends_after_provider (client : llm.Client Tool)
        (opts : message.SendMessageOptions Tool) (w : World) :
  let r := fst (message.SendMessage client opts w) in
  let w' := snd (message.SendMessage client opts w) in
  (forall pre threadID m post,
      message.calls w' = message.calls w ++ pre
        ++ message.CallAddMessageToThread threadID m :: post ->
      exists history,
        In (message.CallLLMSendMessage (message.Content opts) history
              (message.StreamHandler_ opts)) pre) /\
  (forall aiMsg, r = Ok aiMsg ->
      exists reads history hs userMsg aiMsg0,
        message.calls w' = message.calls w ++ reads
          ++ message.CallLLMSendMessage (message.Content opts) history
               (message.StreamHandler_ opts) :: hs
          ++ [message.CallAddMessageToThread (message.ThreadID opts) userMsg;
              message.CallAddMessageToThread (message.ThreadID opts) aiMsg0] /\
        forallb isRead reads = true /\
        forallb isHandlerCall hs = true /\
        domain.Role userMsg = domain.RoleHuman /\
        domain.Content userMsg = message.Content opts /\
        domain.Role aiMsg0 = domain.RoleAssistant).
Proof.
  intros r w'. subst r w'.
  destruct (SendMessage_outcome client opts w)
    as [reads Hreads Hcalls Hrun Hr
       |reads hs history Hreads Hhs Hcalls Hrun Hr
       |reads hs history sR parentID e copts cr Hreads Hhs userMsg Hcalls
          Hrun Hparent Hgen Hadd Hr
       |reads hs history sR s1 parentID userMsg1 copts cr aiResponse tcs
          Hreads Hhs userMsg aiMsg Hcalls Hrun Hparent Hgen Htc Hm Hadd1 Hadd2].
  - split.
    + intros pre threadID m post Heq. rewrite Hcalls in Heq.
      apply app_inv_head in Heq. exfalso.
      eapply no_append_in with (llmCall := message.CallGetThreadByID 0%N) (hs := []);
        [exact Hreads | reflexivity | reflexivity | | left; exact Heq]. reflexivity.
    + intros aiMsg Hok. rewrite Hok in Hr. discriminate.
  - split.
    + intros pre threadID m post Heq. rewrite Hcalls in Heq.
      apply app_inv_head in Heq. exfalso.
      eapply no_append_in; [exact Hreads | exact Hhs | | | right; exact Heq];
        reflexivity.
    + intros aiMsg Hok. rewrite Hok in Hr. discriminate.
  - split.
    + intros pre threadID m post Heq. rewrite Hcalls in Heq.
      apply app_inv_head in Heq. exists history.
      exact (proj1 (@append_behind_provider reads hs _ pre post _ _ Hreads Hhs
                      Heq eq_refl eq_refl)).
    + intros aiMsg Hok. rewrite Hok in Hr. discriminate.
  - split.
    + intros pre threadID m post Heq. rewrite Hcalls in Heq.
      apply app_inv_head in Heq. exists history.
      exact (proj1 (@append_behind_provider reads hs _ pre post _ _ Hreads Hhs
                      Heq eq_refl eq_refl)).
    + intros aiMsg0 Hok. exists reads, history, hs, userMsg, aiMsg.
      repeat split; assumption || reflexivity.
Qed.

(** C8: a message with the role human that [SendMessage] hands to
    [AddMessageToThread] carries no tool calls; an appended message that
    carries some is the assistant message of the turn, and what it carries
    is the serialisation of the tool calls the provider returned. *)
Theorem SendMessage_tool_calls (client : llm.Client Tool)
        (opts : message.SendMessageOptions Tool) (w : World)
        (new : list message.Call) (threadID : domain.UUID) (m : domain.Message) :
  message.calls (snd (message.SendMessage client opts w)) = message.calls w ++ new ->
  In (message.CallAddMessageToThread threadID m) new ->
  (domain.Role m = domain.RoleHuman -> domain.ToolCalls m = []) /\
  (domain.Role m = domain.RoleAssistant ->
   exists history copts cr,
     llm.genResult (@llm.GenerateContent _ (llm.llm client)
                      (providerMessages opts history) copts) = Ok cr /\
     message.json_Marshal (llm.collectToolCalls (llm.Choices cr))
     = Ok (domain.ToolCalls m)).
Proof.
  intros Hnew Hin.
  destruct (SendMessage_outcome client opts w)
    as [reads Hreads Hcalls Hrun Hr
       |reads hs history Hreads Hhs Hcalls Hrun Hr
       |reads hs history sR parentID e copts cr Hreads Hhs userMsg Hcalls
          Hrun Hparent Hgen Hadd Hr
       |reads hs history sR s1 parentID userMsg1 copts cr aiResponse tcs
          Hreads Hhs userMsg aiMsg Hcalls Hrun Hparent Hgen Htc Hm Hadd1 Hadd2];
    rewrite Hcalls in Hnew; apply app_inv_head in Hnew; subst new;
    apply in_split in Hin; destruct Hin as [pre [post Heq]].
  - exfalso.
    eapply no_append_in with (llmCall := message.CallGetThreadByID 0%N) (hs := []);
      [exact Hreads | reflexivity | reflexivity | | left; exact Heq]. reflexivity.
  - exfalso.
    eapply no_append_in; [exact Hreads | exact Hhs | | | right; exact Heq];
      reflexivity.
  - destruct (@append_behind_provider reads hs _ pre post _ _ Hreads Hhs
                Heq eq_refl eq_refl) as [_ [Hm|[]]].
    inversion Hm; subst m. split; [reflexivity | discriminate].
  - destruct (@append_behind_provider reads hs _ pre post _ _ Hreads Hhs
                Heq eq_refl eq_refl) as [_ [Hm'|[Hm'|[]]]];
      inversion Hm'; subst m.
    + split; [reflexivity | discriminate].
    + split; [discriminate|]. intros _. exists history, copts, cr.
      split; [exact Hgen|]. rewrite <- Htc. exact Hm.
Qed.

Section PureReads.
(** The reads of the repository leave the store as it is. *)
Hypothesis GetThreadByID_pure :
  forall id (s : S), snd (repository.GetThreadByID id s) = s.
Hypothesis GetMessages_pure :
  forall id ref fut (s : S), snd (repository.GetMessages id ref fut s) = s.

Lemma readsRun_pure (s s' : S) (cs : list message.Call) :
  readsRun s cs s' -> s' = s.
Proof.
  induction 1 as [s|s s' id cs Hrun IH|s s' id ref fut cs Hrun IH].
  - reflexivity.
  - rewrite IH. apply GetThreadByID_pure.
  - rewrite IH. apply GetMessages_pure.
Qed.

(** C2, amended: when the provider call of the turn fails (a cancelled call
    returns an error), [SendMessage] returns an error and has appended
    nothing: no assistant message, and no human message either; the store
    is as it was before the call. *)
Theorem SendMessage_provider_failure (client : llm.Client Tool)
        (opts : message.SendMessageOptions Tool) (w : World) :
  (forall history copts,
      isOk (llm.genResult (@llm.GenerateContent _ (llm.llm client)
                             (providerMessages opts history) copts)) = false) ->
  let r := fst (message.SendMessage client opts w) in
  let w' := snd (message.SendMessage client opts w) in
  isOk r = false /\
  message.repoState w' = message.repoState w /\
  exists new,
    message.calls w' = message.calls w ++ new /\
    forallb (fun c => negb (isAdd c)) new = true.
Proof.
  intros Hfail r w'. subst r w'.
  assert (Hnoadd : forall reads hs c,
             forallb isRead reads = true -> forallb isHandlerCall hs = true ->
             isAdd c = false ->
             forallb (fun c => negb (isAdd c)) (reads ++ c :: hs) = true).
  { intros reads hs c Hreads Hhs Hc.
    rewrite forallb_app. cbn [forallb]. rewrite Hc. cbn [negb andb].
    apply andb_true_intro. split; apply forallb_forall; intros x Hx.
    - rewrite forallb_forall in Hreads. specialize (Hreads x Hx).
      destruct x; try discriminate; reflexivity.
    - rewrite forallb_forall in Hhs. specialize (Hhs x Hx).
      destruct x; try discriminate; reflexivity. }
  destruct (SendMessage_outcome client opts w)
    as [reads Hreads Hcalls Hrun Hr
       |reads hs history Hreads Hhs Hcalls Hrun Hr
       |reads hs history sR parentID e copts cr Hreads Hhs userMsg Hcalls
          Hrun Hparent Hgen Hadd Hr
       |reads hs history sR s1 parentID userMsg1 copts cr aiResponse tcs
          Hreads Hhs userMsg aiMsg Hcalls Hrun Hparent Hgen Htc Hm Hadd1 Hadd2].
  - split; [exact Hr|]. split; [exact (readsRun_pure Hrun)|].
    exists reads. split; [exact Hcalls|].
    apply forallb_forall; intros x Hx.
    rewrite forallb_forall in Hreads. specialize (Hreads x Hx).
    destruct x; try discriminate; reflexivity.
  - split; [exact Hr|]. split; [exact (readsRun_pure Hrun)|].
    eexists. split; [exact Hcalls|]. apply Hnoadd; [assumption..|reflexivity].
  - specialize (Hfail history copts). rewrite Hgen in Hfail. discriminate.
  - specialize (Hfail history copts). rewrite Hgen in Hfail. discriminate.
Qed.

End PureReads.

End TurnOutcome.

(* ================================================================== *)
(** * The start events of a streamed response *)
(* ================================================================== *)

Section StartEvents.
Import Go Eff.
Context {S : Type} {messageRepo : repository.MessageRepository S}.
Context {H : Type} {streamHandler : message.StreamHandler H}.
Context {codec : message.JSON}.

Abbreviation World := (@message.World S H).

(** C4, amended: along a stream of tool-call fragments none of whose handler
    calls fails, a start event fires for a fragment exactly when the
    fragment carries an id that differs from the id of the call in progress
    (no call being in progress is the empty id), and for no other fragment:
    one start event per run of fragments with one id.  So each id has
    exactly one start event when the fragments of each call are contiguous
    and no id is empty. *)
Theorem start_event_per_id_run (chunks : list (list byte))
        (elems : list message.fcallElem) (w : World) :
  Forall2 (fun c e => exists rest, message.json_Unmarshal c = Ok (e :: rest))
          chunks elems ->
  fst (llm.deliver message.streamCallback chunks ([], w)) = None ->
  exists new,
    message.calls (snd (snd (llm.deliver message.streamCallback chunks ([], w))))
    = message.calls w ++ new /\
    startEvents new = idChanges [] elems /\
    (contiguousIds (presentIds elems) ->
     ~ In [] (presentIds elems) ->
     startOncePerId elems new).
Proof.
  intros Hall Hnone.
  destruct (@deliver_starts _ _ _ _ chunks elems [] w Hall)
    as [n [new [Hcalls [Hstarts Hn]]]].
  rewrite (Hn Hnone), firstn_all in Hstarts.
  exists new. split; [exact Hcalls|]. split; [exact Hstarts|].
  intros [runs [Hnodup Hids]] Hempty id Hin.
  rewrite Hstarts, idChanges_runHeads, Hids.
  rewrite Hids in Hin, Hempty.
  rewrite in_flat_map_runs in Hin, Hempty.
  rewrite (@runHeads_runs runs [] Hnodup Hempty).
  apply NoDup_count_occ'; assumption.
Qed.

End StartEvents.

(* ================================================================== *)
(** * The preview of a thread *)
(* ================================================================== *)

Section ThreadDetails.
Import Go Eff.
Context {S : Type} {messageRepo : repository.MessageRepository S}.
Context {H : Type}.

Abbreviation World := (@message.World S H).

Lemma firstHumanContent_find (messages : list domain.Message) :
  message.firstHumanContent messages =
  match find (fun m => domain.Role_eqb (domain.Role m) domain.RoleHuman) messages with
  | Some m => domain.Content m
  | None => []
  end.
Proof.
  induction messages as [|m ms IH]; [reflexivity|].
  cbn [message.firstHumanContent find].
  destruct (domain.Role m); cbn [domain.Role_eqb]; [reflexivity | exact IH].
Qed.

Lemma truncatePreview_len (p : list byte) : len (message.truncatePreview p) <= 50.
Proof.
  unfold message.truncatePreview, len.
  destruct (50 <? Z.of_nat (List.length p)) eqn:E.
  - apply Z.ltb_lt in E.
    rewrite length_app, firstn_length_le by lia.
    cbn. lia.
  - apply Z.ltb_ge in E. exact E.
Qed.

(** C10: when the repository returns the messages of the thread,
    [GetThreadDetails] returns details whose preview is cut from the
    summary when there is one and from the content of the first human
    message otherwise (from the empty string when there is none): the
    string itself when it has at most 50 bytes, its first 47 bytes followed
    by three dots when it is longer; so the preview never has more than 50
    bytes. *)
Theorem GetThreadDetails_preview (thread : domain.Thread) (w : World)
        (messages : list domain.Message) (s1 : S) :
  repository.GetMessages (domain.Thread_ID thread) None false (message.repoState w)
  = (Ok messages, s1) ->
  exists d,
    fst (message.GetThreadDetails thread w) = Ok d /\
    (len (previewSource thread messages) <= 50 ->
     message.Preview d = previewSource thread messages) /\
    (50 < len (previewSource thread messages) ->
     message.Preview d = firstn 47 (previewSource thread messages) ++ bs "...") /\
    len (message.Preview d) <= 50.
Proof.
  intros Hget.
  unfold message.GetThreadDetails, bind, message.onRepo, ret.
  rewrite Hget. cbn [fst snd].
  eexists. split; [reflexivity|]. cbn [message.Preview].
  assert (Hsrc : (if negb (streq (domain.Thread_Summary thread) [])
                  then domain.Thread_Summary thread
                  else message.firstHumanContent messages)
                 = previewSource thread messages).
  { unfold previewSource. rewrite firstHumanContent_find.
    destruct (domain.Thread_Summary thread); reflexivity. }
  rewrite Hsrc. split; [|split].
  - intros Hle. unfold message.truncatePreview.
    destruct (50 <? len (previewSource thread messages)) eqn:E; [|reflexivity].
    apply Z.ltb_lt in E. lia.
  - intros Hgt. unfold message.truncatePreview.
    apply Z.ltb_lt in Hgt. rewrite Hgt. reflexivity.
  - apply truncatePreview_len.
Qed.

End ThreadDetails.

(* ================================================================== *)
(** * The parent of the human message, on the store *)
(* ================================================================== *)

Section StoreFacts.
Import Go Eff.
Variable Tool : Type.
Context {H : Type} {streamHandler : message.StreamHandler H}.
Context {codec : message.JSON}.
#[local] Existing Instance store.Store_MessageRepository.

Abbreviation World := (@message.World store.Store H).

Lemma store_GetThreadByID_pure (id : domain.UUID) (s : store.Store) :
  snd (repository.GetThreadByID id s) = s.
Proof.
  cbn. unfold store.GetThreadByID. destruct (store.findThread id s); reflexivity.
Qed.

Lemma store_GetMessages_pure (id : domain.UUID) (ref : option domain.UUID)
      (fut : bool) (s : store.Store) :
  snd (repository.GetMessages id ref fut s) = s.
Proof.
  cbn. unfold store.GetMessages.
  destruct ref as [r|].
  - destruct (store.findMessage r (store.threadMessages id s)); reflexivity.
  - destruct (lastOf (store.threadMessages id s)); reflexivity.
Qed.

Lemma lastOf_app_one {A} (l : list A) (x : A) : lastOf (l ++ [x]) = Some x.
Proof.
  induction l as [|a l IH]; [reflexivity|].
  cbn [app lastOf]. destruct (l ++ [x]) eqn:E; [|exact IH].
  destruct l; discriminate.
Qed.

Lemma lastOf_In {A} (l : list A) (x : A) : lastOf l = Some x -> In x l.
Proof.
  induction l as [|a l IH]; [discriminate|].
  cbn [lastOf]. destruct l as [|b l].
  - intros Heq. inversion Heq. left. reflexivity.
  - intros Heq. right. apply IH. exact Heq.
Qed.

(** The context path of a message of the store ends with a message that
    has its identity. *)
Lemma contextPath_last (msgs : list domain.Message) (m : domain.Message) :
  In m msgs ->
  exists m', lastOf (store.contextPath msgs m) = Some m' /\ domain.ID m' = domain.ID m.
Proof.
  intros Hin. unfold store.contextPath.
  destruct msgs as [|m0 ms] eqn:Emsgs; [contradiction|].
  rewrite <- Emsgs in *. cbn [List.length]. 
  replace (List.length msgs) with (Datatypes.S (List.length ms))
    by (rewrite Emsgs; reflexivity).
  cbn [store.ancestors].
  destruct (store.findMessage (domain.ID m) msgs) as [m'|] eqn:Ef.
  - exists m'. split; [apply lastOf_app_one|].
    unfold store.findMessage in Ef. apply find_some in Ef.
    destruct Ef as [_ Heq]. apply N.eqb_eq in Heq. exact Heq.
  - unfold store.findMessage in Ef.
    pose proof (find_none _ _ Ef m Hin) as Hn. cbn in Hn.
    rewrite N.eqb_refl in Hn. discriminate.
Qed.

(** C6: the human message that [SendMessage] hands to the store has, as its
    parent, the parent given in the options when there is one; when there
    is none and the thread has messages, the most recently created message
    of the thread. *)
Theorem SendMessage_parent (client : llm.Client Tool)
        (opts : message.SendMessageOptions Tool) (w : World)
        (new : list message.Call) (threadID : domain.UUID) (m : domain.Message) :
  message.calls (snd (message.SendMessage client opts w)) = message.calls w ++ new ->
  In (message.CallAddMessageToThread threadID m) new ->
  domain.Role m = domain.RoleHuman ->
  (forall p, message.ParentID opts = Some p -> domain.ParentID m = Some p) /\
  (message.ParentID opts = None ->
   forall latest,
     store.latestMessage (message.ThreadID opts) (message.repoState w) = Some latest ->
     domain.ParentID m = Some (domain.ID latest)).
Proof.
  intros Hnew Hin Hrole.
  assert (Hres : forall parentID,
             parentResolved opts (message.repoState w) parentID ->
             (forall p, message.ParentID opts = Some p -> parentID = Some p) /\
             (message.ParentID opts = None ->
              forall latest,
                store.latestMessage (message.ThreadID opts) (message.repoState w)
                = Some latest ->
                parentID = Some (domain.ID latest))).
  { intros parentID Hp. unfold parentResolved in Hp.
    destruct (message.ParentID opts) as [p|].
    - split; [intros p' Hp'; inversion Hp'; subst; reflexivity | discriminate].
    - split; [discriminate|]. intros _ latest Hlatest.
      destruct Hp as [thread [s1 [msgs [s2 [Hthread [Hmsgs Hpid]]]]]].
      cbn in Hthread, Hmsgs. unfold store.GetThreadByID in Hthread.
      destruct (store.findThread (message.ThreadID opts) (message.repoState w))
        as [t|] eqn:Ef; [|discriminate].
      inversion Hthread; subst t s1.
      unfold store.findThread in Ef. apply find_some in Ef.
      destruct Ef as [_ Hid]. apply N.eqb_eq in Hid.
      unfold store.GetMessages in Hmsgs. rewrite Hid in Hmsgs.
      unfold store.latestMessage in Hlatest. rewrite Hlatest in Hmsgs.
      inversion Hmsgs; subst msgs. rewrite app_nil_r in Hpid.
      destruct (@contextPath_last
                  (store.threadMessages (message.ThreadID opts) (message.repoState w))
                  latest (lastOf_In _ Hlatest)) as [m' [Hlast Hm']].
      rewrite Hlast in Hpid. cbn in Hpid. rewrite Hpid, Hm'. reflexivity. }
  destruct (SendMessage_outcome client opts w)
    as [reads Hreads Hcalls Hrun Hr
       |reads hs history Hreads Hhs Hcalls Hrun Hr
       |reads hs history sR parentID e copts cr Hreads Hhs userMsg Hcalls
          Hrun Hparent Hgen Hadd Hr
       |reads hs history sR s1 parentID userMsg1 copts cr aiResponse tcs
          Hreads Hhs userMsg aiMsg Hcalls Hrun Hparent Hgen Htc Hm Hadd1 Hadd2];
    rewrite Hcalls in Hnew; apply app_inv_head in Hnew; subst new;
    apply in_split in Hin; destruct Hin as [pre [post Heq]].
  - exfalso.
    eapply no_append_in with (llmCall := message.CallGetThreadByID 0%N) (hs := []);
      [exact Hreads | reflexivity | reflexivity | | left; exact Heq]. reflexivity.
  - exfalso.
    eapply no_append_in; [exact Hreads | exact Hhs | | | right; exact Heq];
      reflexivity.
  - destruct (@append_behind_provider reads hs _ pre post _ _ Hreads Hhs
                Heq eq_refl eq_refl) as [_ [Hm|[]]].
    inversion Hm; subst m. exact (Hres parentID Hparent).
  - destruct (@append_behind_provider reads hs _ pre post _ _ Hreads Hhs
                Heq eq_refl eq_refl) as [_ [Hm'|[Hm'|[]]]];
      inversion Hm'; subst m.
    + exact (Hres parentID Hparent).
    + discriminate.
Qed.

End StoreFacts.


(* ================================================================== *)
(** * The properties on the concrete turns *)
(* ================================================================== *)

Section Instances.
Import Go Eff scenario.

#[local] Existing Instance store.Store_MessageRepository.
#[local] Existing Instance CLI.CLIStreamHandler_StreamHandler.
#[local] Existing Instance codec.encodingJSON.

(** The essay fragment is a tool-call fragment: it decodes into one element
    with the id 1, the name essay and the arguments as a string. *)
Example essayFragment_decodes :
  message.json_Unmarshal CLI.essayFragment =
  Ok [message.mkFcallElem
        (message.mkFunctionCallChunk
           (bs "essay") (CLI.unq (bs "{'name':'x','content':'a,b'}")))
        (Some (bs "1"))].
Proof. vm_compute. reflexivity. Qed.

(** Chunks that are text for the callback: prose, a truncated fragment, an
    empty array, [null], an array of the wrong element type.  Each goes to
    [HandleTextChunk] as it came and is printed as it is. *)
Example text_chunks_go_to_text_handler :
  forall chunk,
    In chunk [bs "Hello, "; CLI.unq (bs "[{'id':'1','function':{'na");
              bs "[]"; bs "null"; bs "[1]"] ->
    let '(err, (cur, w)) := message.streamCallback chunk ([], freshWorld emptyThread) in
    err = None /\ cur = [] /\
    message.calls w = [message.CallHandleTextChunk chunk] /\
    CLI.stdout (message.handlerState w) = chunk.
Proof.
  intros chunk Hin. cbn [In] in Hin.
  repeat (destruct Hin as [<-|Hin]; [vm_compute; auto|]).
  contradiction.
Qed.

(** The essay fragment through the callback: the start of the call is
    announced, then its arguments are printed re-formatted. *)
Example essay_fragment_is_a_tool_call :
  let '(err, (cur, w)) :=
    message.streamCallback CLI.essayFragment ([], freshWorld emptyThread) in
  err = None /\ cur = bs "1" /\
  startEvents (message.calls w) = [(bs "1", bs "essay")] /\
  CLI.stdout (message.handlerState w)
  = [x0a; x0a] ++ bs "[Requesting tool use: essay]"
    ++ [x0a] ++ bs "  name: x" ++ [x0a] ++ bs "  content: a,b".
Proof. vm_compute. auto. Qed.

(** C1, as written, fails on the successful turn: the provider call is
    dispatched after three reads, when nothing has been appended. *)
Lemma provider_called_before_append :
  ~ humanAppendedBeforeProvider (message.calls (snd turnOk)).
Proof.
  intros Hstated.
  destruct (Hstated [message.CallGetThreadByID 7%N;
                    message.CallGetMessages 7%N None false;
                    message.CallGetMessages 7%N None false]
                   (bs "hi") [] true
                   (skipn 4 (message.calls (snd turnOk))) eq_refl)
    as [threadID [m [Hin _]]].
  cbn in Hin. destruct Hin as [Hin|[Hin|[Hin|[]]]]; discriminate.
Qed.

Lemma SendMessage_appends_after_provider_witness :
  exists aiMsg reads history hs userMsg aiMsg0,
    fst turnOk = Ok aiMsg /\
    message.calls (snd turnOk) =
      message.calls (freshWorld emptyThread) ++ reads
        ++ message.CallLLMSendMessage (bs "hi") history true :: hs
        ++ [message.CallAddMessageToThread 7%N userMsg;
            message.CallAddMessageToThread 7%N aiMsg0] /\
    domain.Role userMsg = domain.RoleHuman /\
    domain.Role aiMsg0 = domain.RoleAssistant.
Proof.
  destruct (@SendMessage_appends_after_provider unit _ _ _ _ _
              (client [bs "y"; bs "o"] (answer (bs "yo") []))
              (say (bs "hi")) (freshWorld emptyThread)) as [_ Hok].
  destruct (Hok _ eq_refl)
    as [reads [history [hs [userMsg [aiMsg0 [Hcalls [_ [_ [Hu [_ Ha]]]]]]]]]].
  eexists. exists reads, history, hs, userMsg, aiMsg0.
  split; [reflexivity|]. split; [exact Hcalls|]. split; assumption.
Defined.

(** C2, as written, fails on the cancelled turn: the store holds no message
    at all afterwards. *)
Lemma cancelled_turn_stores_nothing :
  isOk (fst turnCancelled) = false /\
  ~ humanMessageRemains (say (bs "hi")) (message.repoState (snd turnCancelled)).
Proof.
  split; [reflexivity|].
  intros [m [path [Hin _]]]. exact Hin.
Qed.

Lemma SendMessage_provider_failure_witness :
  isOk (fst turnCancelled) = false /\
  message.repoState (snd turnCancelled) = emptyThread.
Proof.
  destruct (@SendMessage_provider_failure unit _ _ _ _ _
              store_GetThreadByID_pure store_GetMessages_pure
              (client [bs "y"] (Err (NewError "context canceled")))
              (say (bs "hi")) (freshWorld emptyThread)
              (fun _ _ => eq_refl)) as [Herr [Hstore _]].
  split; [exact Herr | exact Hstore].
Defined.

(** C4, as written, fails on the interleaved stream: the id 1 has two start
    events. *)
Lemma interleaved_ids_start_twice :
  Forall2 (fun c e => exists rest, message.json_Unmarshal c = Ok (e :: rest))
          interleaved interleavedElems /\
  fst (stream interleaved) = None /\
  ~ startOncePerId interleavedElems (message.calls (snd (snd (stream interleaved)))).
Proof.
  split; [|split].
  - repeat constructor; exists []; vm_compute; reflexivity.
  - vm_compute. reflexivity.
  - intros Hstated. specialize (Hstated (bs "1")).
    assert (Hin : In (bs "1") (presentIds interleavedElems)) by (left; reflexivity).
    specialize (Hstated Hin). vm_compute in Hstated. discriminate.
Qed.

Lemma start_event_per_id_run_witness :
  startEvents (message.calls (snd (snd (stream contiguous))))
  = [(bs "1", bs "f"); (bs "2", bs "g")] /\
  startOncePerId contiguousElems (message.calls (snd (snd (stream contiguous)))).
Proof.
  assert (Hall : Forall2 (fun c e => exists rest,
                              message.json_Unmarshal c = Ok (e :: rest))
                         contiguous contiguousElems).
  { repeat constructor; exists []; vm_compute; reflexivity. }
  assert (Hnone : fst (stream contiguous) = None) by (vm_compute; reflexivity).
  destruct (@start_event_per_id_run _ _ _ _ contiguous contiguousElems
              (freshWorld emptyThread) Hall Hnone)
    as [new [Hcalls [Hstarts Honce]]].
  change (message.calls (freshWorld emptyThread) ++ new) with new in Hcalls.
  unfold stream. rewrite Hcalls. split; [exact Hstarts|].
  apply Honce.
  - exists [(bs "1", 1%nat); (bs "2", 0%nat)]. split; [|reflexivity].
    repeat constructor; cbn; intuition discriminate.
  - cbn. intuition discriminate.
Defined.

Lemma SendMessage_tool_calls_witness :
  let userMsg := message.newMessage 7%N None domain.RoleHuman (bs "write") [] [] [] in
  In (message.CallAddMessageToThread 7%N userMsg) (message.calls (snd turnTool)) /\
  domain.ToolCalls userMsg = [] /\
  exists aiMsg,
    fst turnTool = Ok aiMsg /\
    domain.ToolCalls aiMsg = CLI.unq (bs "[{'id':'1','name':'essay','arguments':{'name':'x'}}]").
Proof.
  intros userMsg.
  assert (Hin : In (message.CallAddMessageToThread 7%N userMsg)
                   (message.calls (snd turnTool))).
  { vm_compute. right. right. right. right. right. right. left. reflexivity. }
  split; [exact Hin|]. split.
  - exact (proj1 (@SendMessage_tool_calls unit _ _ _ _ _
                    (client [CLI.essayFragment] (answer [] [essayCall]))
                    (say (bs "write")) (freshWorld emptyThread)
                    (message.calls (snd turnTool)) 7%N userMsg eq_refl Hin) eq_refl).
  - eexists. split; vm_compute; reflexivity.
Defined.

Lemma SendMessage_parent_witness :
  exists latest userMsg,
    store.latestMessage 7%N (message.repoState (snd turnOk)) = Some latest /\
    In (message.CallAddMessageToThread 7%N userMsg) (message.calls (snd turnNext)) /\
    domain.Role userMsg = domain.RoleHuman /\
    domain.ParentID userMsg = Some (domain.ID latest).
Proof.
  eexists. eexists. split; [vm_compute; reflexivity|].
  assert (Hin : In (message.CallAddMessageToThread 7%N
                      (message.newMessage 7%N (Some 2%N) domain.RoleHuman
                         (bs "and you?") [] [] []))
                   (message.calls (snd turnNext))).
  { vm_compute. right. right. right. right. left. reflexivity. }
  split; [exact Hin|]. split; [reflexivity|].
  exact (proj2 (@SendMessage_parent unit _ _ _
                  (client [] (answer (bs "fine") []))
                  (say (bs "and you?"))
                  (freshWorld (message.repoState (snd turnOk)))
                  (message.calls (snd turnNext)) 7%N _ eq_refl Hin eq_refl)
               eq_refl _ eq_refl).
Defined.

Lemma GetThreadDetails_preview_witness :
  exists d,
    fst (message.GetThreadDetails longSummary (freshWorld emptyThread)) = Ok d /\
    message.Preview d = bs "A conversation about the weather in San Francis..." /\
    len (message.Preview d) = 50.
Proof.
  destruct (@GetThreadDetails_preview store.Store store.Store_MessageRepository
              CLI.Console longSummary
              (freshWorld emptyThread) [] emptyThread eq_refl)
    as [d [Hd [_ [Hlong _]]]].
  exists d. split; [exact Hd|].
  rewrite (Hlong eq_refl). split; reflexivity.
Defined.

End Instances.

(* ================================================================== *)
(** * Further properties of the re-formatter *)
(* ================================================================== *)

Section FormatterMore.
Import Go CLI.

Lemma leadInfo_range (b0 : byte) (sz : nat) (lo hi : Z) :
  leadInfo b0 = Some (sz, lo, hi) -> 128 <= lo /\ hi <= 191.
Proof.
  unfold leadInfo.
  repeat match goal with
         | |- context [if ?c then _ else _] => destruct c
         end; intros Hl; inversion Hl; subst; lia.
Qed.

Lemma inRange_noncont_false (lo hi : Z) (b : byte) :
  128 <= lo -> hi <= 191 -> isCont b = false -> inRange lo hi b = false.
Proof.
  unfold isCont, inRange. intros Hlo Hhi Hb.
  destruct (lo <=? byteVal b) eqn:E1; [|reflexivity].
  destruct (byteVal b <=? hi) eqn:E2; [|reflexivity].
  apply Z.leb_le in E1, E2.
  assert (H1 : (128 <=? byteVal b) = true) by (apply Z.leb_le; lia).
  assert (H2 : (byteVal b <=? 191) = true) by (apply Z.leb_le; lia).
  rewrite H1, H2 in Hb. discriminate.
Qed.

(** A rune never extends over a byte that is not a continuation byte. *)
Lemma decodeRune_app_noncont (b0 : byte) (r0 : list byte) (b : byte) (r : list byte) :
  isCont b = false ->
  decodeRune b0 (r0 ++ b :: r) = decodeRune b0 r0.
Proof.
  intros Hb. unfold decodeRune.
  destruct (byteVal b0 <? 128); [reflexivity|].
  destruct (leadInfo b0) as [[[sz lo] hi]|] eqn:Hl; [|reflexivity].
  destruct (leadInfo_range _ Hl) as [Hlo Hhi].
  destruct r0 as [|s1 r1]; simpl.
  { rewrite inRange_noncont_false by assumption. reflexivity. }
  destruct (negb (inRange lo hi s1)); [reflexivity|].
  destruct (sz <=? 2)%nat; [reflexivity|].
  destruct r1 as [|s2 r2]; simpl.
  { rewrite Hb. reflexivity. }
  destruct (negb (isCont s2)); [reflexivity|].
  destruct (sz <=? 3)%nat; [reflexivity|].
  destruct r2 as [|s3 r3]; simpl.
  { rewrite Hb. reflexivity. }
  reflexivity.
Qed.

Lemma rangeString_app_noncont_aux (n : nat) :
  forall (a : list byte) (b : byte) (r : list byte),
    (List.length a <= n)%nat ->
    isCont b = false ->
    rangeString (a ++ b :: r) = rangeString a ++ rangeString (b :: r).
Proof.
  induction n as [|n IH]; intros a b r Hn Hb.
  { destruct a; [reflexivity | simpl in Hn; lia]. }
  destruct a as [|b0 r0]; [reflexivity|].
  simpl in Hn.
  change ((b0 :: r0) ++ b :: r) with (b0 :: (r0 ++ b :: r)).
  cbn [rangeString].
  rewrite decodeRune_app_noncont by exact Hb.
  pose proof (decodeRune_width b0 r0) as Hw.
  destruct (decodeRune b0 r0) as [c w]. simpl in Hw.
  rewrite <- app_comm_cons. f_equal.
  destruct w as [|[|[|[|[|w]]]]]; try lia.
  - apply IH; [lia | exact Hb].
  - destruct r0 as [|s1 r1]; [simpl in Hw; lia|].
    simpl. apply IH; [simpl in Hn; lia | exact Hb].
  - destruct r0 as [|s1 [|s2 r2]]; try (simpl in Hw; lia).
    simpl. apply IH; [simpl in Hn; lia | exact Hb].
  - destruct r0 as [|s1 [|s2 [|s3 r3]]]; try (simpl in Hw; lia).
    simpl. apply IH; [simpl in Hn; lia | exact Hb].
Qed.

(** The runes of a string cut in front of a rune are the runes of its two
    parts. *)
Lemma rangeString_app_startsRune (a b : list byte) :
  startsRune b = true ->
  rangeString (a ++ b) = rangeString a ++ rangeString b.
Proof.
  intros Hb. destruct b as [|b0 r].
  - rewrite !app_nil_r. reflexivity.
  - apply (@rangeString_app_noncont_aux (List.length a)); [lia|].
    cbn in Hb. destruct (isCont b0); [discriminate | reflexivity].
Qed.

Lemma startsRune_concat (chunks : list (list byte)) :
  Forall (fun c => startsRune c = true) chunks ->
  startsRune (List.concat chunks) = true.
Proof.
  induction 1 as [|c cs Hc Hcs IH]; [reflexivity|].
  cbn [List.concat]. destruct c as [|b c']; [exact IH | exact Hc].
Qed.

(** X1: feeding the formatter a text in pieces, one call per piece, renders
    what feeding it in one call renders, and leaves the handler in the same
    state, provided no piece after the first begins in the middle of a
    UTF-8 sequence. *)
Theorem feed_concat_at_rune_boundaries (chunks : list (list byte)) :
  forall h : CLIStreamHandler,
    Forall (fun c => startsRune c = true) (List.tl chunks) ->
    feed h chunks = formatJSON h (List.concat chunks).
Proof.
  induction chunks as [|c cs IH]; intros h Hall; [reflexivity|].
  cbn [List.tl] in Hall. cbn [feed List.concat].
  rewrite formatJSON_app by (apply rangeString_app_startsRune, startsRune_concat, Hall).
  destruct (formatJSON h c) as [h1 o1]. cbn [fst snd].
  rewrite IH.
  - destruct (formatJSON h1 (List.concat cs)); reflexivity.
  - destruct cs as [|c' cs']; [constructor|]. inversion Hall; assumption.
Qed.

Lemma feed_concat_at_rune_boundaries_witness :
  let chunks := [[x22; xc3; xa9]; [xe2; x82; xac; x22]; []; [x2c]] in
  Forall (fun c => startsRune c = true) (List.tl chunks) /\
  feed newHandler chunks = formatJSON newHandler (List.concat chunks).
Proof.
  split; [repeat constructor|].
  apply feed_concat_at_rune_boundaries. repeat constructor.
Defined.

Lemma byteOf_byteVal (b : byte) : byteOf (byteVal b) = b.
Proof. destruct b; reflexivity. Qed.

Lemma encodeRune_ascii (b : byte) : byteVal b < 128 -> encodeRune (byteVal b) = [b].
Proof.
  intros Hb. unfold encodeRune.
  assert (H0 : 0 <= byteVal b) by (unfold byteVal; lia).
  destruct ((0 <=? byteVal b) && (byteVal b <=? 127)) eqn:E.
  - rewrite byteOf_byteVal. reflexivity.
  - apply Bool.andb_false_iff in E. destruct E as [E|E];
      [apply Z.leb_gt in E | apply Z.leb_gt in E]; lia.
Qed.

Lemma byteVal_inj (a b : byte) : byteVal a = byteVal b -> a = b.
Proof.
  intros Heq. rewrite <- (byteOf_byteVal a), <- (byteOf_byteVal b), Heq. reflexivity.
Qed.

Lemma byteVal_eqb (b c : byte) : (byteVal b =? byteVal c) = Byte.eqb b c.
Proof.
  destruct (Byte.eqb b c) eqn:E.
  - apply Byte.byte_dec_bl in E. subst. apply Z.eqb_refl.
  - apply Z.eqb_neq. intros Heq. apply byteVal_inj in Heq. subst.
    rewrite (Byte.byte_dec_lb eq_refl) in E. discriminate.
Qed.

Lemma rangeString_isASCII (s : list byte) :
  isASCII s -> rangeString s = map byteVal s.
Proof.
  induction 1 as [|b s Hb Hs IH]; [reflexivity|].
  cbn [rangeString map]. rewrite decodeRune_ascii by exact Hb. rewrite IH. reflexivity.
Qed.

Lemma plainText_isASCII (s : list byte) : plainText s = true -> isASCII s.
Proof.
  unfold plainText, isASCII. rewrite forallb_forall, Forall_forall.
  intros Hall b Hb. specialize (Hall b Hb).
  apply andb_prop in Hall. destruct Hall as [Hall _].
  apply andb_prop in Hall. destruct Hall as [Hall _].
  apply Z.ltb_lt. exact Hall.
Qed.

(** The loop over text that needs no escaping, inside a quoted string. *)
Lemma fold_step_plain (s : list byte) :
  forall (h : CLIStreamHandler) (acc : list byte),
    inQuote h = true -> escaped h = false -> plainText s = true ->
    fold_left step (map byteVal s) (h, acc) = (h, acc ++ s).
Proof.
  induction s as [|b s IH]; intros h acc Hq He Hs.
  - cbn. rewrite app_nil_r. reflexivity.
  - cbn [plainText forallb] in Hs.
    apply andb_prop in Hs. destruct Hs as [Hb Hs].
    apply andb_prop in Hb. destruct Hb as [Hb Hbs].
    apply andb_prop in Hb. destruct Hb as [Hascii Hnq].
    apply Z.ltb_lt in Hascii.
    cbn [map fold_left].
    assert (Hstep : step (h, acc) (byteVal b) = (h, acc ++ [b])).
    { destruct h as [q e lvl arr v]. cbn in Hq, He. subst q e.
      unfold step. cbn [escaped inQuote negb andb].
      change r_backslash with (byteVal x5c). change r_quote with (byteVal x22).
      rewrite !byteVal_eqb.
      apply Bool.negb_true_iff in Hnq, Hbs. rewrite Hnq, Hbs.
      rewrite !Bool.andb_false_r. cbn [andb].
      rewrite encodeRune_ascii by exact Hascii. reflexivity. }
    rewrite Hstep, (IH h (acc ++ [b]) Hq He Hs), <- app_assoc. reflexivity.
Qed.

(** X2: inside a quoted string, ASCII text that holds neither a double
    quote nor a backslash is written as it is, and the handler is left as
    it was. *)
Theorem formatJSON_string_content_verbatim (h : CLIStreamHandler) (s : list byte) :
  inQuote h = true ->
  escaped h = false ->
  plainText s = true ->
  formatJSON h s = (h, s).
Proof.
  intros Hq He Hs. unfold formatJSON, formatLoop.
  rewrite (rangeString_isASCII (plainText_isASCII s Hs)).
  apply (fold_step_plain s h [] Hq He Hs).
Qed.

Lemma formatJSON_string_content_verbatim_witness :
  let h := fst (formatJSON newHandler [x22]) in
  inQuote h = true /\ escaped h = false /\
  formatJSON h (bs "a,b: [c] {d}") = (h, bs "a,b: [c] {d}").
Proof.
  split; [reflexivity|]. split; [reflexivity|].
  apply formatJSON_string_content_verbatim; reflexivity.
Defined.

(** X3: a backslash escapes whatever ASCII character follows it, inside a
    quoted string or not: both are written as they are, the character is
    not interpreted (it opens or closes nothing), and the handler is then
    as it was before the backslash. *)
Theorem formatJSON_backslash_escapes_anything
        (h : CLIStreamHandler) (b : byte) (rest : list byte) :
  escaped h = false ->
  byteVal b < 128 ->
  formatJSON h (x5c :: b :: rest) =
  (fst (formatJSON h rest), [x5c; b] ++ snd (formatJSON h rest)).
Proof.
  intros He Hb. unfold formatJSON, formatLoop.
  cbn [rangeString]. rewrite (@decodeRune_ascii x5c) by (vm_compute; reflexivity).
  rewrite decodeRune_ascii by exact Hb.
  cbn [fold_left].
  destruct h as [q e lvl arr v]. cbn in He. subst e.
  change (step ({| inQuote := q; escaped := false; indentLevel := lvl;
                   inArray := arr; isValue := v |}, []) (byteVal x5c))
    with ({| inQuote := q; escaped := true; indentLevel := lvl;
             inArray := arr; isValue := v |}, [x5c]).
  assert (Hstep : step ({| inQuote := q; escaped := true; indentLevel := lvl;
                           inArray := arr; isValue := v |}, [x5c]) (byteVal b)
                  = ({| inQuote := q; escaped := false; indentLevel := lvl;
                        inArray := arr; isValue := v |}, [x5c; b])).
  { unfold step. cbn [escaped]. rewrite encodeRune_ascii by exact Hb. reflexivity. }
  rewrite Hstep. apply fold_step_acc.
Qed.

Lemma formatJSON_backslash_escapes_anything_witness :
  formatJSON newHandler (x5c :: x5b :: bs "x")
  = (fst (formatJSON newHandler (bs "x")), [x5c; x5b] ++ bs "x").
Proof.
  apply (@formatJSON_backslash_escapes_anything newHandler x5b (bs "x"));
    [reflexivity | vm_compute; reflexivity].
Defined.

Lemma byteOf_quote (z : Z) : byteOf z = x22 -> z mod 256 = 34.
Proof.
  unfold byteOf.
  destruct (Byte.of_N (Z.to_N (z mod 256))) as [c|] eqn:E; [|discriminate].
  intros ->. apply Byte.to_of_N in E.
  assert (Hm : 0 <= z mod 256) by (apply Z.mod_pos_bound; lia).
  apply (f_equal Z.of_N) in E. rewrite Z2N.id in E by exact Hm.
  rewrite <- E. reflexivity.
Qed.

(** A byte made with its top bit set is not the double quote. *)
Lemma byteOf_high_no_quote (k y : Z) :
  Z.testbit k 7 = true -> byteOf (Z.lor k y) <> x22.
Proof.
  intros Hk Heq. apply byteOf_quote in Heq.
  assert (Hbit : Z.testbit (Z.lor k y mod 2 ^ 8) 7 = Z.testbit 34 7).
  { change (2 ^ 8) with 256. rewrite Heq. reflexivity. }
  rewrite Z.mod_pow2_bits_low, Z.lor_spec, Hk in Hbit by lia.
  discriminate.
Qed.

Lemma encodeRune_no_quote (c : Z) : c <> 34 -> ~ In x22 (encodeRune c).
Proof.
  intros Hc. unfold encodeRune.
  destruct ((0 <=? c) && (c <=? 127)) eqn:E1.
  - intros [Hin|[]]. apply byteOf_quote in Hin.
    apply andb_prop in E1. destruct E1 as [H0 H1].
    apply Z.leb_le in H0, H1. rewrite Z.mod_small in Hin by lia. contradiction.
  - repeat match goal with
           | |- context [if ?b then _ else _] => destruct b
           end;
      cbn [In]; intros Hin;
      repeat (destruct Hin as [Hin|Hin];
              [first [ revert Hin;
                       apply byteOf_high_no_quote; reflexivity
                     | discriminate ] |]);
      exact Hin.
Qed.

Lemma indent_no_quote (n : nat) : ~ In x22 (List.concat (List.repeat (bs "  ") n)).
Proof.
  induction n as [|n IH]; [intros []|].
  cbn [List.repeat List.concat]. intros Hin. apply in_app_or in Hin.
  destruct Hin as [Hin|Hin]; [|exact (IH Hin)].
  cbn in Hin. destruct Hin as [Hin|[Hin|[]]]; discriminate.
Qed.

(** One iteration on a character that is not a backslash, no escape
    pending: no escape is pending afterwards and no double quote has been
    written. *)
Lemma step_no_quote (h : CLIStreamHandler) (c : Z) :
  escaped h = false ->
  c <> 92 ->
  escaped (fst (step (h, []) c)) = false /\ ~ In x22 (snd (step (h, []) c)).
Proof.
  intros He Hc. destruct h as [q e lvl arr v]. cbn in He. subst e.
  unfold step. cbn [escaped inQuote indentLevel inArray isValue].
  destruct (c =? r_backslash) eqn:Eb; [apply Z.eqb_eq in Eb; contradiction|].
  destruct (c =? r_quote) eqn:Eq.
  { destruct q; cbn; split; auto. }
  apply Z.eqb_neq in Eq.
  pose proof (encodeRune_no_quote Eq) as Henc.
  unfold writeIndent. cbn [indentLevel].
  repeat match goal with
         | |- context [if ?b then _ else _] => destruct b
         end;
    cbn [fst snd escaped app]; (split; [reflexivity|]);
    intros Hin;
    repeat match goal with
           | H : In x22 (_ ++ _) |- _ => apply in_app_or in H; destruct H as [H|H]
           | H : In x22 (List.concat (List.repeat _ _)) |- _ =>
               exact (indent_no_quote _ H)
           | H : In x22 (encodeRune c) |- _ => exact (Henc H)
           | H : In x22 [] |- _ => exact H
           | H : In x22 (_ :: _) |- _ => destruct H as [H|H]; [discriminate|]
           | H : In x22 NL |- _ => destruct H as [H|H]; [discriminate|]
           | H : In x22 (bs _) |- _ => cbn in H
           | H : _ \/ _ |- _ => destruct H as [H|H]; [discriminate|]
           | H : False |- _ => exact H
           end.
Qed.

(** X4: the formatter writes a double quote only as an escaped character:
    when no escape is pending at the start and the input holds no backslash
    character, the rendered text holds no double quote, whatever quotes the
    input holds. *)
Theorem formatJSON_writes_no_bare_quote (h : CLIStreamHandler) (data : list byte) :
  escaped h = false ->
  ~ In 92 (rangeString data) ->
  escaped (fst (formatJSON h data)) = false /\
  ~ In x22 (snd (formatJSON h data)).
Proof.
  unfold formatJSON, formatLoop.
  generalize (rangeString data). intros rs. revert h.
  induction rs as [|c rs IH]; intros h He Hno.
  - cbn. split; [exact He | intros []].
  - cbn [fold_left].
    assert (Hc : c <> 92) by (intros ->; apply Hno; left; reflexivity).
    destruct (step_no_quote h He Hc) as [He1 Hq1].
    destruct (step (h, []) c) as [h1 o1]. cbn [fst snd] in *.
    rewrite fold_step_acc. cbn [fst snd].
    destruct (IH h1 He1) as [He2 Hq2].
    { intros Hin. apply Hno. right. exact Hin. }
    split; [exact He2|].
    intros Hin. apply in_app_or in Hin. destruct Hin as [Hin|Hin]; auto.
Qed.

Lemma lor_ge_128 (a b : Z) :
  0 <= a -> 0 <= b -> 128 <= a \/ 128 <= b -> 128 <= Z.lor a b.
Proof.
  intros Ha Hb Hor.
  assert (Hlog : 7 <= Z.log2 (Z.lor a b)).
  { rewrite Z.log2_lor by assumption.
    destruct Hor as [H|H]; apply (Z.log2_le_mono 128) in H;
      change (Z.log2 128) with 7 in H; lia. }
  assert (Hpos : 0 < Z.lor a b).
  { destruct (Z.lor_nonneg a b) as [_ Hnn].
    specialize (Hnn (conj Ha Hb)).
    destruct (Z.eq_dec (Z.lor a b) 0) as [E|E]; [|lia].
    rewrite E in Hlog. cbn in Hlog. lia. }
  change 128 with (2 ^ 7). apply Z.log2_le_pow2; assumption.
Qed.

Lemma leadInfo_cases (b0 : byte) (sz : nat) (lo hi : Z) :
  leadInfo b0 = Some (sz, lo, hi) ->
  (sz = 2%nat /\ 194 <= byteVal b0 <= 223) \/
  (sz = 3%nat /\ 224 <= byteVal b0 <= 239 /\ (byteVal b0 = 224 -> lo = 160)) \/
  (sz = 4%nat /\ 240 <= byteVal b0 <= 244 /\ (byteVal b0 = 240 -> lo = 144)).
Proof.
  unfold leadInfo.
  repeat match goal with
         | |- context [if ?c then _ else _] => destruct c eqn:?
         end; intros Hl; inversion Hl; subst;
    repeat match goal with
           | H : (_ && _) = true |- _ => apply andb_prop in H; destruct H
           | H : (_ <=? _) = true |- _ => apply Z.leb_le in H
           | H : (_ =? _) = true |- _ => apply Z.eqb_eq in H
           | H : (_ =? _) = false |- _ => apply Z.eqb_neq in H
           end; lia.
Qed.

Lemma land_mask (v : Z) (n : Z) : 0 <= n -> Z.land v (Z.ones n) = v mod 2 ^ n.
Proof. intros Hn. apply Z.land_ones. exact Hn. Qed.

(** What is decoded at a byte that is not ASCII is not an ASCII rune. *)
Lemma decodeRune_high (b0 : byte) (rest : list byte) :
  128 <= byteVal b0 -> 128 <= fst (decodeRune b0 rest).
Proof.
  intros Hb. unfold decodeRune, RuneError.
  destruct (byteVal b0 <? 128) eqn:E; [apply Z.ltb_lt in E; lia|].
  destruct (leadInfo b0) as [[[sz lo] hi]|] eqn:Hl; [|cbn; lia].
  destruct (leadInfo_range _ Hl) as [Hlo Hhi].
  pose proof (leadInfo_cases _ Hl) as Hcases.
  assert (Hm : forall (c : byte) k, 0 <= k ->
               0 <= Z.land (byteVal c) (Z.ones k) /\
               Z.land (byteVal c) (Z.ones k) = byteVal c mod 2 ^ k).
  { intros c k Hk. rewrite land_mask by exact Hk. split; [|reflexivity].
    apply Z.mod_pos_bound. apply Z.pow_pos_nonneg; lia. }
  change 31 with (Z.ones 5). change 15 with (Z.ones 4). change 7 with (Z.ones 3).
  change 63 with (Z.ones 6).
  destruct rest as [|s1 r1]; [cbn; lia|].
  destruct (inRange lo hi s1) eqn:Hr; cbn [negb]; [|cbn; lia].
  unfold inRange in Hr. apply andb_prop in Hr. destruct Hr as [Hr1 Hr2].
  apply Z.leb_le in Hr1, Hr2.
  destruct (Hm b0 5 ltac:(lia)) as [H05 E05].
  destruct (Hm b0 4 ltac:(lia)) as [H04 E04].
  destruct (Hm b0 3 ltac:(lia)) as [H03 E03].
  destruct (Hm s1 6 ltac:(lia)) as [H16 E16].
  destruct (sz <=? 2)%nat eqn:Esz2.
  { cbn [fst]. rewrite Z.shiftl_mul_pow2 by lia.
    apply lor_ge_128; [lia | lia |]. left.
    destruct Hcases as [[_ Hv]|[[Hs _]|[Hs _]]];
      [|subst sz; discriminate|subst sz; discriminate].
    rewrite E05. change (2 ^ 5) with 32. change (2 ^ 6) with 64.
    Z.div_mod_to_equations. lia. }
  destruct r1 as [|s2 r2]; [cbn; lia|].
  destruct (isCont s2); cbn [negb]; [|cbn; lia].
  destruct (Hm s2 6 ltac:(lia)) as [H26 E26].
  destruct (sz <=? 3)%nat eqn:Esz3.
  { cbn [fst]. rewrite !Z.shiftl_mul_pow2 by lia.
    destruct Hcases as [[Hs _]|[[_ [Hv Hlo']]|[Hs _]]];
      [subst sz; discriminate| |subst sz; discriminate].
    apply lor_ge_128; [|lia|left].
    { apply Z.lor_nonneg. split; lia. }
    apply lor_ge_128; [lia|lia|].
    rewrite E04, E16. change (2 ^ 4) with 16. change (2 ^ 6) with 64.
    change (2 ^ 12) with 4096.
    destruct (Z.eq_dec (byteVal b0) 224) as [E224|E224].
    - right. specialize (Hlo' E224). subst lo. Z.div_mod_to_equations. lia.
    - left. Z.div_mod_to_equations. lia. }
  destruct r2 as [|s3 r3]; [cbn; lia|].
  destruct (isCont s3); cbn [negb]; [|cbn; lia].
  destruct (Hm s3 6 ltac:(lia)) as [H36 E36].
  cbn [fst]. rewrite !Z.shiftl_mul_pow2 by lia.
  destruct Hcases as [[Hs _]|[[Hs _]|[_ [Hv Hlo']]]];
    [subst sz; discriminate|subst sz; discriminate|].
  apply lor_ge_128; [|lia|left].
  { apply Z.lor_nonneg. split; [apply Z.lor_nonneg; split; lia | lia]. }
  apply lor_ge_128; [apply Z.lor_nonneg; split; lia | lia | left].
  apply lor_ge_128; [lia|lia|].
  rewrite E03, E16. change (2 ^ 3) with 8. change (2 ^ 6) with 64.
  change (2 ^ 18) with 262144. change (2 ^ 12) with 4096.
  destruct (Z.eq_dec (byteVal b0) 240) as [E240|E240].
  - right. specialize (Hlo' E240). subst lo. Z.div_mod_to_equations. lia.
  - left. Z.div_mod_to_equations. lia.
Qed.

(** An ASCII rune of a string comes from that very byte of the string. *)
Lemma rangeString_ascii_rune (n : nat) :
  forall (s : list byte) (c : Z),
    (List.length s <= n)%nat ->
    In c (rangeString s) -> c < 128 -> exists b, In b s /\ byteVal b = c.
Proof.
  induction n as [|n IH]; intros s c Hn Hin Hc.
  { destruct s; [contradiction | simpl in Hn; lia]. }
  destruct s as [|b0 r0]; [contradiction|].
  simpl in Hn. cbn [rangeString] in Hin.
  pose proof (decodeRune_width b0 r0) as Hw.
  pose proof (decodeRune_high b0 r0) as Hhigh.
  destruct (decodeRune b0 r0) as [r w] eqn:Ed. cbn [fst snd] in *.
  destruct Hin as [Hin|Hin].
  - subst r. exists b0. split; [left; reflexivity|].
    destruct (Z_lt_ge_dec (byteVal b0) 128) as [Hlt|Hge].
    + rewrite decodeRune_ascii in Ed by exact Hlt. inversion Ed. reflexivity.
    + specialize (Hhigh ltac:(lia)). lia.
  - assert (Hsub : exists t, (List.length t <= n)%nat /\ In c (rangeString t)
                             /\ forall x, In x t -> In x r0).
    { destruct w as [|[|[|[|[|w]]]]]; try lia.
      - exists r0. repeat split; [lia | exact Hin | auto].
      - destruct r0 as [|s1 r1]; [simpl in Hw; lia|].
        exists r1. repeat split; [simpl in Hn; lia | exact Hin |].
        intros x Hx. right. exact Hx.
      - destruct r0 as [|s1 [|s2 r2]]; try (simpl in Hw; lia).
        exists r2. repeat split; [simpl in Hn; lia | exact Hin |].
        intros x Hx. right. right. exact Hx.
      - destruct r0 as [|s1 [|s2 [|s3 r3]]]; try (simpl in Hw; lia).
        exists r3. repeat split; [simpl in Hn; lia | exact Hin |].
        intros x Hx. right. right. right. exact Hx. }
    destruct Hsub as [t [Hlen [Hint Hsubset]]].
    destruct (IH t c Hlen Hint Hc) as [b [Hb Hv]].
    exists b. split; [right; apply Hsubset; exact Hb | exact Hv].
Qed.

Lemma rangeString_no_backslash (data : list byte) :
  ~ In x5c data -> ~ In 92 (rangeString data).
Proof.
  intros Hno Hin.
  destruct (@rangeString_ascii_rune (List.length data) data 92 (le_n _) Hin ltac:(lia))
    as [b [Hb Hv]].
  change 92 with (byteVal x5c) in Hv. apply byteVal_inj in Hv. subst b.
  exact (Hno Hb).
Qed.

Lemma formatJSON_writes_no_bare_quote_witness :
  let data := CLI.unq (bs "{'name':'x','tags':['a','b']}") in
  ~ In x5c data /\
  ~ In x22 (snd (formatJSON newHandler data)).
Proof.
  assert (Hbytes : ~ In x5c (CLI.unq (bs "{'name':'x','tags':['a','b']}"))).
  { vm_compute. intuition discriminate. }
  split; [exact Hbytes|].
  exact (proj2 (@formatJSON_writes_no_bare_quote newHandler _ eq_refl
                  (@rangeString_no_backslash _ Hbytes))).
Defined.

Lemma wrapInt_small (z : Z) : - 2 ^ 63 <= z < 2 ^ 63 -> wrapInt z = z.
Proof.
  intros Hz. unfold wrapInt.
  change (2 ^ 64) with (2 * 2 ^ 63). rewrite Z.mod_small by lia. lia.
Qed.

Lemma isASCII_quoted (s : list byte) : plainText s = true -> isASCII (quoted s).
Proof.
  intros Hs. unfold quoted, isASCII.
  constructor; [vm_compute; reflexivity|].
  apply Forall_app. split; [apply plainText_isASCII; exact Hs|].
  constructor; [vm_compute; reflexivity | constructor].
Qed.

Lemma isASCII_fields (kvs : list (list byte * list byte)) :
  forallb (fun kv => plainText (fst kv) && plainText (snd kv)) kvs = true ->
  isASCII (fields kvs).
Proof.
  induction kvs as [|kv rest IH]; intros Hall; [constructor|].
  cbn [forallb] in Hall. apply andb_prop in Hall. destruct Hall as [Hkv Hrest].
  apply andb_prop in Hkv. destruct Hkv as [Hk Hv].
  assert (Hf : isASCII (field kv)).
  { unfold field, isASCII. apply Forall_app. split; [apply isASCII_quoted; exact Hk|].
    apply Forall_app. split; [constructor; [vm_compute; reflexivity | constructor]|].
    apply isASCII_quoted; exact Hv. }
  cbn [fields]. destruct rest as [|kv2 rest']; [exact Hf|].
  unfold isASCII. apply Forall_app. split; [exact Hf|].
  apply Forall_app. split; [constructor; [vm_compute; reflexivity | constructor]|].
  apply IH. exact Hrest.
Qed.

(** The loop over a string literal whose content needs no escaping. *)
Lemma fold_step_quoted (s : list byte) (h : CLIStreamHandler) (acc : list byte) :
  inQuote h = false -> escaped h = false -> plainText s = true ->
  fold_left step (map byteVal (quoted s)) (h, acc) = (h, acc ++ s).
Proof.
  intros Hq He Hs. destruct h as [q e lvl arr v]. cbn in Hq, He. subst q e.
  unfold quoted. cbn [map fold_left]. rewrite map_app, fold_left_app.
  change (step ({| inQuote := false; escaped := false; indentLevel := lvl;
                   inArray := arr; isValue := v |}, acc) (byteVal x22))
    with ({| inQuote := true; escaped := false; indentLevel := lvl;
             inArray := arr; isValue := v |}, acc).
  rewrite fold_step_plain by (reflexivity || exact Hs).
  reflexivity.
Qed.

(** The loop over one field: the key, a colon and a space, the value. *)
Lemma fold_step_field (kv : list byte * list byte) (h : CLIStreamHandler)
      (acc : list byte) :
  inQuote h = false -> escaped h = false ->
  plainText (fst kv) = true -> plainText (snd kv) = true ->
  fold_left step (map byteVal (field kv)) (h, acc)
  = (mkHandler false false (indentLevel h) (inArray h) true,
     acc ++ fst kv ++ bs ": " ++ snd kv).
Proof.
  intros Hq He Hk Hv. unfold field.
  rewrite !map_app, !fold_left_app.
  rewrite fold_step_quoted by assumption.
  destruct h as [q e lvl arr v]. cbn in Hq, He. subst q e.
  cbn [map fold_left inQuote escaped indentLevel inArray isValue].
  change (step ({| inQuote := false; escaped := false; indentLevel := lvl;
                   inArray := arr; isValue := v |}, acc ++ fst kv) (byteVal x3a))
    with ({| inQuote := false; escaped := false; indentLevel := lvl;
             inArray := arr; isValue := true |}, (acc ++ fst kv) ++ bs ": ").
  rewrite fold_step_quoted by (reflexivity || assumption).
  rewrite <- !app_assoc. reflexivity.
Qed.

(** The loop over the fields of an object that is not inside an array:
    each comma starts a new line at the indentation of the object. *)
Lemma fold_step_fields (kvs : list (list byte * list byte)) :
  forall (h : CLIStreamHandler) (acc : list byte),
    inQuote h = false -> escaped h = false -> inArray h = false ->
    kvs <> [] ->
    forallb (fun kv => plainText (fst kv) && plainText (snd kv)) kvs = true ->
    let indent := List.concat (List.repeat (bs "  ") (Z.to_nat (indentLevel h))) in
    fold_left step (map byteVal (fields kvs)) (h, acc ++ [x0a] ++ indent)
    = (mkHandler false false (indentLevel h) false true,
       acc ++ fieldLines (Z.to_nat (indentLevel h)) kvs).
Proof.
  induction kvs as [|kv rest IH]; intros h acc Hq He Ha Hne Hall indent;
    [contradiction|].
  cbn [forallb] in Hall. apply andb_prop in Hall. destruct Hall as [Hkv Hrest].
  apply andb_prop in Hkv. destruct Hkv as [Hk Hv].
  destruct rest as [|kv2 rest'].
  - cbn [fields]. rewrite fold_step_field by assumption.
    rewrite Ha. unfold fieldLines. cbn [map List.concat]. subst indent.
    rewrite app_nil_r, <- !app_assoc. reflexivity.
  - change (fields (kv :: kv2 :: rest'))
      with (field kv ++ [x2c] ++ fields (kv2 :: rest')).
    rewrite !map_app, !fold_left_app.
    rewrite fold_step_field by assumption.
    rewrite Ha. cbn [map fold_left].
    set (h1 := {| inQuote := false; escaped := false; indentLevel := indentLevel h;
                  inArray := false; isValue := false |}).
    set (line := (acc ++ [x0a] ++ indent) ++ fst kv ++ bs ": " ++ snd kv).
    change (step ({| inQuote := false; escaped := false; indentLevel := indentLevel h;
                     inArray := false; isValue := true |}, line) (byteVal x2c))
      with (h1, writeIndent h1 (line ++ NL)).
    unfold writeIndent, NL. fold indent.
    replace ((line ++ [x0a]) ++ List.concat (List.repeat (bs "  ")
                                              (Z.to_nat (indentLevel h1))))
      with (line ++ [x0a] ++ indent)
      by (rewrite <- app_assoc; reflexivity).
    pose proof (IH h1 line eq_refl eq_refl eq_refl ltac:(discriminate) Hrest) as IH1.
    cbv zeta in IH1. change (indentLevel h1) with (indentLevel h) in IH1.
    fold indent in IH1. rewrite IH1. f_equal.
    unfold line, fieldLines. cbn [map List.concat]. subst indent.
    rewrite <- !app_assoc. reflexivity.
Qed.

(** X5: an object whose values are strings that need no escaping, met
    outside an array, is shown as one line per field: a new line, the
    indentation of one level more than the handler had, the key, a colon
    and a space, the value; neither braces nor quotes nor commas are
    written.  Afterwards the handler is back at the level it had, outside
    any string and not after a colon. *)
Theorem formatJSON_flat_object (h : CLIStreamHandler)
        (kvs : list (list byte * list byte)) :
  inQuote h = false -> escaped h = false -> inArray h = false ->
  0 <= indentLevel h < 2 ^ 63 - 1 ->
  kvs <> [] ->
  forallb (fun kv => plainText (fst kv) && plainText (snd kv)) kvs = true ->
  formatJSON h (flatObject kvs)
  = (mkHandler false false (indentLevel h) false false,
     fieldLines (Z.to_nat (indentLevel h + 1)) kvs).
Proof.
  intros Hq He Ha Hlvl Hne Hall. unfold formatJSON, formatLoop.
  assert (Hascii : isASCII (flatObject kvs)).
  { unfold flatObject, isASCII. apply Forall_app.
    split; [constructor; [vm_compute; reflexivity | constructor]|].
    apply Forall_app. split; [apply isASCII_fields; exact Hall|].
    constructor; [vm_compute; reflexivity | constructor]. }
  rewrite (rangeString_isASCII Hascii). unfold flatObject.
  rewrite !map_app, !fold_left_app.
  destruct h as [q e lvl arr v]. cbn in Hq, He, Ha, Hlvl. subst q e arr.
  cbn [map fold_left].
  set (h1 := {| inQuote := false; escaped := false; indentLevel := lvl + 1;
                inArray := false; isValue := v |}).
  assert (Hopen : step ({| inQuote := false; escaped := false; indentLevel := lvl;
                           inArray := false; isValue := v |}, []) (byteVal x7b)
                  = (h1, [] ++ [x0a] ++
                         List.concat (List.repeat (bs "  ") (Z.to_nat (indentLevel h1))))).
  { unfold step, writeIndent, NL.
    cbn [escaped inQuote inArray indentLevel isValue negb andb].
    change (byteVal x7b =? r_backslash) with false.
    change (byteVal x7b =? r_quote) with false.
    change (byteVal x7b =? r_lbracket) with false.
    change (byteVal x7b =? r_rbracket) with false.
    change (byteVal x7b =? r_lbrace) with true.
    cbn [andb]. rewrite wrapInt_small by lia. reflexivity. }
  rewrite Hopen.
  rewrite (@fold_step_fields kvs h1 [] eq_refl eq_refl eq_refl Hne Hall).
  cbn [indentLevel h1 app].
  unfold step. cbn [escaped inQuote inArray indentLevel isValue negb andb].
  change (byteVal x7d =? r_backslash) with false.
  change (byteVal x7d =? r_quote) with false.
  change (byteVal x7d =? r_lbracket) with false.
  change (byteVal x7d =? r_rbracket) with false.
  change (byteVal x7d =? r_lbrace) with false.
  change (byteVal x7d =? r_rbrace) with true.
  cbn [andb]. replace (lvl + 1 - 1) with lvl by lia.
  rewrite wrapInt_small by lia. reflexivity.
Qed.

Lemma formatJSON_flat_object_witness :
  let kvs := [(bs "name", bs "x"); (bs "content", bs "a,b")] in
  flatObject kvs = CLI.unq (bs "{'name':'x','content':'a,b'}") /\
  formatJSON newHandler (flatObject kvs)
  = (newHandler, [x0a] ++ bs "  name: x" ++ [x0a] ++ bs "  content: a,b").
Proof.
  split; [reflexivity|].
  apply (@formatJSON_flat_object newHandler
           [(bs "name", bs "x"); (bs "content", bs "a,b")]);
    try reflexivity; [cbn; lia | discriminate].
Defined.

Lemma isASCII_items (vs : list (list byte)) :
  forallb plainText vs = true -> isASCII (items vs).
Proof.
  induction vs as [|v rest IH]; intros Hall; [constructor|].
  cbn [forallb] in Hall. apply andb_prop in Hall. destruct Hall as [Hv Hrest].
  cbn [items]. destruct rest as [|v2 rest']; [apply isASCII_quoted; exact Hv|].
  unfold isASCII. apply Forall_app. split; [apply isASCII_quoted; exact Hv|].
  apply Forall_app. split; [constructor; [vm_compute; reflexivity | constructor]|].
  apply IH. exact Hrest.
Qed.

(** The loop over the items of an array: each comma starts a new line at
    the indentation of the array, with a dash. *)
Lemma fold_step_items (vs : list (list byte)) :
  forall (h : CLIStreamHandler) (acc : list byte),
    inQuote h = false -> escaped h = false -> inArray h = true ->
    vs <> [] ->
    forallb plainText vs = true ->
    let indent := List.concat (List.repeat (bs "  ") (Z.to_nat (indentLevel h))) in
    fold_left step (map byteVal (items vs)) (h, acc ++ [x0a] ++ indent ++ bs "- ")
    = (mkHandler false false (indentLevel h) true
                 (match vs with [_] => isValue h | _ => false end),
       acc ++ itemLines (Z.to_nat (indentLevel h)) vs).
Proof.
  induction vs as [|v rest IH]; intros h acc Hq He Ha Hne Hall indent;
    [contradiction|].
  cbn [forallb] in Hall. apply andb_prop in Hall. destruct Hall as [Hv Hrest].
  destruct rest as [|v2 rest'].
  - cbn [items]. rewrite fold_step_quoted by assumption.
    destruct h as [q e lvl arr val]. cbn in Hq, He, Ha. subst q e arr.
    unfold itemLines. cbn [map List.concat indentLevel isValue]. subst indent.
    cbn [indentLevel]. rewrite app_nil_r, <- ?app_assoc. reflexivity.
  - change (items (v :: v2 :: rest')) with (quoted v ++ [x2c] ++ items (v2 :: rest')).
    rewrite !map_app, !fold_left_app.
    rewrite fold_step_quoted by assumption.
    destruct h as [q e lvl arr val]. cbn in Hq, He, Ha. subst q e arr.
    cbn [map fold_left indentLevel] in *.
    set (h1 := {| inQuote := false; escaped := false; indentLevel := lvl;
                  inArray := true; isValue := false |}).
    set (line := (acc ++ [x0a] ++ indent ++ bs "- ") ++ v).
    change (step ({| inQuote := false; escaped := false; indentLevel := lvl;
                     inArray := true; isValue := val |}, line) (byteVal x2c))
      with (h1, writeIndent h1 (line ++ NL) ++ bs "- ").
    unfold writeIndent, NL. change (indentLevel h1) with lvl. fold indent.
    replace (((line ++ [x0a]) ++ indent) ++ bs "- ")
      with (line ++ [x0a] ++ indent ++ bs "- ")
      by (rewrite <- !app_assoc; reflexivity).
    pose proof (IH h1 line eq_refl eq_refl eq_refl ltac:(discriminate) Hrest) as IH1.
    cbv zeta in IH1. change (indentLevel h1) with lvl in IH1.
    fold indent in IH1. rewrite IH1.
    assert (Hval : match v2 :: rest' with [_] => isValue h1 | _ => false end = false).
    { destruct rest'; reflexivity. }
    rewrite Hval. f_equal.
    unfold line, itemLines. cbn [map List.concat]. subst indent.
    rewrite <- !app_assoc. reflexivity.
Qed.

(** X21: an array of strings that need no escaping, met outside a string,
    is shown as a list with dashes: for each item a new line, the
    indentation of one level more than the handler had, a dash and a
    space, the item; neither brackets nor quotes nor commas are written.
    Afterwards the handler is back at the level it had and outside any
    array, whether or not the array was itself inside an array. *)
Theorem formatJSON_string_array (h : CLIStreamHandler) (vs : list (list byte)) :
  inQuote h = false -> escaped h = false ->
  0 <= indentLevel h < 2 ^ 63 - 1 ->
  vs <> [] ->
  forallb plainText vs = true ->
  formatJSON h (stringArray vs)
  = (mkHandler false false (indentLevel h) false
               (match vs with [_] => isValue h | _ => false end),
     itemLines (Z.to_nat (indentLevel h + 1)) vs).
Proof.
  intros Hq He Hlvl Hne Hall. unfold formatJSON, formatLoop.
  assert (Hascii : isASCII (stringArray vs)).
  { unfold stringArray, isASCII. apply Forall_app.
    split; [constructor; [vm_compute; reflexivity | constructor]|].
    apply Forall_app. split; [apply isASCII_items; exact Hall|].
    constructor; [vm_compute; reflexivity | constructor]. }
  rewrite (rangeString_isASCII Hascii). unfold stringArray.
  rewrite !map_app, !fold_left_app.
  destruct h as [q e lvl arr v]. cbn in Hq, He, Hlvl. subst q e.
  cbn [map fold_left indentLevel isValue].
  set (h1 := {| inQuote := false; escaped := false; indentLevel := lvl + 1;
                inArray := true; isValue := v |}).
  assert (Hopen : step ({| inQuote := false; escaped := false; indentLevel := lvl;
                           inArray := arr; isValue := v |}, []) (byteVal x5b)
                  = (h1, [] ++ [x0a]
                         ++ List.concat (List.repeat (bs "  ")
                                           (Z.to_nat (indentLevel h1)))
                         ++ bs "- ")).
  { unfold step, writeIndent, NL.
    cbn [escaped inQuote inArray indentLevel isValue negb andb].
    change (byteVal x5b =? r_backslash) with false.
    change (byteVal x5b =? r_quote) with false.
    change (byteVal x5b =? r_lbracket) with true.
    cbn [andb]. rewrite wrapInt_small by lia.
    cbn [app]. rewrite <- ?app_assoc. reflexivity. }
  rewrite Hopen.
  rewrite (@fold_step_items vs h1 [] eq_refl eq_refl eq_refl Hne Hall).
  cbn [indentLevel isValue h1 app].
  unfold step. cbn [escaped inQuote inArray indentLevel isValue negb andb].
  change (byteVal x5d =? r_backslash) with false.
  change (byteVal x5d =? r_quote) with false.
  change (byteVal x5d =? r_lbracket) with false.
  change (byteVal x5d =? r_rbracket) with true.
  cbn [andb]. replace (lvl + 1 - 1) with lvl by lia.
  rewrite wrapInt_small by lia. reflexivity.
Qed.

Lemma formatJSON_string_array_witness :
  let vs := [bs "a"; bs "b,c"] in
  stringArray vs = CLI.unq (bs "['a','b,c']") /\
  formatJSON newHandler (stringArray vs)
  = (newHandler, [x0a] ++ bs "  - a" ++ [x0a] ++ bs "  - b,c").
Proof.
  split; [reflexivity|].
  apply (@formatJSON_string_array newHandler [bs "a"; bs "b,c"]);
    try reflexivity; [cbn; lia | discriminate].
Defined.

End FormatterMore.

(* ================================================================== *)
(** * The stream callback on the command-line handler *)
(* ================================================================== *)

Section CLIStream.
Import Go Eff.
Context {S : Type} {messageRepo : repository.MessageRepository S}.
Context {codec : message.JSON}.
#[local] Existing Instance CLI.CLIStreamHandler_StreamHandler.

Abbreviation World := (@message.World S CLI.Console).

(** One chunk through the callback on the command-line handler: no error,
    the store is not touched, the standard output only grows. *)
Lemma cli_callback_effect (chunk : list byte) (cur : list byte) (w : World) :
  let r := message.streamCallback chunk (cur, w) in
  fst r = None /\
  message.repoState (snd (snd r)) = message.repoState w /\
  exists out,
    CLI.stdout (message.handlerState (snd (snd r)))
    = CLI.stdout (message.handlerState w) ++ out.
Proof.
  unfold message.streamCallback.
  destruct (message.json_Unmarshal chunk) as [[|fcall0 rest]|e].
  - cbn. repeat split. eexists. reflexivity.
  - destruct (message.Id fcall0) as [id|];
      [destruct (negb (streq cur id))|];
      cbn; unfold CLI.HandleFunctionCallChunk; cbn;
      destruct (CLI.formatJSON _ _) as [h1 out]; cbn;
      repeat split; rewrite <- ?app_assoc; eexists; reflexivity.
  - cbn. repeat split. eexists. reflexivity.
Qed.

(** X6: the command-line handler never stops a stream.  Whatever chunks the
    provider delivers, the stream callback on this handler returns no
    error for any of them, so every chunk is delivered; the store is not
    touched, and what was on the standard output stays there, the output
    only grows. *)
Theorem cli_stream_never_fails (chunks : list (list byte)) :
  forall (cur : list byte) (w : World),
    let r := llm.deliver message.streamCallback chunks (cur, w) in
    fst r = None /\
    message.repoState (snd (snd r)) = message.repoState w /\
    exists out,
      CLI.stdout (message.handlerState (snd (snd r)))
      = CLI.stdout (message.handlerState w) ++ out.
Proof.
  induction chunks as [|c cs IH]; intros cur w.
  - cbn. repeat split. exists []. rewrite app_nil_r. reflexivity.
  - cbn [llm.deliver].
    destruct (cli_callback_effect c cur w) as [Hnone [Hrepo [out Hout]]].
    destruct (message.streamCallback c (cur, w)) as [[err|] [cur1 w1]];
      cbn [fst snd] in *; [discriminate|].
    destruct (IH cur1 w1) as [Hnone' [Hrepo' [out' Hout']]].
    split; [exact Hnone'|]. split; [congruence|].
    exists (out ++ out'). rewrite Hout', Hout, <- app_assoc. reflexivity.
Qed.

(** X7: a stream of text chunks is printed as it comes.  When none of the
    chunks decodes into a non-empty slice of tool-call fragments, the
    standard output grows by the chunks, byte for byte and in order; the
    formatter state of the handler and the id of the call in progress are
    left alone, and the handler has been called once per chunk, with
    [HandleTextChunk]. *)
Theorem cli_text_stream_verbatim (chunks : list (list byte)) :
  forall (cur : list byte) (w : World),
    Forall textChunk chunks ->
    llm.deliver message.streamCallback chunks (cur, w)
    = (None,
       (cur,
        message.mkWorld (message.repoState w)
          (CLI.mkConsole (CLI.handler (message.handlerState w))
                         (CLI.stdout (message.handlerState w) ++ List.concat chunks))
          (message.calls w ++ map message.CallHandleTextChunk chunks))).
Proof.
  induction chunks as [|c cs IH]; intros cur w Hall.
  - cbn. rewrite !app_nil_r. destruct w as [s [h o] l]. reflexivity.
  - inversion Hall as [|c' cs' Hc Hcs]; subst.
    cbn [llm.deliver].
    assert (Hstep : message.streamCallback c (cur, w)
                    = (None,
                       (cur,
                        message.mkWorld (message.repoState w)
                          (CLI.mkConsole (CLI.handler (message.handlerState w))
                             (CLI.stdout (message.handlerState w) ++ c))
                          (message.calls w ++ [message.CallHandleTextChunk c])))).
    { unfold message.streamCallback, textChunk in *.
      destruct (message.json_Unmarshal c) as [[|e0 rest]|e];
        [reflexivity | contradiction | reflexivity]. }
    rewrite Hstep, (IH _ _ Hcs).
    cbn [message.repoState message.handlerState message.calls CLI.handler CLI.stdout
         map List.concat].
    rewrite <- !app_assoc. reflexivity.
Qed.

Lemma cli_chunk_call (f : message.FunctionCallChunk) (w : World) :
  message.onHandler (message.CallHandleFunctionCallChunk f)
                    (message.HandleFunctionCallChunk f) w
  = (None,
     message.mkWorld (message.repoState w)
       (CLI.mkConsole
          (fst (CLI.formatJSON (CLI.handler (message.handlerState w))
                               (message.ArgumentsJson f)))
          (CLI.stdout (message.handlerState w)
             ++ snd (CLI.formatJSON (CLI.handler (message.handlerState w))
                                    (message.ArgumentsJson f))))
       (message.calls w ++ [message.CallHandleFunctionCallChunk f])).
Proof.
  unfold message.onHandler, message.afterHandler. cbn.
  unfold CLI.HandleFunctionCallChunk.
  destruct (CLI.formatJSON _ _); reflexivity.
Qed.

(** Fragments that continue the call in progress go through the formatter,
    one call per fragment. *)
Lemma cli_continued_call (chunks : list (list byte)) :
  forall (elems : list message.fcallElem) (cur : list byte) (w : World),
    Forall2 (fun c e => exists rest, message.json_Unmarshal c = Ok (e :: rest))
            chunks elems ->
    Forall (continues cur) elems ->
    let fed := CLI.feed (CLI.handler (message.handlerState w)) (argumentsOf elems) in
    llm.deliver message.streamCallback chunks (cur, w)
    = (None,
       (cur,
        message.mkWorld (message.repoState w)
          (CLI.mkConsole (fst fed) (CLI.stdout (message.handlerState w) ++ snd fed))
          (message.calls w
             ++ map (fun e => message.CallHandleFunctionCallChunk (message.Function e))
                    elems))).
Proof.
  induction chunks as [|c cs IH]; intros elems cur w Hall Hcont.
  - inversion Hall; subst. cbn. rewrite !app_nil_r.
    destruct w as [s [h o] l]. reflexivity.
  - inversion Hall as [|c' e cs' es [rest Hc] Hrest]; subst.
    inversion Hcont as [|e' es' He Hes]; subst.
    cbn [llm.deliver argumentsOf map CLI.feed].
    destruct (CLI.formatJSON (CLI.handler (message.handlerState w))
                (message.ArgumentsJson (message.Function e))) as [h1 o1] eqn:Ef.
    assert (Hstep : message.streamCallback c (cur, w)
                    = (None,
                       (cur,
                        message.mkWorld (message.repoState w)
                          (CLI.mkConsole h1 (CLI.stdout (message.handlerState w) ++ o1))
                          (message.calls w
                             ++ [message.CallHandleFunctionCallChunk
                                   (message.Function e)])))).
    { unfold message.streamCallback. rewrite Hc.
      destruct He as [He|He]; rewrite He; [|rewrite streq_refl; cbn [negb]];
        rewrite cli_chunk_call, Ef; reflexivity. }
    rewrite Hstep, (IH es _ _ Hrest Hes).
    cbn [message.repoState message.handlerState message.calls CLI.handler CLI.stdout].
    fold (argumentsOf es).
    destruct (CLI.feed h1 (argumentsOf es)) as [h2 o2].
    cbn [fst snd]. rewrite <- !app_assoc. reflexivity.
Qed.

(** X8: how a streamed tool call is shown.  When the fragments of a call
    arrive, the first carrying an id other than that of the call in
    progress and the others no id or the same id, the standard output
    grows by the announcement of the tool, with the name the first
    fragment carries, and then by the arguments of the fragments as the
    formatter renders them piece by piece; the id of the call becomes the
    id in progress. *)
Theorem cli_tool_call_stream (chunks : list (list byte))
        (e0 : message.fcallElem) (more : list message.fcallElem)
        (id : list byte) (cur : list byte) (w : World) :
  Forall2 (fun c e => exists rest, message.json_Unmarshal c = Ok (e :: rest))
          chunks (e0 :: more) ->
  message.Id e0 = Some id ->
  cur <> id ->
  Forall (continues id) more ->
  let r := llm.deliver message.streamCallback chunks (cur, w) in
  let fed := CLI.feed (CLI.handler (message.handlerState w))
                      (argumentsOf (e0 :: more)) in
  fst r = None /\
  fst (snd r) = id /\
  message.handlerState (snd (snd r))
  = CLI.mkConsole (fst fed)
      (CLI.stdout (message.handlerState w)
         ++ ([x0a; x0a] ++ bs "[Requesting tool use: "
               ++ message.Name (message.Function e0) ++ bs "]")
         ++ snd fed).
Proof.
  intros Hall Hid Hne Hmore.
  inversion Hall as [|c e cs es [rest Hc] Hrest]; subst.
  cbn [llm.deliver argumentsOf map CLI.feed].
  destruct (CLI.formatJSON (CLI.handler (message.handlerState w))
              (message.ArgumentsJson (message.Function e0))) as [h1 o1] eqn:Ef.
  set (announce := [x0a; x0a] ++ bs "[Requesting tool use: "
                     ++ message.Name (message.Function e0) ++ bs "]").
  assert (Hstep : message.streamCallback c (cur, w)
                  = (None,
                     (id,
                      message.mkWorld (message.repoState w)
                        (CLI.mkConsole h1
                           ((CLI.stdout (message.handlerState w) ++ announce) ++ o1))
                        ((message.calls w
                            ++ [message.CallHandleFunctionCallStart id
                                  (message.Name (message.Function e0))])
                           ++ [message.CallHandleFunctionCallChunk
                                 (message.Function e0)])))).
  { unfold message.streamCallback. rewrite Hc, Hid.
    assert (Hs : streq cur id = false).
    { destruct (streq cur id) eqn:E; [|reflexivity].
      apply streq_eq in E. contradiction. }
    rewrite Hs. cbn [negb].
    change (message.onHandler (message.CallHandleFunctionCallStart id
                                 (message.Name (message.Function e0)))
              (message.HandleFunctionCallStart id (message.Name (message.Function e0)))
              w)
      with (@None error,
            message.mkWorld (message.repoState w)
              (CLI.mkConsole (CLI.handler (message.handlerState w))
                             (CLI.stdout (message.handlerState w) ++ announce))
              (message.calls w
                 ++ [message.CallHandleFunctionCallStart id
                       (message.Name (message.Function e0))])).
    cbv beta iota zeta. rewrite cli_chunk_call.
    cbn [message.repoState message.handlerState message.calls CLI.handler CLI.stdout].
    rewrite Ef. reflexivity. }
  rewrite Hstep, (@cli_continued_call cs more id _ Hrest Hmore).
  cbn [message.repoState message.handlerState message.calls CLI.handler CLI.stdout
       fst snd].
  fold (argumentsOf more).
  destruct (CLI.feed h1 (argumentsOf more)) as [h2 o2]. cbn [fst snd].
  split; [reflexivity|]. split; [reflexivity|].
  rewrite <- !app_assoc. reflexivity.
Qed.

End CLIStream.

(* ================================================================== *)
(** * [SendMessage], step by step *)
(* ================================================================== *)

Section TurnSteps.
Import Go Eff.
Variable Tool : Type.
Context {S : Type} {messageRepo : repository.MessageRepository S}.
Context {H : Type} {streamHandler : message.StreamHandler H}.
Context {codec : message.JSON}.

Abbreviation World := (@message.World S H).

(** Every call of [SendMessage] goes one of the ways of [Turn]. *)
Lemma SendMessage_turn (client : llm.Client Tool)
      (opts : message.SendMessageOptions Tool) (w : World) :
  Turn client opts w (fst (message.SendMessage client opts w))
       (snd (message.SendMessage client opts w)).
Proof.
  cbv beta delta [message.SendMessage bind wrapErr message.onRepo ret].
  destruct (repository.GetThreadByID (message.ThreadID opts) (message.repoState w))
    as [[thread|e] s1] eqn:E1; cbn [fst snd].
  2:{ apply TurnUnsettled. apply ThreadFailed. exact E1. }
  assert (Htail : forall parentID w1,
             Settled opts w (Ok (thread, parentID)) w1 ->
             let run :=
               (messages <- wrapErr "failed to get conversation history: "
                  (message.onRepo
                     (message.CallGetMessages (domain.Thread_ID thread) parentID false)
                     (repository.GetMessages (domain.Thread_ID thread) parentID false)) ;;
                let modelCfg := llm.GetConfig client in
                let userMsg := message.newMessage (message.ThreadID opts) parentID
                                 domain.RoleHuman (message.Content opts) [] [] [] in
                aiResponse <- wrapErr "failed to stream AI response: "
                  (message.callLLM client (message.Content opts) messages
                     (message.StreamHandler_ opts) (message.Tools opts)) ;;
                toolCallsString <- wrapErr "Failed to parse ToolCalls: "
                  (fun w => (message.json_Marshal (llm.ToolCalls aiResponse), w)) ;;
                userMsg1 <- message.onRepo
                    (message.CallAddMessageToThread (message.ThreadID opts) userMsg)
                    (repository.AddMessageToThread (message.ThreadID opts) userMsg) ;;
                let aiMsg := message.newMessage (message.ThreadID opts)
                               (Some (domain.ID userMsg1)) domain.RoleAssistant
                               (llm.TextResponse aiResponse) toolCallsString
                               (config.Name modelCfg) (config.Provider modelCfg) in
                aiMsg1 <- message.onRepo
                    (message.CallAddMessageToThread (message.ThreadID opts) aiMsg)
                    (repository.AddMessageToThread (message.ThreadID opts) aiMsg) ;;
                ret aiMsg1)%eff w1 in
             Turn client opts w (fst run) (snd run)).
  { intros parentID w1 Hset run. subst run.
    cbv beta delta [bind wrapErr message.onRepo ret].
    destruct (repository.GetMessages (domain.Thread_ID thread) parentID false
                (message.repoState w1)) as [[history|e] s3] eqn:E3; cbn [fst snd].
    2:{ eapply TurnNoHistory; eassumption. }
    fold (afterRepo w1 s3
            [message.CallGetMessages (domain.Thread_ID thread) parentID false]).
    destruct (message.callLLM client (message.Content opts) history
                (message.StreamHandler_ opts) (message.Tools opts)
                (afterRepo w1 s3
                   [message.CallGetMessages (domain.Thread_ID thread) parentID false]))
      as [[aiResponse|e] w4] eqn:E4; cbn [fst snd].
    2:{ eapply TurnProviderFailed; eassumption. }
    destruct (message.json_Marshal (llm.ToolCalls aiResponse))
      as [toolCallsString|e] eqn:E5; cbn [fst snd].
    2:{ eapply TurnNotSerialised; eassumption. }
    destruct (repository.AddMessageToThread (message.ThreadID opts)
                (message.newMessage (message.ThreadID opts) parentID domain.RoleHuman
                   (message.Content opts) [] [] [])
                (message.repoState w4)) as [[userMsg1|e] s5] eqn:E6; cbn [fst snd].
    2:{ eapply TurnHumanRejected; eassumption. }
    cbn [message.repoState message.calls message.handlerState].
    destruct (repository.AddMessageToThread (message.ThreadID opts)
                (message.newMessage (message.ThreadID opts) (Some (domain.ID userMsg1))
                   domain.RoleAssistant (llm.TextResponse aiResponse) toolCallsString
                   (config.Name (llm.GetConfig client))
                   (config.Provider (llm.GetConfig client))) s5)
      as [r s6] eqn:E7.
    destruct r as [aiMsg1|e]; cbn [fst snd message.calls message.handlerState];
      rewrite <- app_assoc; eapply TurnAppended; eassumption. }
  destruct (message.ParentID opts) as [p|] eqn:EP.
  - apply Htail. eapply ParentGiven; eassumption.
  - cbn [message.repoState message.calls message.handlerState].
    destruct (repository.GetMessages (domain.Thread_ID thread) None false s1)
      as [[msgs|e] s2] eqn:E2; cbn [fst snd].
    2:{ apply TurnUnsettled. rewrite <- app_assoc.
        eapply LatestFailed; eassumption. }
    assert (Hset : Settled opts w (Ok (thread, option_map domain.ID (lastOf msgs)))
                     (message.mkWorld s2 (message.handlerState w)
                        ((message.calls w
                            ++ [message.CallGetThreadByID (message.ThreadID opts)])
                           ++ [message.CallGetMessages (domain.Thread_ID thread)
                                 None false]))).
    { rewrite <- app_assoc. eapply LatestRead; eassumption. }
    pose proof (Htail _ _ Hset) as Hrun.
    destruct (lastOf msgs) as [lastMsg|]; exact Hrun.
Qed.

Lemma Settled_world (opts : message.SendMessageOptions Tool) (w w1 : World)
      (r : result (domain.Thread * option domain.UUID)) :
  Settled opts w r w1 ->
  message.handlerState w1 = message.handlerState w /\
  exists reads,
    message.calls w1 = message.calls w ++ reads /\
    forallb isRead reads = true /\
    (forall e, r = Err e ->
       exists prefix cause, e = Wrap prefix cause /\ In prefix turnErrorPrefixes).
Proof.
  intros Hset.
  destruct Hset; (split; [reflexivity|]); eexists;
    (split; [reflexivity|]); (split; [reflexivity|]);
    intros e0 He0; inversion He0; subst;
    eexists _, _; (split; [reflexivity|]); cbn; auto.
Qed.

(** Without streaming the provider call of the service touches neither the
    handler nor the store, and logs itself only. *)
Lemma callLLM_no_stream (client : llm.Client Tool) (content : list byte)
      (history : list domain.Message) (tools : list (list byte * Tool)) (w : World) :
  snd (message.callLLM client content history false tools w)
  = message.logCall (message.CallLLMSendMessage content history false) w.
Proof.
  unfold message.callLLM, llm.SendMessage, bind, wrapErr, llm.runGenerate, fail, ret.
  cbn [llm.optStreaming].
  destruct (llm.genResult _) as [cr|e]; [|reflexivity].
  destruct (llm.Choices cr); reflexivity.
Qed.

(** An answer of the provider call of the service is built from an answer
    of the provider with at least one choice. *)
Lemma callLLM_ok (client : llm.Client Tool) (content : list byte)
      (history : list domain.Message) (stream : bool)
      (tools : list (list byte * Tool)) (w w' : World)
      (aiResponse : llm.MessageResponse) :
  message.callLLM client content history stream tools w = (Ok aiResponse, w') ->
  exists copts cr choice0 rest,
    llm.genResult (@llm.GenerateContent _ (llm.llm client)
                     (llm.buildMessageHistory history
                        ++ [llm.TextParts llm.ChatMessageTypeHuman content])
                     copts) = Ok cr /\
    llm.Choices cr = choice0 :: rest /\
    aiResponse = llm.mkResponse (llm.choiceContent choice0)
                                (llm.collectToolCalls (llm.Choices cr)).
Proof.
  unfold message.callLLM, llm.SendMessage, bind, wrapErr, llm.runGenerate, fail, ret.
  cbn [llm.optStreaming].
  set (gen := llm.GenerateContent _ _).
  assert (Hres : forall w1 : list byte * World,
             (let '(r, (_, w2)) :=
                match llm.genResult gen with
                | Ok a =>
                    match llm.Choices a with
                    | [] => (Err (NewError "no response choices returned"), w1)
                    | choice0 :: _ =>
                        (Ok (llm.mkResponse (llm.choiceContent choice0)
                               (llm.collectToolCalls (llm.Choices a))), w1)
                    end
                | Err e => (Err (Wrap "streaming message failed: " e), w1)
                end in (r, w2)) = (Ok aiResponse, w') ->
             exists cr choice0 rest,
               llm.genResult gen = Ok cr /\ llm.Choices cr = choice0 :: rest /\
               aiResponse = llm.mkResponse (llm.choiceContent choice0)
                              (llm.collectToolCalls (llm.Choices cr))).
  { intros [cur1 w1].
    destruct (llm.genResult gen) as [cr|e]; [|discriminate].
    destruct (llm.Choices cr) as [|choice0 rest] eqn:Ech; [discriminate|].
    intros Heq. inversion Heq; subst. exists cr, choice0, rest.
    rewrite Ech. auto. }
  destruct stream.
  - destruct (llm.deliver message.streamCallback (llm.genChunks gen) _)
      as [[err|] st1].
    + destruct st1. discriminate.
    + intros Heq.
      destruct (Hres st1) as [cr [choice0 [rest Hcr]]].
      { destruct (llm.genResult gen) as [cr|e]; [|exact Heq].
        destruct (llm.Choices cr); exact Heq. }
      eexists _, cr, choice0, rest. exact Hcr.
  - intros Heq.
    destruct (Hres ([], message.logCall
                          (message.CallLLMSendMessage content history false) w))
      as [cr [choice0 [rest Hcr]]].
    { destruct (llm.genResult gen) as [cr|e]; [|exact Heq].
      destruct (llm.Choices cr); exact Heq. }
    eexists _, cr, choice0, rest. exact Hcr.
Qed.

(** X9: a turn on a thread the repository does not find: [SendMessage]
    returns the error of the lookup behind the words [failed to get
    thread], and the lookup is the only call it has made: no message is
    read, the provider and the handler are not called, nothing is
    appended. *)
Theorem SendMessage_thread_lookup_failure (client : llm.Client Tool)
        (opts : message.SendMessageOptions Tool) (w : World) (e : error) (s1 : S) :
  repository.GetThreadByID (message.ThreadID opts) (message.repoState w) = (Err e, s1) ->
  message.SendMessage client opts w
  = (Err (Wrap "failed to get thread: " e),
     message.mkWorld s1 (message.handlerState w)
       (message.calls w ++ [message.CallGetThreadByID (message.ThreadID opts)])).
Proof.
  intros Hget.
  cbv beta delta [message.SendMessage bind wrapErr message.onRepo ret].
  rewrite Hget. reflexivity.
Qed.

Lemma no_handler_calls_app (l1 l2 : list message.Call) :
  forallb (fun c => negb (isHandlerCall c)) l1 = true ->
  forallb (fun c => negb (isHandlerCall c)) l2 = true ->
  forallb (fun c => negb (isHandlerCall c)) (l1 ++ l2) = true.
Proof. intros H1 H2. rewrite forallb_app, H1, H2. reflexivity. Qed.

Lemma reads_not_handler (reads : list message.Call) :
  forallb isRead reads = true ->
  forallb (fun c => negb (isHandlerCall c)) reads = true.
Proof.
  intros Hr. apply forallb_forall. intros c Hc.
  rewrite forallb_forall in Hr. specialize (Hr c Hc).
  destruct c; try discriminate; reflexivity.
Qed.

Lemma reads_not_add (reads : list message.Call) :
  forallb isRead reads = true ->
  forallb (fun c => negb (isAdd c)) reads = true.
Proof.
  intros Hr. apply forallb_forall. intros c Hc.
  rewrite forallb_forall in Hr. specialize (Hr c Hc).
  destruct c; try discriminate; reflexivity.
Qed.

Lemma handler_calls_not_add (hs : list message.Call) :
  forallb isHandlerCall hs = true ->
  forallb (fun c => negb (isAdd c)) hs = true.
Proof.
  intros Hr. apply forallb_forall. intros c Hc.
  rewrite forallb_forall in Hr. specialize (Hr c Hc).
  destruct c; try discriminate; reflexivity.
Qed.

(** X10: a turn without a stream handler leaves the handler object alone:
    whichever way the turn goes, no handler method is called and the
    state of the handler is what it was. *)
Theorem SendMessage_without_handler (client : llm.Client Tool)
        (opts : message.SendMessageOptions Tool) (w : World) :
  message.StreamHandler_ opts = false ->
  let w' := snd (message.SendMessage client opts w) in
  message.handlerState w' = message.handlerState w /\
  exists new,
    message.calls w' = message.calls w ++ new /\
    forallb (fun c => negb (isHandlerCall c)) new = true.
Proof.
  intros Hno w'. subst w'.
  assert (Hllm : forall history (w1 : World) r (w4 : World),
             message.callLLM client (message.Content opts) history
               (message.StreamHandler_ opts) (message.Tools opts) w1 = (r, w4) ->
             w4 = message.logCall
                    (message.CallLLMSendMessage (message.Content opts) history false) w1).
  { intros history w1 r w4 Heq. rewrite Hno in Heq.
    rewrite <- (callLLM_no_stream client (message.Content opts) history
                  (message.Tools opts) w1), Heq. reflexivity. }
  destruct (SendMessage_turn client opts w)
    as [e w1 Hset
       |thread parentID w1 e s3 Hset E3
       |thread parentID w1 history s3 e w4 Hset E3 E4
       |thread parentID w1 history s3 aiResponse w4 e Hset E3 E4 E5
       |thread parentID w1 history s3 aiResponse w4 tcs e s5 Hset E3 E4 E5 userMsg E6
       |thread parentID w1 history s3 aiResponse w4 tcs userMsg1 s5 r s6
          Hset E3 E4 E5 userMsg aiMsg E6 E7];
    destruct (Settled_world Hset) as [Hh [reads [Hcalls [Hreads _]]]];
    try (apply Hllm in E4; subst w4);
    cbn [afterRepo message.logCall message.handlerState message.calls];
    (split; [exact Hh|]); rewrite Hcalls, <- ?app_assoc;
    eexists; (split; [reflexivity|]);
    repeat first [ apply reads_not_handler; exact Hreads
                 | reflexivity
                 | apply no_handler_calls_app ].
Qed.

(** X11: where the error of a failed turn comes from.  An error returned
    before anything is appended is the error of the failing step behind
    one of five fixed messages, and the log of the turn then holds no
    append.  Any other error is the error an [AddMessageToThread] call
    returned, handed on as it is, that call being the last call of the
    turn: nothing is undone after a failed append. *)
Theorem SendMessage_error_origin (client : llm.Client Tool)
        (opts : message.SendMessageOptions Tool) (w : World) (e : error) :
  fst (message.SendMessage client opts w) = Err e ->
  let w' := snd (message.SendMessage client opts w) in
  exists new,
    message.calls w' = message.calls w ++ new /\
    ((exists prefix cause,
         e = Wrap prefix cause /\ In prefix turnErrorPrefixes /\
         forallb (fun c => negb (isAdd c)) new = true) \/
     (exists pre m s,
         new = pre ++ [message.CallAddMessageToThread (message.ThreadID opts) m] /\
         repository.AddMessageToThread (message.ThreadID opts) m s
         = (Err e, message.repoState w'))).
Proof.
  intros Herr w'. subst w'. revert Herr.
  destruct (SendMessage_turn client opts w)
    as [e0 w1 Hset
       |thread parentID w1 e0 s3 Hset E3
       |thread parentID w1 history s3 e0 w4 Hset E3 E4
       |thread parentID w1 history s3 aiResponse w4 e0 Hset E3 E4 E5
       |thread parentID w1 history s3 aiResponse w4 tcs e0 s5 Hset E3 E4 E5 userMsg E6
       |thread parentID w1 history s3 aiResponse w4 tcs userMsg1 s5 r s6
          Hset E3 E4 E5 userMsg aiMsg E6 E7];
    intros Herr; inversion Herr; subst;
    destruct (Settled_world Hset) as [Hh [reads [Hcalls [Hreads Hwrap]]]].
  - exists reads. split; [exact Hcalls|]. left.
    destruct (Hwrap e eq_refl) as [prefix [cause [He Hin]]].
    exists prefix, cause. repeat split; [exact He | exact Hin |].
    apply reads_not_add. exact Hreads.
  - eexists. cbn [afterRepo message.calls]. rewrite Hcalls, <- app_assoc.
    split; [reflexivity|]. left. eexists _, _.
    split; [reflexivity|]. split; [cbn; auto|].
    rewrite forallb_app, (reads_not_add _ Hreads). reflexivity.
  - pose proof (callLLM_effect client (message.Content opts) history
                  (message.StreamHandler_ opts) (message.Tools opts)
                  (afterRepo w1 s3
                     [message.CallGetMessages (domain.Thread_ID thread) parentID false]))
      as [_ [[hs [Hc4 Hhs]] _]].
    rewrite E4 in Hc4. cbn [fst snd afterRepo message.calls] in Hc4.
    eexists. rewrite Hc4, Hcalls, <- !app_assoc.
    split; [reflexivity|]. left. eexists _, _.
    split; [reflexivity|]. split; [cbn; auto 6|].
    rewrite forallb_app, (reads_not_add _ Hreads). cbn [app forallb isAdd negb andb].
    apply handler_calls_not_add. exact Hhs.
  - pose proof (callLLM_effect client (message.Content opts) history
                  (message.StreamHandler_ opts) (message.Tools opts)
                  (afterRepo w1 s3
                     [message.CallGetMessages (domain.Thread_ID thread) parentID false]))
      as [_ [[hs [Hc4 Hhs]] _]].
    rewrite E4 in Hc4. cbn [fst snd afterRepo message.calls] in Hc4.
    eexists. rewrite Hc4, Hcalls, <- !app_assoc.
    split; [reflexivity|]. left. eexists _, _.
    split; [reflexivity|]. split; [cbn; auto 7|].
    rewrite forallb_app, (reads_not_add _ Hreads). cbn [app forallb isAdd negb andb].
    apply handler_calls_not_add. exact Hhs.
  - pose proof (callLLM_effect client (message.Content opts) history
                  (message.StreamHandler_ opts) (message.Tools opts)
                  (afterRepo w1 s3
                     [message.CallGetMessages (domain.Thread_ID thread) parentID false]))
      as [_ [[hs [Hc4 Hhs]] _]].
    rewrite E4 in Hc4. cbn [fst snd afterRepo message.calls] in Hc4.
    cbn [afterRepo message.calls message.repoState].
    eexists. rewrite Hc4, Hcalls, <- !app_assoc.
    split; [reflexivity|]. right.
    exists (reads ++ [message.CallGetMessages (domain.Thread_ID thread) parentID false]
              ++ message.CallLLMSendMessage (message.Content opts) history
                   (message.StreamHandler_ opts) :: hs),
           userMsg, (message.repoState w4).
    split; [|exact E6].
    repeat (rewrite <- app_assoc || rewrite <- app_comm_cons). reflexivity.
  - pose proof (callLLM_effect client (message.Content opts) history
                  (message.StreamHandler_ opts) (message.Tools opts)
                  (afterRepo w1 s3
                     [message.CallGetMessages (domain.Thread_ID thread) parentID false]))
      as [_ [[hs [Hc4 Hhs]] _]].
    rewrite E4 in Hc4. cbn [fst snd afterRepo message.calls] in Hc4.
    cbn [afterRepo message.calls message.repoState].
    eexists. rewrite Hc4, Hcalls, <- !app_assoc.
    split; [reflexivity|]. right.
    exists (reads ++ [message.CallGetMessages (domain.Thread_ID thread) parentID false]
              ++ message.CallLLMSendMessage (message.Content opts) history
                   (message.StreamHandler_ opts) :: hs
              ++ [message.CallAddMessageToThread (message.ThreadID opts) userMsg]),
           aiMsg, s5.
    split; [|exact E7].
    repeat (rewrite <- app_assoc || rewrite <- app_comm_cons). reflexivity.
Qed.

(** X12: a turn whose tool calls cannot be serialised stores nothing.  When
    [json.Marshal] fails on the tool calls of whatever response the
    provider gives for the turn, [SendMessage] returns an error and makes
    no [AddMessageToThread] call: neither the human message nor the
    response of the provider, already received and streamed, is kept. *)
Theorem SendMessage_unserialisable_tool_calls (client : llm.Client Tool)
        (opts : message.SendMessageOptions Tool) (w : World) :
  (forall history copts cr,
      llm.genResult (@llm.GenerateContent _ (llm.llm client)
                       (providerMessages opts history) copts) = Ok cr ->
      isOk (message.json_Marshal (llm.collectToolCalls (llm.Choices cr))) = false) ->
  let r := fst (message.SendMessage client opts w) in
  let w' := snd (message.SendMessage client opts w) in
  isOk r = false /\
  exists new,
    message.calls w' = message.calls w ++ new /\
    forallb (fun c => negb (isAdd c)) new = true.
Proof.
  intros Hbad r w'. subst r w'.
  assert (Hmarshal : forall history (w1 : World) aiResponse (w4 : World) tcs,
             message.callLLM client (message.Content opts) history
               (message.StreamHandler_ opts) (message.Tools opts) w1
             = (Ok aiResponse, w4) ->
             message.json_Marshal (llm.ToolCalls aiResponse) = Ok tcs -> False).
  { intros history w1 aiResponse w4 tcs E4 E5.
    destruct (callLLM_ok _ _ _ _ _ _ E4) as [copts [cr [choice0 [rest [Hgen [_ Hresp]]]]]].
    specialize (Hbad history copts cr Hgen).
    subst aiResponse. cbn [llm.ToolCalls] in E5. rewrite E5 in Hbad. discriminate. }
  destruct (SendMessage_turn client opts w)
    as [e w1 Hset
       |thread parentID w1 e s3 Hset E3
       |thread parentID w1 history s3 e w4 Hset E3 E4
       |thread parentID w1 history s3 aiResponse w4 e Hset E3 E4 E5
       |thread parentID w1 history s3 aiResponse w4 tcs e s5 Hset E3 E4 E5 userMsg E6
       |thread parentID w1 history s3 aiResponse w4 tcs userMsg1 s5 r s6
          Hset E3 E4 E5 userMsg aiMsg E6 E7];
    try (exfalso; exact (Hmarshal _ _ _ _ _ E4 E5));
    destruct (Settled_world Hset) as [Hh [reads [Hcalls [Hreads _]]]];
    (split; [reflexivity|]).
  - exists reads. split; [exact Hcalls | apply reads_not_add; exact Hreads].
  - eexists. cbn [afterRepo message.calls]. rewrite Hcalls, <- app_assoc.
    split; [reflexivity|].
    rewrite forallb_app, (reads_not_add _ Hreads). reflexivity.
  - pose proof (callLLM_effect client (message.Content opts) history
                  (message.StreamHandler_ opts) (message.Tools opts)
                  (afterRepo w1 s3
                     [message.CallGetMessages (domain.Thread_ID thread) parentID false]))
      as [_ [[hs [Hc4 Hhs]] _]].
    rewrite E4 in Hc4. cbn [fst snd afterRepo message.calls] in Hc4.
    eexists. rewrite Hc4, Hcalls, <- !app_assoc.
    split; [reflexivity|].
    rewrite forallb_app, (reads_not_add _ Hreads). cbn [app forallb isAdd negb andb].
    apply handler_calls_not_add. exact Hhs.
  - pose proof (callLLM_effect client (message.Content opts) history
                  (message.StreamHandler_ opts) (message.Tools opts)
                  (afterRepo w1 s3
                     [message.CallGetMessages (domain.Thread_ID thread) parentID false]))
      as [_ [[hs [Hc4 Hhs]] _]].
    rewrite E4 in Hc4. cbn [fst snd afterRepo message.calls] in Hc4.
    eexists. rewrite Hc4, Hcalls, <- !app_assoc.
    split; [reflexivity|].
    rewrite forallb_app, (reads_not_add _ Hreads). cbn [app forallb isAdd negb andb].
    apply handler_calls_not_add. exact Hhs.
Qed.

(** X13: what a turn that succeeds returns.  The message returned is the
    one the repository gave back for the assistant message; that message
    was handed over with, as its parent, the identity the repository gave
    the human message of the turn, with the text of the first choice of
    the provider's response as its content, and with the name and the
    provider of the client's model; both messages go to the thread named
    in the options. *)
Theorem SendMessage_returns_stored_reply (client : llm.Client Tool)
        (opts : message.SendMessageOptions Tool) (w : World) (m : domain.Message) :
  fst (message.SendMessage client opts w) = Ok m ->
  exists parentID userMsg1 sR s1 history copts cr choice0 rest toolCallsString,
    llm.genResult (@llm.GenerateContent _ (llm.llm client)
                     (providerMessages opts history) copts) = Ok cr /\
    llm.Choices cr = choice0 :: rest /\
    repository.AddMessageToThread (message.ThreadID opts)
      (message.newMessage (message.ThreadID opts) parentID domain.RoleHuman
         (message.Content opts) [] [] []) sR
    = (Ok userMsg1, s1) /\
    repository.AddMessageToThread (message.ThreadID opts)
      (message.newMessage (message.ThreadID opts) (Some (domain.ID userMsg1))
         domain.RoleAssistant (llm.choiceContent choice0) toolCallsString
         (config.Name (llm.GetConfig client))
         (config.Provider (llm.GetConfig client))) s1
    = (Ok m, message.repoState (snd (message.SendMessage client opts w))).
Proof.
  destruct (SendMessage_turn client opts w)
    as [e w1 Hset
       |thread parentID w1 e s3 Hset E3
       |thread parentID w1 history s3 e w4 Hset E3 E4
       |thread parentID w1 history s3 aiResponse w4 e Hset E3 E4 E5
       |thread parentID w1 history s3 aiResponse w4 tcs e s5 Hset E3 E4 E5 userMsg E6
       |thread parentID w1 history s3 aiResponse w4 tcs userMsg1 s5 r s6
          Hset E3 E4 E5 userMsg aiMsg E6 E7];
    intros Hok; try discriminate.
  subst r.
  destruct (callLLM_ok _ _ _ _ _ _ E4) as [copts [cr [choice0 [rest [Hgen [Hch Hresp]]]]]].
  exists parentID, userMsg1, (message.repoState w4), s5, history, copts, cr,
         choice0, rest, tcs.
  split; [exact Hgen|]. split; [exact Hch|]. split; [exact E6|].
  subst aiResponse. exact E7.
Qed.

Lemma Settled_parent (opts : message.SendMessageOptions Tool) (w w1 : World)
      (thread : domain.Thread) (parentID : option domain.UUID) :
  Settled opts w (Ok (thread, parentID)) w1 ->
  parentResolved opts (message.repoState w) parentID.
Proof.
  intros Hset. unfold parentResolved.
  inversion Hset as [| thread0 s1 p E1 EP | | thread0 s1 msgs s2 E1 EP E2]; subst.
  - rewrite EP. reflexivity.
  - rewrite EP. exists thread, s1, msgs, s2. auto.
Qed.

Lemma provider_call_unique (l1 l2 pre post : list message.Call)
      (c0 c : message.Call) :
  forallb (fun x => negb (isProviderCall x)) l1 = true ->
  forallb (fun x => negb (isProviderCall x)) l2 = true ->
  isProviderCall c = true ->
  l1 ++ c0 :: l2 = pre ++ c :: post ->
  c = c0 /\ post = l2.
Proof.
  intros H1 H2 Hc Heq.
  assert (Hnot : forall l, forallb (fun x => negb (isProviderCall x)) l = true ->
                           ~ In c l).
  { intros l Hl Hin. rewrite forallb_forall in Hl. specialize (Hl c Hin).
    rewrite Hc in Hl. discriminate. }
  destruct (@app_cons_after _ l1 (c0 :: l2) pre post c Heq (Hnot l1 H1))
    as [pre' [_ Htail]].
  destruct pre' as [|x pre'']; cbn [app] in Htail; inversion Htail; subst.
  - split; reflexivity.
  - exfalso. apply (Hnot _ H2). apply in_or_app. right. left. reflexivity.
Qed.

Lemma reads_not_provider (reads : list message.Call) :
  forallb isRead reads = true ->
  forallb (fun x => negb (isProviderCall x)) reads = true.
Proof.
  intros Hr. apply forallb_forall. intros c Hc.
  rewrite forallb_forall in Hr. specialize (Hr c Hc).
  destruct c; try discriminate; reflexivity.
Qed.

Lemma handler_calls_not_provider (hs : list message.Call) :
  forallb isHandlerCall hs = true ->
  forallb (fun x => negb (isProviderCall x)) hs = true.
Proof.
  intros Hr. apply forallb_forall. intros c Hc.
  rewrite forallb_forall in Hr. specialize (Hr c Hc).
  destruct c; try discriminate; reflexivity.
Qed.

(** X22: the provider is asked with the context of the very message the
    human message will hang under.  The history of the provider call of a
    turn is what the repository returned for the parent settled for the
    turn (the parent of the options, or the last message of the thread
    when none is given), read without its future; and a human message
    appended after that call has this same parent. *)
Theorem SendMessage_history_of_settled_parent (client : llm.Client Tool)
        (opts : message.SendMessageOptions Tool) (w : World)
        (pre post : list message.Call) (content : list byte)
        (history : list domain.Message) (stream : bool) :
  message.calls (snd (message.SendMessage client opts w))
  = message.calls w ++ pre ++ message.CallLLMSendMessage content history stream :: post ->
  exists thread parentID s s',
    parentResolved opts (message.repoState w) parentID /\
    repository.GetMessages (domain.Thread_ID thread) parentID false s
    = (Ok history, s') /\
    forall threadID m,
      In (message.CallAddMessageToThread threadID m) post ->
      domain.Role m = domain.RoleHuman ->
      domain.ParentID m = parentID.
Proof.
  assert (Hhs_add : forall hs threadID m,
             forallb isHandlerCall hs = true ->
             ~ In (message.CallAddMessageToThread threadID m) hs).
  { intros hs threadID m Hhs Hin. rewrite forallb_forall in Hhs.
    specialize (Hhs _ Hin). discriminate. }
  destruct (SendMessage_turn client opts w)
    as [e w1 Hset
       |thread parentID w1 e s3 Hset E3
       |thread parentID w1 history0 s3 e w4 Hset E3 E4
       |thread parentID w1 history0 s3 aiResponse w4 e Hset E3 E4 E5
       |thread parentID w1 history0 s3 aiResponse w4 tcs e s5 Hset E3 E4 E5 userMsg E6
       |thread parentID w1 history0 s3 aiResponse w4 tcs userMsg1 s5 r s6
          Hset E3 E4 E5 userMsg aiMsg E6 E7];
    destruct (Settled_world Hset) as [_ [reads [Hcalls [Hreads _]]]];
    intros Hlog.
  - exfalso. rewrite Hcalls in Hlog. apply app_inv_head in Hlog.
    pose proof (reads_not_provider _ Hreads) as Hnp.
    rewrite forallb_forall in Hnp.
    assert (Hin : In (message.CallLLMSendMessage content history stream) reads).
    { rewrite Hlog. apply in_or_app. right. left. reflexivity. }
    specialize (Hnp _ Hin). discriminate.
  - exfalso. cbn [afterRepo message.calls] in Hlog.
    rewrite Hcalls, <- app_assoc in Hlog. apply app_inv_head in Hlog.
    assert (Hnp : forallb (fun x => negb (isProviderCall x))
                    (reads ++ [message.CallGetMessages (domain.Thread_ID thread)
                                 parentID false]) = true).
    { rewrite forallb_app, (reads_not_provider _ Hreads). reflexivity. }
    rewrite forallb_forall in Hnp.
    assert (Hin : In (message.CallLLMSendMessage content history stream)
                     (reads ++ [message.CallGetMessages (domain.Thread_ID thread)
                                  parentID false])).
    { rewrite Hlog. apply in_or_app. right. left. reflexivity. }
    specialize (Hnp _ Hin). discriminate.
  - pose proof (callLLM_effect client (message.Content opts) history0
                  (message.StreamHandler_ opts) (message.Tools opts)
                  (afterRepo w1 s3
                     [message.CallGetMessages (domain.Thread_ID thread) parentID false]))
      as [_ [[hs [Hc4 Hhs]] _]].
    rewrite E4 in Hc4. cbn [fst snd afterRepo message.calls] in Hc4.
    rewrite Hc4, Hcalls, <- !app_assoc in Hlog. apply app_inv_head in Hlog.
    rewrite app_assoc in Hlog.
    assert (Hnp1 : forallb (fun x => negb (isProviderCall x))
                     (reads ++ [message.CallGetMessages (domain.Thread_ID thread)
                                  parentID false]) = true).
    { rewrite forallb_app, (reads_not_provider _ Hreads). reflexivity. }
    destruct (@provider_call_unique _ _ _ _ _
                (message.CallLLMSendMessage content history stream)
                Hnp1 (handler_calls_not_provider _ Hhs) eq_refl Hlog) as [Hc Hpost].
    inversion Hc; subst.
    exists thread, parentID, (message.repoState w1), s3.
    split; [exact (Settled_parent Hset)|]. split; [exact E3|].
    intros threadID m Hin _. exfalso. exact (Hhs_add _ _ _ Hhs Hin).
  - pose proof (callLLM_effect client (message.Content opts) history0
                  (message.StreamHandler_ opts) (message.Tools opts)
                  (afterRepo w1 s3
                     [message.CallGetMessages (domain.Thread_ID thread) parentID false]))
      as [_ [[hs [Hc4 Hhs]] _]].
    rewrite E4 in Hc4. cbn [fst snd afterRepo message.calls] in Hc4.
    rewrite Hc4, Hcalls, <- !app_assoc in Hlog. apply app_inv_head in Hlog.
    rewrite app_assoc in Hlog.
    assert (Hnp1 : forallb (fun x => negb (isProviderCall x))
                     (reads ++ [message.CallGetMessages (domain.Thread_ID thread)
                                  parentID false]) = true).
    { rewrite forallb_app, (reads_not_provider _ Hreads). reflexivity. }
    destruct (@provider_call_unique _ _ _ _ _
                (message.CallLLMSendMessage content history stream)
                Hnp1 (handler_calls_not_provider _ Hhs) eq_refl Hlog) as [Hc Hpost].
    inversion Hc; subst.
    exists thread, parentID, (message.repoState w1), s3.
    split; [exact (Settled_parent Hset)|]. split; [exact E3|].
    intros threadID m Hin _. exfalso. exact (Hhs_add _ _ _ Hhs Hin).
  - pose proof (callLLM_effect client (message.Content opts) history0
                  (message.StreamHandler_ opts) (message.Tools opts)
                  (afterRepo w1 s3
                     [message.CallGetMessages (domain.Thread_ID thread) parentID false]))
      as [_ [[hs [Hc4 Hhs]] _]].
    rewrite E4 in Hc4. cbn [fst snd afterRepo message.calls] in Hc4.
    cbn [afterRepo message.calls] in Hlog.
    rewrite Hc4, Hcalls, <- !app_assoc in Hlog. apply app_inv_head in Hlog.
    rewrite app_assoc in Hlog. rewrite <- app_comm_cons in Hlog.
    assert (Hnp1 : forallb (fun x => negb (isProviderCall x))
                     (reads ++ [message.CallGetMessages (domain.Thread_ID thread)
                                  parentID false]) = true).
    { rewrite forallb_app, (reads_not_provider _ Hreads). reflexivity. }
    match type of Hlog with
    | _ ++ _ :: ?l2 = _ =>
        assert (Hnp2 : forallb (fun x => negb (isProviderCall x)) l2 = true)
          by (rewrite forallb_app, (handler_calls_not_provider _ Hhs); reflexivity)
    end.
    destruct (@provider_call_unique _ _ _ _ _
                (message.CallLLMSendMessage content history stream)
                Hnp1 Hnp2 eq_refl Hlog) as [Hc Hpost].
    inversion Hc; subst.
    exists thread, parentID, (message.repoState w1), s3.
    split; [exact (Settled_parent Hset)|]. split; [exact E3|].
    intros threadID m Hin Hrole. apply in_app_or in Hin.
    destruct Hin as [Hin|[Hin|[]]]; [exfalso; exact (Hhs_add _ _ _ Hhs Hin)|].
    inversion Hin; subst. reflexivity.
  - pose proof (callLLM_effect client (message.Content opts) history0
                  (message.StreamHandler_ opts) (message.Tools opts)
                  (afterRepo w1 s3
                     [message.CallGetMessages (domain.Thread_ID thread) parentID false]))
      as [_ [[hs [Hc4 Hhs]] _]].
    rewrite E4 in Hc4. cbn [fst snd afterRepo message.calls] in Hc4.
    cbn [afterRepo message.calls] in Hlog.
    rewrite Hc4, Hcalls, <- !app_assoc in Hlog. apply app_inv_head in Hlog.
    rewrite app_assoc in Hlog. rewrite <- app_comm_cons in Hlog.
    assert (Hnp1 : forallb (fun x => negb (isProviderCall x))
                     (reads ++ [message.CallGetMessages (domain.Thread_ID thread)
                                  parentID false]) = true).
    { rewrite forallb_app, (reads_not_provider _ Hreads). reflexivity. }
    match type of Hlog with
    | _ ++ _ :: ?l2 = _ =>
        assert (Hnp2 : forallb (fun x => negb (isProviderCall x)) l2 = true)
          by (rewrite forallb_app, (handler_calls_not_provider _ Hhs); reflexivity)
    end.
    destruct (@provider_call_unique _ _ _ _ _
                (message.CallLLMSendMessage content history stream)
                Hnp1 Hnp2 eq_refl Hlog) as [Hc Hpost].
    inversion Hc; subst.
    exists thread, parentID, (message.repoState w1), s3.
    split; [exact (Settled_parent Hset)|]. split; [exact E3|].
    intros threadID m Hin Hrole. apply in_app_or in Hin.
    destruct Hin as [Hin|[Hin|[Hin|[]]]]; [exfalso; exact (Hhs_add _ _ _ Hhs Hin)| |].
    + inversion Hin; subst. reflexivity.
    + inversion Hin; subst. discriminate.
Qed.

End TurnSteps.

(* ================================================================== *)
(** * Properties of the client around the provider *)
(* ================================================================== *)

Section ClientFacts.
Import Go Eff.
Variable Tool : Type.

(** X14: the provider is shown the roles and the contents of the history
    and nothing else.  The provider messages are as many as the messages of
    the history and carry their contents in order; a message is given the
    role of the model exactly when it is an assistant message; and two
    histories that agree, message by message, on role and content are
    turned into the same provider messages, whatever their identities,
    parents, stored tool calls, model names and times. *)
Theorem buildMessageHistory_role_and_content (h1 h2 : list domain.Message) :
  map llm.mcText (llm.buildMessageHistory h1) = map domain.Content h1 /\
  Forall2 (fun m c => llm.mcRole c = llm.ChatMessageTypeAI
                      <-> domain.Role m = domain.RoleAssistant)
          h1 (llm.buildMessageHistory h1) /\
  (map (fun m => (domain.Role m, domain.Content m)) h1
   = map (fun m => (domain.Role m, domain.Content m)) h2 ->
   llm.buildMessageHistory h1 = llm.buildMessageHistory h2).
Proof.
  unfold llm.buildMessageHistory. split; [|split].
  - rewrite map_map. reflexivity.
  - induction h1 as [|m h1 IH]; cbn [map]; constructor; [|exact IH].
    cbn [llm.mcRole]. destruct (domain.Role m); split; intros Heq;
      reflexivity || discriminate.
  - revert h2. induction h1 as [|m1 h1 IH]; intros [|m2 h2]; cbn [map];
      try reflexivity; try discriminate.
    intros Heq. inversion Heq as [[Hr Hc Hrest]].
    rewrite Hr, Hc. f_equal. apply IH. exact Hrest.
Qed.

(** X15: what the client makes of the provider's answer.  An answer of
    [Client.SendMessage] comes from an answer of the provider, asked with
    the history followed by the content as a human message, with the
    temperature and the token limit of the model configuration, and with
    streaming as requested; that answer has at least one choice: the text
    returned is the content of the first choice alone, while the tool
    calls returned are those of all the choices, in order.  An error is
    either the fixed error of an answer without choices or the error of
    the provider call behind the words [streaming message failed].
    Without streaming the callback is never run. *)
Theorem Client_SendMessage_answer {W : Type} (c : llm.Client Tool)
        (content : list byte) (history : list domain.Message) (stream : bool)
        (callback : list byte -> W -> option error * W)
        (tools : list (list byte * Tool)) (w : W) :
  let run := llm.SendMessage c content history stream callback tools w in
  let msgs := llm.buildMessageHistory history
                ++ [llm.TextParts llm.ChatMessageTypeHuman content] in
  (forall resp, fst run = Ok resp ->
     exists opts cr choice0 rest,
       llm.optTemperature opts = config.Temperature (llm.GetConfig c) /\
       llm.optMaxTokens opts = config.MaxTokens (llm.GetConfig c) /\
       llm.optStreaming opts = stream /\
       llm.genResult (@llm.GenerateContent _ (llm.llm c) msgs opts) = Ok cr /\
       llm.Choices cr = choice0 :: rest /\
       llm.TextResponse resp = llm.choiceContent choice0 /\
       llm.ToolCalls resp
       = flat_map (fun choice =>
                     map (fun tc => llm.mkToolCall (llm.tcID tc)
                                      (llm.fcName (llm.tcFunctionCall tc))
                                      (llm.fcArguments (llm.tcFunctionCall tc)))
                         (llm.choiceToolCalls choice))
                  (choice0 :: rest)) /\
  (forall e, fst run = Err e ->
     e = NewError "no response choices returned" \/
     exists cause, e = Wrap "streaming message failed: " cause) /\
  (stream = false -> snd run = w).
Proof.
  intros run msgs. subst run.
  unfold llm.SendMessage, bind, wrapErr, llm.runGenerate, fail, ret.
  cbn [llm.optStreaming]. fold msgs.
  set (opts := llm.mkCallOptions _ _ _ stream).
  set (gen := llm.GenerateContent msgs opts).
  destruct stream.
  - destruct (llm.deliver callback (llm.genChunks gen) w) as [[err|] w1].
    + cbn [fst snd]. split; [discriminate|]. split; [|discriminate].
      intros e He. inversion He. right. eexists. reflexivity.
    + destruct (llm.genResult gen) as [cr|e0] eqn:Eg;
        [destruct (llm.Choices cr) as [|choice0 rest] eqn:Ech|]; cbn [fst snd].
      * split; [discriminate|]. split; [|discriminate].
        intros e He. inversion He. left. reflexivity.
      * split; [|split; discriminate].
        intros resp Hr. inversion Hr; subst. exists opts, cr, choice0, rest.
        cbn [llm.TextResponse llm.ToolCalls]. rewrite Ech.
        repeat split; reflexivity || exact Eg.
      * split; [discriminate|]. split; [|discriminate].
        intros e He. inversion He. right. exists e0. reflexivity.
  - destruct (llm.genResult gen) as [cr|e0] eqn:Eg;
      [destruct (llm.Choices cr) as [|choice0 rest] eqn:Ech|]; cbn [fst snd].
    + split; [discriminate|]. split; [|reflexivity].
      intros e He. inversion He. left. reflexivity.
    + split; [|split; [discriminate | reflexivity]].
      intros resp Hr. inversion Hr; subst. exists opts, cr, choice0, rest.
      cbn [llm.TextResponse llm.ToolCalls]. rewrite Ech.
      repeat split; reflexivity || exact Eg.
    + split; [discriminate|]. split; [|reflexivity].
      intros e He. inversion He. right. exists e0. reflexivity.
Qed.

End ClientFacts.

(* ================================================================== *)
(** * Properties of the conversion of tool declarations *)
(* ================================================================== *)

Section ToolFacts.
Import Go.
Variable Any : Type.

Lemma streq_neq (s t : list byte) : streq s t = false <-> s <> t.
Proof.
  split.
  - intros Hf Heq. subst. rewrite streq_refl in Hf. discriminate.
  - intros Hne. destruct (streq s t) eqn:E; [|reflexivity].
    apply streq_eq in E. contradiction.
Qed.

Lemma get_set_same {V} (k : list byte) (v : V) (m : list (list byte * V)) :
  gomap.get k (gomap.set k v m) = Some v.
Proof.
  induction m as [|[k' v'] m IH]; cbn [gomap.set gomap.get].
  - rewrite streq_refl. reflexivity.
  - destruct (streq k' k) eqn:E; cbn [gomap.get].
    + rewrite streq_refl. reflexivity.
    + rewrite E. exact IH.
Qed.

Lemma get_set_other {V} (k k' : list byte) (v : V) (m : list (list byte * V)) :
  streq k' k = false ->
  gomap.get k (gomap.set k' v m) = gomap.get k m.
Proof.
  intros Hne. induction m as [|[k0 v0] m IH]; cbn [gomap.set gomap.get].
  - rewrite Hne. reflexivity.
  - destruct (streq k0 k') eqn:E; cbn [gomap.get].
    + apply streq_eq in E. subst k0. rewrite Hne. reflexivity.
    + destruct (streq k0 k); [reflexivity | exact IH].
Qed.

Lemma get_not_in {V} (k : list byte) (m : list (list byte * V)) :
  ~ In k (map fst m) -> gomap.get k m = None.
Proof.
  induction m as [|[k0 v0] m IH]; intros Hnot; [reflexivity|].
  cbn [gomap.get]. destruct (streq k0 k) eqn:E.
  - apply streq_eq in E. subst. exfalso. apply Hnot. left. reflexivity.
  - apply IH. intros Hin. apply Hnot. right. exact Hin.
Qed.

(** Filling a map from the entries of another, one assignment per entry:
    with distinct keys each key ends up with the image of its value. *)
Lemma fold_set_get {V U} (f : V -> U) (l : list (list byte * V)) :
  NoDup (map fst l) ->
  forall (acc : list (list byte * U)) (name : list byte),
    gomap.get name
      (fold_left (fun acc np => gomap.set (fst np) (f (snd np)) acc) l acc)
    = match gomap.get name l with
      | Some p => Some (f p)
      | None => gomap.get name acc
      end.
Proof.
  induction l as [|[k p] rest IH]; intros Hnd acc name; [reflexivity|].
  cbn [map fst] in Hnd. inversion Hnd as [|x xs Hnot Hnd']; subst.
  cbn [fold_left fst snd gomap.get].
  rewrite (IH Hnd').
  destruct (streq k name) eqn:E.
  - apply streq_eq in E. subst name.
    rewrite get_not_in by exact Hnot. apply get_set_same.
  - rewrite get_set_other by exact E. reflexivity.
Qed.

(** X16: what the conversion of a property keeps and what it drops.  The
    type and the description are always there; the enumeration is there
    exactly when it is not empty and the default exactly when there is
    one; the items of a property that is not an array are dropped; the
    nested properties and the required list of a property that is not an
    object, or that is an object without properties, are dropped, so a
    required list never appears without the properties it refers to. *)
Theorem convertProperty_kept_and_dropped (p : toolcfg.Property Any) :
  let r := llmtools.convertProperty p in
  gomap.get (bs "type") r = Some (llmtools.anyString Any (toolcfg.Type_ p)) /\
  gomap.get (bs "description") r
  = Some (llmtools.anyString Any (toolcfg.Description p)) /\
  gomap.get (bs "enum") r
  = match toolcfg.Enum p with
    | [] => None
    | _ :: _ => Some (llmtools.anyStrings Any (toolcfg.Enum p))
    end /\
  gomap.get (bs "default") r
  = option_map (@llmtools.anyDefault Any) (toolcfg.Default p) /\
  (toolcfg.Type_ p <> bs "array" -> gomap.get (bs "items") r = None) /\
  (toolcfg.Type_ p <> bs "object" \/ toolcfg.Properties p = [] ->
   gomap.get (bs "properties") r = None /\ gomap.get (bs "required") r = None) /\
  (gomap.get (bs "required") r <> None -> gomap.get (bs "properties") r <> None).
Proof.
  destruct p as [ty desc enum items props req dflt].
  cbn [llmtools.convertProperty toolcfg.Type_ toolcfg.Description toolcfg.Enum
       toolcfg.Default toolcfg.Properties].
  set (r0 := [(bs "type", llmtools.anyString Any ty);
              (bs "description", llmtools.anyString Any desc)]).
  set (r1 := if 0 <? len enum
             then gomap.set (bs "enum") (llmtools.anyStrings Any enum) r0 else r0).
  set (r2 := match dflt with
             | Some v => gomap.set (bs "default") (llmtools.anyDefault v) r1
             | None => r1
             end).
  set (r3 := match items with
             | Some it =>
                 if streq ty (bs "array")
                 then gomap.set (bs "items")
                        (llmtools.anyMap (llmtools.convertProperty it)) r2
                 else r2
             | None => r2
             end).
  set (nested := fold_left _ props []).
  set (r4 := gomap.set (bs "properties") (llmtools.anyMap nested) r3).
  assert (H1 : forall k, streq (bs "enum") k = false ->
                         gomap.get k r1 = gomap.get k r0).
  { intros k Hk. unfold r1. destruct (0 <? len enum); [|reflexivity].
    apply get_set_other. exact Hk. }
  assert (H2 : forall k, streq (bs "default") k = false ->
                         gomap.get k r2 = gomap.get k r1).
  { intros k Hk. unfold r2. destruct dflt; [|reflexivity].
    apply get_set_other. exact Hk. }
  assert (H3 : forall k, streq (bs "items") k = false ->
                         gomap.get k r3 = gomap.get k r2).
  { intros k Hk. unfold r3. destruct items; [|reflexivity].
    destruct (streq ty (bs "array")); [|reflexivity].
    apply get_set_other. exact Hk. }
  assert (H4 : forall k, streq (bs "properties") k = false ->
                         gomap.get k r4 = gomap.get k r3).
  { intros k Hk. unfold r4. apply get_set_other. exact Hk. }
  assert (Hfinal : forall k,
             streq (bs "properties") k = false -> streq (bs "required") k = false ->
             gomap.get k
               (if streq ty (bs "object") && (0 <? len props)
                then if 0 <? len req
                     then gomap.set (bs "required") (llmtools.anyStrings Any req) r4
                     else r4
                else r3)
             = gomap.get k r3).
  { intros k Hp Hr.
    destruct (streq ty (bs "object") && (0 <? len props)); [|reflexivity].
    destruct (0 <? len req); [rewrite get_set_other by exact Hr|]; apply H4; exact Hp. }
  assert (Hlen : forall (A : Type) (l : list A),
             (0 <? len l) = match l with [] => false | _ :: _ => true end).
  { intros A [|a l]; [reflexivity|]. unfold len. cbn [List.length].
    apply Z.ltb_lt. lia. }
  split; [rewrite Hfinal, H3, H2, H1 by reflexivity; reflexivity|].
  split; [rewrite Hfinal, H3, H2, H1 by reflexivity; reflexivity|].
  split.
  { rewrite Hfinal, H3, H2 by reflexivity. unfold r1. rewrite Hlen.
    destruct enum; [reflexivity | apply get_set_same]. }
  split.
  { rewrite Hfinal, H3 by reflexivity. unfold r2.
    destruct dflt; cbn [option_map]; [apply get_set_same|].
    rewrite H1 by reflexivity. reflexivity. }
  split.
  { intros Hty. rewrite Hfinal by reflexivity. unfold r3.
    apply streq_neq in Hty. rewrite Hty.
    assert (Hnone : gomap.get (bs "items") r2 = None).
    { rewrite H2, H1 by reflexivity. reflexivity. }
    destruct items; exact Hnone. }
  assert (Hr3p : gomap.get (bs "properties") r3 = None).
  { rewrite H3, H2, H1 by reflexivity. reflexivity. }
  assert (Hr3r : gomap.get (bs "required") r3 = None).
  { rewrite H3, H2, H1 by reflexivity. reflexivity. }
  split.
  { intros Hor.
    assert (Hcond : streq ty (bs "object") && (0 <? len props) = false).
    { destruct Hor as [Hty|Hps].
      - apply streq_neq in Hty. rewrite Hty. reflexivity.
      - rewrite Hps. apply Bool.andb_false_r. }
    rewrite Hcond. split; assumption. }
  destruct (streq ty (bs "object") && (0 <? len props)).
  - intros _. destruct (0 <? len req).
    + rewrite get_set_other by reflexivity. unfold r4.
      rewrite get_set_same. discriminate.
    + unfold r4. rewrite get_set_same. discriminate.
  - intros Hreq. contradiction.
Qed.

(** X17: no declared parameter is lost or mixed up.  The result of
    [convertParameters] always has the three entries [type], [properties]
    and [required]; and, the names of the parameters being distinct as the
    keys of a map are, its [properties] entry holds exactly the declared
    names, each with the conversion of its own property. *)
Theorem convertParameters_properties (params : toolcfg.Parameters Any) :
  NoDup (map fst (toolcfg.paramsProperties params)) ->
  let r := llmtools.convertParameters params in
  gomap.get (bs "type") r = Some (llmtools.anyString Any (toolcfg.paramsType params)) /\
  gomap.get (bs "required") r
  = Some (llmtools.anyStrings Any (toolcfg.paramsRequired params)) /\
  exists m,
    gomap.get (bs "properties") r = Some (llmtools.anyMap m) /\
    forall name,
      gomap.get name m
      = option_map (fun p => llmtools.anyMap (llmtools.convertProperty p))
                   (gomap.get name (toolcfg.paramsProperties params)).
Proof.
  intros Hnd r. subst r. unfold llmtools.convertParameters.
  split; [reflexivity|]. split; [reflexivity|].
  eexists. split; [reflexivity|].
  intros name.
  rewrite (@fold_set_get _ _ (fun p => llmtools.anyMap (llmtools.convertProperty p))
             _ Hnd).
  destruct (gomap.get name (toolcfg.paramsProperties params)); reflexivity.
Qed.

(** X18: the provider tools are made from the entries of the tool map, one
    per entry and in the order the entries are visited: each is of the
    type [function] and is named by the key of its entry.  The [Name]
    field of the declaration plays no part: tool maps that agree on the
    keys, the descriptions and the parameters give the same provider
    tools. *)
Theorem getTools_named_by_key (tools tools' : list (list byte * toolcfg.Tool Any)) :
  map (fun t => llmtools.fnName (llmtools.llmsFunction t)) (llmtools.getTools tools)
  = map fst tools /\
  Forall (fun t => llmtools.llmsType t = bs "function") (llmtools.getTools tools) /\
  (Forall2 (fun a b => fst a = fst b /\
                       toolcfg.toolDescription (snd a) = toolcfg.toolDescription (snd b) /\
                       toolcfg.toolParameters (snd a) = toolcfg.toolParameters (snd b))
           tools tools' ->
   llmtools.getTools tools = llmtools.getTools tools').
Proof.
  unfold llmtools.getTools. split; [|split].
  - rewrite map_map. reflexivity.
  - apply Forall_forall. intros t Hin. apply in_map_iff in Hin.
    destruct Hin as [nt [Heq _]]. subst t. reflexivity.
  - induction 1 as [|a b l l' [Hk [Hd Hp]] Hrest IH]; [reflexivity|].
    cbn [map]. rewrite IH, Hk, Hd, Hp. reflexivity.
Qed.

End ToolFacts.

(* ================================================================== *)
(** * Properties of the construction of the client *)
(* ================================================================== *)

Section NewClientFacts.
Import Go Eff.
Variable Tool : Type.
Context {providers : llmnew.Providers Tool}.

(** X19: a client is built for three providers only, named exactly
    [openai], [anthropic] and [googleai], and it keeps the configuration
    it was built from.  For any other provider name [NewClient] returns
    the error [unsupported provider] with the name, whatever the
    constructors of the library would do; and every error of [New] is the
    error of [NewClient] behind the words [failed to create LLM client]. *)
Theorem NewClient_supported_providers (modelCfg : config.Model Tool) :
  let supported := [bs "openai"; bs "anthropic"; bs "googleai"] in
  (forall c, llmnew.NewClient modelCfg = Ok c ->
     llm.GetConfig c = modelCfg /\ In (config.Provider modelCfg) supported) /\
  (~ In (config.Provider modelCfg) supported ->
   llmnew.NewClient modelCfg
   = Err (NewError (String.append "unsupported provider: "
                      (string_of_list_byte (config.Provider modelCfg))))) /\
  (forall e, llmnew.New modelCfg = Err e ->
     exists cause,
       llmnew.NewClient modelCfg = Err cause /\
       e = Wrap "failed to create LLM client: " cause).
Proof.
  intros supported. subst supported. split; [|split].
  - unfold llmnew.NewClient. intros c.
    destruct (streq (config.Provider modelCfg) (bs "openai")) eqn:E1.
    { apply streq_eq in E1.
      destruct (llmnew.openai_New _); intros Heq; inversion Heq; subst.
      split; [reflexivity | left; symmetry; exact E1]. }
    destruct (streq (config.Provider modelCfg) (bs "anthropic")) eqn:E2.
    { apply streq_eq in E2.
      destruct (llmnew.anthropic_New _); intros Heq; inversion Heq; subst.
      split; [reflexivity | right; left; symmetry; exact E2]. }
    destruct (streq (config.Provider modelCfg) (bs "googleai")) eqn:E3.
    { apply streq_eq in E3.
      destruct (llmnew.googleai_New _ _); intros Heq; inversion Heq; subst.
      split; [reflexivity | right; right; left; symmetry; exact E3]. }
    discriminate.
  - intros Hnot. unfold llmnew.NewClient.
    destruct (streq (config.Provider modelCfg) (bs "openai")) eqn:E1.
    { apply streq_eq in E1. exfalso. apply Hnot. left. symmetry. exact E1. }
    destruct (streq (config.Provider modelCfg) (bs "anthropic")) eqn:E2.
    { apply streq_eq in E2. exfalso. apply Hnot. right. left. symmetry. exact E2. }
    destruct (streq (config.Provider modelCfg) (bs "googleai")) eqn:E3.
    { apply streq_eq in E3. exfalso. apply Hnot. right. right. left.
      symmetry. exact E3. }
    reflexivity.
  - unfold llmnew.New. intros e.
    destruct (llmnew.NewClient modelCfg) as [c|cause]; [discriminate|].
    intros Heq. inversion Heq. exists cause. split; reflexivity.
Qed.

End NewClientFacts.

(* ================================================================== *)
(** * Further properties of the thread details *)
(* ================================================================== *)

Section ThreadDetailsMore.
Import Go Eff.
Context {S : Type} {messageRepo : repository.MessageRepository S}.
Context {H : Type}.

Abbreviation World := (@message.World S H).

(** X20: [GetThreadDetails] makes one call on the repository, the read of
    the context of the thread without a reference message and without its
    future, also when the thread has a summary.  When that read fails its
    error is returned as it is, without any words in front; when it
    succeeds the details carry the identity and the creation time of the
    thread given, and count all the messages read, of either role. *)
Theorem GetThreadDetails_one_read (thread : domain.Thread) (w : World) :
  let read := repository.GetMessages (domain.Thread_ID thread) None false
                                     (message.repoState w) in
  let r := fst (message.GetThreadDetails thread w) in
  snd (message.GetThreadDetails thread w)
  = message.mkWorld (snd read) (message.handlerState w)
      (message.calls w
         ++ [message.CallGetMessages (domain.Thread_ID thread) None false]) /\
  match fst read with
  | Err e => r = Err e
  | Ok messages =>
      exists d,
        r = Ok d /\
        message.ID d = domain.Thread_ID thread /\
        message.CreatedAt d = domain.Thread_CreatedAt thread /\
        message.MessageCount d = len messages
  end.
Proof.
  unfold message.GetThreadDetails, bind, message.onRepo, ret.
  destruct (repository.GetMessages (domain.Thread_ID thread) None false
              (message.repoState w)) as [[messages|e] s1]; cbn [fst snd].
  - split; [reflexivity|]. eexists. repeat split.
  - split; reflexivity.
Qed.

End ThreadDetailsMore.

(* ================================================================== *)
(** * The further properties on the concrete turns *)
(* ================================================================== *)

Section MoreInstances.
Import Go Eff scenario.

#[local] Existing Instance store.Store_MessageRepository.
#[local] Existing Instance CLI.CLIStreamHandler_StreamHandler.
#[local] Existing Instance codec.encodingJSON.

Lemma cli_text_stream_verbatim_witness :
  Forall textChunk [bs "y"; bs "o, [1]"] /\
  CLI.stdout (message.handlerState (snd (snd (stream [bs "y"; bs "o, [1]"]))))
  = bs "yo, [1]".
Proof.
  assert (Hall : Forall textChunk [bs "y"; bs "o, [1]"]).
  { repeat constructor; vm_compute; exact I. }
  split; [exact Hall|].
  unfold stream.
  rewrite (@cli_text_stream_verbatim _ _ [bs "y"; bs "o, [1]"] []
             (freshWorld emptyThread) Hall).
  reflexivity.
Defined.

Lemma cli_tool_call_stream_witness :
  let chunks := [fragment "1" "f" "{"; fragment "1" "f" "}"] in
  CLI.stdout (message.handlerState (snd (snd (stream chunks))))
  = [x0a; x0a] ++ bs "[Requesting tool use: f]" ++ [x0a] ++ bs "  ".
Proof.
  assert (Hall : Forall2 (fun c e => exists rest,
                              message.json_Unmarshal c = Ok (e :: rest))
                         [fragment "1" "f" "{"; fragment "1" "f" "}"]
                         [elemOf "1" "f" "{"; elemOf "1" "f" "}"]).
  { repeat constructor; exists []; vm_compute; reflexivity. }
  assert (Hne : @nil byte <> bs "1") by discriminate.
  assert (Hmore : Forall (continues (bs "1")) [elemOf "1" "f" "}"]).
  { constructor; [right; reflexivity | constructor]. }
  destruct (@cli_tool_call_stream _ _ _ _ _ (bs "1") [] (freshWorld emptyThread)
              Hall eq_refl Hne Hmore) as [_ [_ Hout]].
  cbv zeta. unfold stream. rewrite Hout. reflexivity.
Defined.

Lemma SendMessage_thread_lookup_failure_witness :
  message.SendMessage (client [bs "y"] (answer (bs "yo") []))
                      (elsewhere (bs "hi")) (freshWorld emptyThread)
  = (Err (Wrap "failed to get thread: " store.ErrNotFound),
     message.mkWorld emptyThread (CLI.mkConsole CLI.newHandler [])
                     [message.CallGetThreadByID 9%N]).
Proof.
  apply (@SendMessage_thread_lookup_failure unit _ _ _ _ _
           (client [bs "y"] (answer (bs "yo") [])) (elsewhere (bs "hi"))
           (freshWorld emptyThread) store.ErrNotFound emptyThread).
  reflexivity.
Defined.

Lemma SendMessage_without_handler_witness :
  isOk (fst turnQuiet) = true /\
  message.handlerState (snd turnQuiet) = CLI.mkConsole CLI.newHandler [].
Proof.
  split; [reflexivity|].
  exact (proj1 (@SendMessage_without_handler unit _ _ _ _ _
                  (client [bs "y"; CLI.essayFragment] (answer (bs "yo") []))
                  (quietly (bs "hi")) (freshWorld emptyThread) eq_refl)).
Defined.

Lemma SendMessage_error_origin_witness :
  let e := Wrap "failed to stream AI response: "
             (Wrap "streaming message failed: " (NewError "context canceled")) in
  fst turnCancelled = Err e /\
  exists new,
    message.calls (snd turnCancelled) = [] ++ new /\
    ((exists prefix cause,
         e = Wrap prefix cause /\ In prefix turnErrorPrefixes /\
         forallb (fun c => negb (isAdd c)) new = true) \/
     (exists pre m s,
         new = pre ++ [message.CallAddMessageToThread 7%N m] /\
         repository.AddMessageToThread 7%N m s
         = (Err e, message.repoState (snd turnCancelled)))).
Proof.
  split; [reflexivity|].
  apply (@SendMessage_error_origin unit _ _ _ _ _
           (client [bs "y"] (Err (NewError "context canceled")))
           (say (bs "hi")) (freshWorld emptyThread)).
  reflexivity.
Defined.

Lemma SendMessage_unserialisable_tool_calls_witness :
  isOk (fst turnBare) = false /\
  exists new,
    message.calls (snd turnBare) = [] ++ new /\
    forallb (fun c => negb (isAdd c)) new = true.
Proof.
  apply (@SendMessage_unserialisable_tool_calls unit _ _ _ _ _
           (client [bs "ok"] (answer (bs "ok") [bareCall]))
           (say (bs "time?")) (freshWorld emptyThread)).
  intros history copts cr Hgen. cbn in Hgen. inversion Hgen; subst.
  vm_compute. reflexivity.
Defined.

Lemma SendMessage_returns_stored_reply_witness :
  let c := client [bs "y"; bs "o"] (answer (bs "yo") []) in
  exists m,
    fst turnOk = Ok m /\
    exists parentID userMsg1 sR s1 history copts cr choice0 rest toolCallsString,
      llm.genResult (@llm.GenerateContent _ (llm.llm c)
                       (providerMessages (say (bs "hi")) history) copts) = Ok cr /\
      llm.Choices cr = choice0 :: rest /\
      repository.AddMessageToThread 7%N
        (message.newMessage 7%N parentID domain.RoleHuman (bs "hi") [] [] []) sR
      = (Ok userMsg1, s1) /\
      repository.AddMessageToThread 7%N
        (message.newMessage 7%N (Some (domain.ID userMsg1))
           domain.RoleAssistant (llm.choiceContent choice0) toolCallsString
           (bs "claude-3-5-haiku-latest") (bs "anthropic")) s1
      = (Ok m, message.repoState (snd turnOk)).
Proof.
  eexists. split; [vm_compute; reflexivity|].
  apply (@SendMessage_returns_stored_reply unit _ _ _ _ _
           (client [bs "y"; bs "o"] (answer (bs "yo") []))
           (say (bs "hi")) (freshWorld emptyThread)).
  vm_compute. reflexivity.
Defined.

Lemma convertParameters_properties_witness :
  NoDup (map fst (toolcfg.paramsProperties weatherParameters)) /\
  exists m,
    gomap.get (bs "properties") (llmtools.convertParameters weatherParameters)
    = Some (llmtools.anyMap m) /\
    gomap.get (bs "unit") m
    = Some (llmtools.anyMap
              [(bs "type", llmtools.anyString unit (bs "string"));
               (bs "description", llmtools.anyString unit []);
               (bs "enum",
                llmtools.anyStrings unit [bs "fahrenheit"; bs "celsius"])]) /\
    gomap.get (bs "city") m = None.
Proof.
  assert (Hnd : NoDup (map fst (toolcfg.paramsProperties weatherParameters))).
  { repeat constructor; cbn; intuition discriminate. }
  split; [exact Hnd|].
  destruct (@convertParameters_properties unit weatherParameters Hnd)
    as [_ [_ [m [Hprops Hget]]]].
  exists m. split; [exact Hprops|].
  rewrite !Hget. split; reflexivity.
Defined.

Lemma SendMessage_history_of_settled_parent_witness :
  exists history post,
    message.calls (snd turnNext)
    = [] ++ [message.CallGetThreadByID 7%N;
             message.CallGetMessages 7%N None false;
             message.CallGetMessages 7%N (Some 2%N) false]
         ++ message.CallLLMSendMessage (bs "and you?") history true :: post /\
    map domain.Content history = [bs "hi"; bs "yo"] /\
    exists thread parentID s s',
      parentResolved (say (bs "and you?")) (message.repoState (snd turnOk)) parentID /\
      repository.GetMessages (domain.Thread_ID thread) parentID false s
      = (Ok history, s') /\
      forall threadID m,
        In (message.CallAddMessageToThread threadID m) post ->
        domain.Role m = domain.RoleHuman ->
        domain.ParentID m = parentID.
Proof.
  eexists _, _. split; [vm_compute; reflexivity|].
  split; [reflexivity|].
  apply (@SendMessage_history_of_settled_parent unit _ _ _ _ _
           (client [] (answer (bs "fine") []))
           (say (bs "and you?"))
           (freshWorld (message.repoState (snd turnOk)))
           [message.CallGetThreadByID 7%N;
            message.CallGetMessages 7%N None false;
            message.CallGetMessages 7%N (Some 2%N) false]
           _ (bs "and you?") _ true).
  vm_compute. reflexivity.
Defined.

End MoreInstances.
